(** * A shallow embedding of [schedule/schedule.py]

    The periodic-task scheduler: the time-window calculus ([TimeWindow]),
    the task state machine ([BaseTask], [PeriodicTask]) and the dispatcher
    ([Scheduler]).

    Conventions of the embedding.
    - A [datetime] is a number of microseconds on an unbounded time line
      ([Z]); its calendar day and its time of day are the quotient and the
      remainder by the length of a day.  Comparison of naive datetimes is
      then comparison on [Z].
    - A [datetime.time] is a number of microseconds since midnight together
      with the range check the Python constructor performs.
    - A [timedelta] (and a duration in seconds such as [interval] and
      [max_running_time]) is a number of microseconds.
    - [datetime.now()] is an explicit clock value.
    - Events ([threading.Event]) are booleans; what other execution
      contexts do while [run] is in progress is an explicit script. *)

From Stdlib Require Import ZArith List Bool Lia String.
From Stdlib Require Import Sorting.Sorted Sorting.Permutation.
From Equations Require Import Equations.
Import ListNotations.
Open Scope Z_scope.

(* ===================================================================== *)
(** * Dates and times *)
(* ===================================================================== *)

Module DateTime.

(** Microseconds in a calendar day. *)
Definition day_us : Z := 86400000000.

(** [datetime]: microseconds since the start of day 0. *)
Definition datetime := Z.

(** [timedelta]: a signed number of microseconds. *)
Definition timedelta := Z.

(** [datetime.time]: the time of day, always within one day. *)
Record dtime : Type := mk_dtime {
  micros : Z;
  micros_range : (0 <=? micros) && (micros <? day_us) = true
}.

(** [dtime(hour, minute)] for literals. *)
Definition hm (h m : Z) : Z := (h * 60 + m) * 60000000.

(** [d.date()] *)
Definition date (d : datetime) : Z := d / day_us.

(** [d.time()], as microseconds since midnight. *)
Definition time_of (d : datetime) : Z := d mod day_us.

(** [datetime.combine(date, time)] *)
Definition combine (day : Z) (t : dtime) : datetime := day * day_us + micros t.

(** [timedelta(days=n)] *)
Definition days (n : Z) : timedelta := n * day_us.

(** [datetime(…)] literal: day number, hour, minute. *)
Definition at_ (day h m : Z) : datetime := day * day_us + hm h m.

End DateTime.
Import DateTime.

(* ===================================================================== *)
(** * TimeWindow *)
(* ===================================================================== *)

Record TimeWindow : Type := mkTimeWindow {
  start_time : dtime;
  end_time : dtime
}.

(** [TimeWindow.is_in_window(current_time)] *)
Definition is_in_window (w : TimeWindow) (current : datetime) : bool :=
  let current_time := time_of current in
  if micros (start_time w) <=? micros (end_time w)
  then (micros (start_time w) <=? current_time) && (current_time <=? micros (end_time w))
  else (micros (start_time w) <=? current_time) || (current_time <=? micros (end_time w)).

(** [TimeWindow.next_window_start(current_time)] *)
Definition next_window_start (w : TimeWindow) (current : datetime) : datetime :=
  let start_today := combine (date current) (start_time w) in
  if micros (start_time w) <=? micros (end_time w)
  then
    if micros (end_time w) <? time_of current then start_today + days 1
    else if time_of current <? micros (start_time w) then start_today
    else current
  else
    if (micros (end_time w) <? time_of current) && (time_of current <? micros (start_time w))
    then start_today
    else current.

(** [any(window.is_in_window(t) for window in windows)] *)
Definition any_in_window (ws : list TimeWindow) (t : datetime) : bool :=
  existsb (fun w => is_in_window w t) ws.

(** Python's [min] over a non-empty sequence of datetimes, given by its
    first element and the rest. *)
Definition py_min (x : Z) (rest : list Z) : Z := fold_left Z.min rest x.

(** [min(window.next_window_start(t) for window in windows)], for the
    non-empty list [w :: ws]. *)
Definition min_next_window_start (w : TimeWindow) (ws : list TimeWindow) (t : datetime)
  : datetime :=
  py_min (next_window_start w t) (map (fun w' => next_window_start w' t) ws).

(** Facts on a split instant used by the arithmetic of the calculus. *)
Ltac split_instant t :=
  let Hd := fresh "Hdiv" in
  let Hr := fresh "Hrange" in
  pose proof (Z.div_mod t day_us ltac:(unfold day_us; lia)) as Hd;
  pose proof (Z.mod_pos_bound t day_us ltac:(unfold day_us; lia)) as Hr.

Ltac window_bounds w :=
  let Hs := fresh "Hstart" in
  let He := fresh "Hend" in
  pose proof (micros_range (start_time w)) as Hs;
  pose proof (micros_range (end_time w)) as He;
  apply andb_true_iff in Hs; destruct Hs as [?Hs0 ?Hs1];
  apply andb_true_iff in He; destruct He as [?He0 ?He1];
  rewrite ?Z.leb_le, ?Z.ltb_lt in *.

(** Closes a goal [is_in_window w (next_window_start w t) = true]. *)
Ltac next_start_is_inside w t :=
  let Hc := fresh "Hcombine" in
  assert (Hc : forall k, time_of (k * day_us + micros (start_time w)) = micros (start_time w))
    by (window_bounds w; intro; unfold time_of;
        rewrite Z.add_comm, Z.mod_add, Z.mod_small; unfold day_us in *; lia);
  unfold is_in_window, next_window_start, combine, days;
  window_bounds w; split_instant t; fold (time_of t) in *;
  destruct (Z.leb_spec (micros (start_time w)) (micros (end_time w)));
  [ destruct (Z.ltb_spec (micros (end_time w)) (time_of t));
    [ replace (date t * day_us + micros (start_time w) + 1 * day_us)
        with ((date t + 1) * day_us + micros (start_time w)) by lia;
      rewrite Hc; apply andb_true_iff; split; apply Z.leb_le; lia
    | destruct (Z.ltb_spec (time_of t) (micros (start_time w)));
      [ rewrite Hc; apply andb_true_iff; split; apply Z.leb_le; lia
      | apply andb_true_iff; split; apply Z.leb_le; lia ] ]
  | destruct (Z.ltb_spec (micros (end_time w)) (time_of t));
    destruct (Z.ltb_spec (time_of t) (micros (start_time w))); cbn [andb];
    [ rewrite Hc; apply orb_true_iff; left; apply Z.leb_le; lia
    | apply orb_true_iff; left; apply Z.leb_le; lia
    | apply orb_true_iff; right; apply Z.leb_le; lia
    | apply orb_true_iff; right; apply Z.leb_le; lia ] ].

(** A value together with the equation that names it, for the guards of
    the loop below. *)
Definition inspect {A : Type} (a : A) : {b : A | a = b} := exist _ a eq_refl.

(** Termination measure of the window loop: one step is left while the
    instant lies outside every window. *)
Definition steps_left (ws : list TimeWindow) (t : datetime) : nat :=
  if any_in_window ws t then 0%nat else 1%nat.

(** The loop of [_update_next_run_time]:
<<
    while not any(window.is_in_window(current_time) for window in self.time_windows):
        next_window = min(window.next_window_start(current_time) for window in self.time_windows)
        current_time = next_window
>>
    It is reached with a non-empty list of windows only, here [w :: ws]. *)
Equations? window_loop (w : TimeWindow) (ws : list TimeWindow) (current_time : datetime)
  : datetime by wf (steps_left (w :: ws) current_time) lt :=
  window_loop w ws current_time with inspect (any_in_window (w :: ws) current_time) := {
    | exist _ true _ => current_time
    | exist _ false Hout => window_loop w ws (min_next_window_start w ws current_time) }.
Proof.
  unfold steps_left.
  change (any_in_window (w :: ws) current_time = false) in Hout. rewrite Hout.
  assert (Hmem : forall l x, In (fold_left Z.min l x) (x :: l)).
  { induction l as [|y r IH]; intro x; simpl; [left; reflexivity|].
    destruct (IH (Z.min x y)) as [Hhd|Htl]; [|right; right; exact Htl].
    rewrite <- Hhd. destruct (Z.min_spec x y) as [[_ Hm]|[_ Hm]]; rewrite Hm; auto. }
  pose proof (Hmem (map (fun w' => next_window_start w' current_time) ws)
                   (next_window_start w current_time)) as Hin.
  change (In (min_next_window_start w ws current_time)
             (map (fun w' => next_window_start w' current_time) (w :: ws))) in Hin.
  apply in_map_iff in Hin. destruct Hin as (w' & Hw' & Hin).
  assert (Hin' : any_in_window (w :: ws) (min_next_window_start w ws current_time) = true).
  { apply existsb_exists. exists w'. split; [exact Hin|]. rewrite <- Hw'.
    next_start_is_inside w' current_time. }
  rewrite Hin'. lia.
Qed.

(* ===================================================================== *)
(** * Tasks *)
(* ===================================================================== *)

Inductive SchedulerMode : Type := FOREGROUND | BACKGROUND.

Inductive TaskStatus : Type :=
  PENDING | RUNNING | COMPLETED | FAILED | PAUSED | STOPPED | CANCELLED.

Inductive TaskPriority : Type := LOW | NORMAL | HIGH | CRITICAL.

(** [TaskPriority.value] *)
Definition priority_value (p : TaskPriority) : Z :=
  match p with LOW => 0 | NORMAL => 1 | HIGH => 2 | CRITICAL => 3 end.

Definition status_eqb (a b : TaskStatus) : bool :=
  match a, b with
  | PENDING, PENDING | RUNNING, RUNNING | COMPLETED, COMPLETED | FAILED, FAILED
  | PAUSED, PAUSED | STOPPED, STOPPED | CANCELLED, CANCELLED => true
  | _, _ => false
  end.

(** Exceptions raised by the control operations. *)
Inductive exn : Type :=
| TaskControlError (msg : string)
| RuntimeError (msg : string).

Inductive result (A : Type) : Type :=
| Ok (a : A)
| Raise (e : exn).
Arguments Ok {A} a.
Arguments Raise {A} e.

(** A registered callback is known by an identifier; calling it is recorded
    in the task's log.  Callbacks are taken to return normally and to leave
    the task alone. *)
Definition callback := nat.

(** What a task does that an observer can see: every assignment of
    [_update_status], and every call of a registered callback. *)
Inductive event : Type :=
| Transition (old_status new_status : TaskStatus)
| StatusChangeCall (cb : callback) (old_status new_status : TaskStatus)
| SuccessCall (cb : callback)
| FailureCall (cb : callback).

(** [BaseTask] / [PeriodicTask].  [supports_interrupt] is
    [hasattr(self._task_func, 'supports_interrupt')]; [_execution_timer] is
    never assigned anything but [None] and is left out; [log] is the
    observer's record. *)
Record Task : Type := mkTask {
  task_id : nat;
  name : string;
  priority : TaskPriority;
  status : TaskStatus;
  interval : option timedelta;
  last_run : option datetime;
  next_run : option datetime;
  error_count : nat;
  time_windows : list TimeWindow;
  max_running_time : option timedelta;
  _stop_event : bool;
  _pause_event : bool;
  _on_success_callbacks : list callback;
  _on_failure_callbacks : list callback;
  _on_status_change_callbacks : list callback;
  _execution_start_time : option datetime;
  supports_interrupt : bool;
  log : list event
}.

Definition set_status (v : TaskStatus) (t : Task) : Task :=
  {| task_id := task_id t; name := name t; priority := priority t; status := v; interval
     := interval t; last_run := last_run t; next_run := next_run t; error_count :=
     error_count t; time_windows := time_windows t; max_running_time := max_running_time
     t; _stop_event := _stop_event t; _pause_event := _pause_event t;
     _on_success_callbacks := _on_success_callbacks t; _on_failure_callbacks :=
     _on_failure_callbacks t; _on_status_change_callbacks := _on_status_change_callbacks
     t; _execution_start_time := _execution_start_time t; supports_interrupt :=
     supports_interrupt t; log := log t |}.

Definition set_last_run (v : option datetime) (t : Task) : Task :=
  {| task_id := task_id t; name := name t; priority := priority t; status := status t;
     interval := interval t; last_run := v; next_run := next_run t; error_count :=
     error_count t; time_windows := time_windows t; max_running_time := max_running_time
     t; _stop_event := _stop_event t; _pause_event := _pause_event t;
     _on_success_callbacks := _on_success_callbacks t; _on_failure_callbacks :=
     _on_failure_callbacks t; _on_status_change_callbacks := _on_status_change_callbacks
     t; _execution_start_time := _execution_start_time t; supports_interrupt :=
     supports_interrupt t; log := log t |}.

Definition set_next_run (v : option datetime) (t : Task) : Task :=
  {| task_id := task_id t; name := name t; priority := priority t; status := status t;
     interval := interval t; last_run := last_run t; next_run := v; error_count :=
     error_count t; time_windows := time_windows t; max_running_time := max_running_time
     t; _stop_event := _stop_event t; _pause_event := _pause_event t;
     _on_success_callbacks := _on_success_callbacks t; _on_failure_callbacks :=
     _on_failure_callbacks t; _on_status_change_callbacks := _on_status_change_callbacks
     t; _execution_start_time := _execution_start_time t; supports_interrupt :=
     supports_interrupt t; log := log t |}.

Definition set_error_count (v : nat) (t : Task) : Task :=
  {| task_id := task_id t; name := name t; priority := priority t; status := status t;
     interval := interval t; last_run := last_run t; next_run := next_run t; error_count
     := v; time_windows := time_windows t; max_running_time := max_running_time t;
     _stop_event := _stop_event t; _pause_event := _pause_event t; _on_success_callbacks
     := _on_success_callbacks t; _on_failure_callbacks := _on_failure_callbacks t;
     _on_status_change_callbacks := _on_status_change_callbacks t; _execution_start_time
     := _execution_start_time t; supports_interrupt := supports_interrupt t; log := log
     t |}.

Definition set_stop_event (v : bool) (t : Task) : Task :=
  {| task_id := task_id t; name := name t; priority := priority t; status := status t;
     interval := interval t; last_run := last_run t; next_run := next_run t; error_count
     := error_count t; time_windows := time_windows t; max_running_time :=
     max_running_time t; _stop_event := v; _pause_event := _pause_event t;
     _on_success_callbacks := _on_success_callbacks t; _on_failure_callbacks :=
     _on_failure_callbacks t; _on_status_change_callbacks := _on_status_change_callbacks
     t; _execution_start_time := _execution_start_time t; supports_interrupt :=
     supports_interrupt t; log := log t |}.

Definition set_pause_event (v : bool) (t : Task) : Task :=
  {| task_id := task_id t; name := name t; priority := priority t; status := status t;
     interval := interval t; last_run := last_run t; next_run := next_run t; error_count
     := error_count t; time_windows := time_windows t; max_running_time :=
     max_running_time t; _stop_event := _stop_event t; _pause_event := v;
     _on_success_callbacks := _on_success_callbacks t; _on_failure_callbacks :=
     _on_failure_callbacks t; _on_status_change_callbacks := _on_status_change_callbacks
     t; _execution_start_time := _execution_start_time t; supports_interrupt :=
     supports_interrupt t; log := log t |}.

Definition set_on_success_callbacks (v : list callback) (t : Task) : Task :=
  {| task_id := task_id t; name := name t; priority := priority t; status := status t;
     interval := interval t; last_run := last_run t; next_run := next_run t; error_count
     := error_count t; time_windows := time_windows t; max_running_time :=
     max_running_time t; _stop_event := _stop_event t; _pause_event := _pause_event t;
     _on_success_callbacks := v; _on_failure_callbacks := _on_failure_callbacks t;
     _on_status_change_callbacks := _on_status_change_callbacks t; _execution_start_time
     := _execution_start_time t; supports_interrupt := supports_interrupt t; log := log
     t |}.

Definition set_on_failure_callbacks (v : list callback) (t : Task) : Task :=
  {| task_id := task_id t; name := name t; priority := priority t; status := status t;
     interval := interval t; last_run := last_run t; next_run := next_run t; error_count
     := error_count t; time_windows := time_windows t; max_running_time :=
     max_running_time t; _stop_event := _stop_event t; _pause_event := _pause_event t;
     _on_success_callbacks := _on_success_callbacks t; _on_failure_callbacks := v;
     _on_status_change_callbacks := _on_status_change_callbacks t; _execution_start_time
     := _execution_start_time t; supports_interrupt := supports_interrupt t; log := log
     t |}.

Definition set_on_status_change_callbacks (v : list callback) (t : Task) : Task :=
  {| task_id := task_id t; name := name t; priority := priority t; status := status t;
     interval := interval t; last_run := last_run t; next_run := next_run t; error_count
     := error_count t; time_windows := time_windows t; max_running_time :=
     max_running_time t; _stop_event := _stop_event t; _pause_event := _pause_event t;
     _on_success_callbacks := _on_success_callbacks t; _on_failure_callbacks :=
     _on_failure_callbacks t; _on_status_change_callbacks := v; _execution_start_time :=
     _execution_start_time t; supports_interrupt := supports_interrupt t; log := log t |}.

Definition set_execution_start_time (v : option datetime) (t : Task) : Task :=
  {| task_id := task_id t; name := name t; priority := priority t; status := status t;
     interval := interval t; last_run := last_run t; next_run := next_run t; error_count
     := error_count t; time_windows := time_windows t; max_running_time :=
     max_running_time t; _stop_event := _stop_event t; _pause_event := _pause_event t;
     _on_success_callbacks := _on_success_callbacks t; _on_failure_callbacks :=
     _on_failure_callbacks t; _on_status_change_callbacks := _on_status_change_callbacks
     t; _execution_start_time := v; supports_interrupt := supports_interrupt t; log :=
     log t |}.

Definition set_log (v : list event) (t : Task) : Task :=
  {| task_id := task_id t; name := name t; priority := priority t; status := status t;
     interval := interval t; last_run := last_run t; next_run := next_run t; error_count
     := error_count t; time_windows := time_windows t; max_running_time :=
     max_running_time t; _stop_event := _stop_event t; _pause_event := _pause_event t;
     _on_success_callbacks := _on_success_callbacks t; _on_failure_callbacks :=
     _on_failure_callbacks t; _on_status_change_callbacks := _on_status_change_callbacks
     t; _execution_start_time := _execution_start_time t; supports_interrupt :=
     supports_interrupt t; log := v |}.

(** [PeriodicTask.__init__], called at clock [now]; [task_id] is the fresh
    uuid, [interruptible] tells whether the body carries the
    [supports_interrupt] attribute. *)
Definition new_periodic_task (id : nat) (task_name : string) (every : timedelta)
    (interruptible : bool) (prio : TaskPriority) (windows : list TimeWindow)
    (limit : option timedelta) (now : datetime) : Task :=
  {| task_id := id; name := task_name; priority := prio; status := PENDING;
     interval := Some every; last_run := None; next_run := Some now;
     error_count := 0%nat; time_windows := windows; max_running_time := limit;
     _stop_event := false; _pause_event := true;
     _on_success_callbacks := []; _on_failure_callbacks := [];
     _on_status_change_callbacks := [];
     _execution_start_time := None; supports_interrupt := interruptible; log := [] |}.

(** [BaseTask._is_in_time_window()] *)
Definition _is_in_time_window (now : datetime) (t : Task) : bool :=
  match time_windows t with
  | [] => true
  | ws => any_in_window ws now
  end.

(** [BaseTask._get_next_window_start()] *)
Definition _get_next_window_start (now : datetime) (t : Task) : option datetime :=
  match time_windows t with
  | [] => None
  | w :: ws => Some (min_next_window_start w ws now)
  end.

(** [BaseTask._update_status(new_status)] *)
Definition _update_status (new_status : TaskStatus) (t : Task) : Task :=
  let old_status := status t in
  let t := set_status new_status t in
  set_log (log t ++ Transition old_status new_status
                 :: map (fun cb => StatusChangeCall cb old_status new_status)
                        (_on_status_change_callbacks t)) t.

(** [base_next_run] of [_update_next_run_time] (lines 219-222). *)
Definition base_next_run (now : datetime) (every : timedelta) (t : Task) : datetime :=
  match last_run t with
  | None => now
  | Some last => last + every
  end.

(** [BaseTask._update_next_run_time()] *)
Definition _update_next_run_time (now : datetime) (t : Task) : Task :=
  match interval t with
  | None => set_next_run (Some now) t
  | Some every =>
      match time_windows t with
      | [] => set_next_run (Some (base_next_run now every t)) t
      | w :: ws => set_next_run (Some (window_loop w ws (base_next_run now every t))) t
      end
  end.

(** [BaseTask.pause()] *)
Definition pause (t : Task) : result Task :=
  if status_eqb (status t) STOPPED
  then Raise (TaskControlError "Cannot pause a stopped task")
  else
    let t := set_pause_event false t in
    if negb (status_eqb (status t) RUNNING)
    then Ok (_update_status PAUSED t)
    else Ok t.

(** [BaseTask.resume()] *)
Definition resume (now : datetime) (t : Task) : result Task :=
  if status_eqb (status t) STOPPED
  then Raise (TaskControlError "Cannot resume a stopped task")
  else
    let t := set_pause_event true t in
    if status_eqb (status t) PAUSED
    then
      let t := _update_status PENDING t in
      match interval t with
      | Some every => Ok (set_next_run (Some (now + every)) t)
      | None => Ok t
      end
    else Ok t.

(** [BaseTask.stop()] *)
Definition stop (t : Task) : Task :=
  _update_status STOPPED (set_pause_event true (set_stop_event true t)).

(** [BaseTask.reset()] *)
Definition reset (now : datetime) (t : Task) : Task :=
  _update_next_run_time now
    (_update_status PENDING
       (set_error_count 0%nat (set_pause_event true (set_stop_event false t)))).

Definition add_status_change_callback (cb : callback) (t : Task) : Task :=
  set_on_status_change_callbacks (_on_status_change_callbacks t ++ [cb]) t.

Definition add_success_callback (cb : callback) (t : Task) : Task :=
  set_on_success_callbacks (_on_success_callbacks t ++ [cb]) t.

Definition add_failure_callback (cb : callback) (t : Task) : Task :=
  set_on_failure_callbacks (_on_failure_callbacks t ++ [cb]) t.

(** [BaseTask.__lt__]: [self.priority.value > other.priority.value] *)
Definition task_lt (self other : Task) : bool :=
  priority_value (priority other) <? priority_value (priority self).

(** [BaseTask._check_execution_time()] *)
Definition _check_execution_time (now : datetime) (t : Task) : bool :=
  match max_running_time t, _execution_start_time t with
  | Some limit, Some started =>
      if negb (limit =? 0) && (limit <? now - started) then false else true
  | _, _ => true
  end.

(* ===================================================================== *)
(** * What happens around a running task *)
(* ===================================================================== *)

(** The clock and the task. *)
Definition state : Type := (datetime * Task)%type.

(** What another execution context may do to the task while [run] is in
    progress, and the passing of time. *)
Inductive control : Type :=
| CallPause
| CallResume
| CallStop
| CallReset
| Elapse (d : timedelta).

(** A control call from another context; an exception it raises stays with
    its caller and the task is as before. *)
Definition apply_control (c : control) (st : state) : state :=
  let '(now, t) := st in
  match c with
  | CallPause => (now, match pause t with Ok t' => t' | Raise _ => t end)
  | CallResume => (now, match resume now t with Ok t' => t' | Raise _ => t end)
  | CallStop => (now, stop t)
  | CallReset => (now, reset now t)
  | Elapse d => (now + d, t)
  end.

Definition apply_controls (cs : list control) (st : state) : state :=
  fold_left (fun s c => apply_control c s) cs st.

(** [self._pause_event.wait()]: the caller sleeps until the event is set.
    [wakes] is what the other contexts do from then on; the wait takes the
    events up to the one that sets the event.  [None]: the event is never
    set and the caller sleeps for ever. *)
Fixpoint wait_pause (wakes : list control) (st : state) : option (list control * state) :=
  if _pause_event (snd st) then Some (wakes, st)
  else
    match wakes with
    | [] => None
    | c :: rest => wait_pause rest (apply_control c st)
    end.

(** [BaseTask._check_interrupt()] *)
Definition _check_interrupt (wakes : list control) (st : state)
  : option (bool * list control * state) :=
  if _stop_event (snd st) then Some (false, wakes, st)
  else if negb (_pause_event (snd st)) then
    match wait_pause wakes (fst st, _update_status PAUSED (snd st)) with
    | None => None
    | Some (wakes, st) =>
        if _stop_event (snd st) then Some (false, wakes, st)
        else Some (true, wakes, (fst st, _update_status PENDING (snd st)))
    end
  else Some (true, wakes, st).

(** One step of a task body, seen from outside: something another context
    does meanwhile, or a call of the [check_interrupt] predicate the body
    was given. *)
Inductive step : Type :=
| Meanwhile (c : control)
| Poll.

(** The body's predicate:
    [lambda: self._check_interrupt() and self._check_execution_time()].
    A body without the [supports_interrupt] attribute is called without it
    and has nothing to poll. *)
Definition poll (wakes : list control) (st : state) : option (list control * state) :=
  if supports_interrupt (snd st) then
    match _check_interrupt wakes st with
    | None => None
    | Some (_, wakes, st) => Some (wakes, st)
    end
  else Some (wakes, st).

Fixpoint exec_steps (steps : list step) (wakes : list control) (st : state)
  : option (list control * state) :=
  match steps with
  | [] => Some (wakes, st)
  | Meanwhile c :: rest => exec_steps rest wakes (apply_control c st)
  | Poll :: rest =>
      match poll wakes st with
      | None => None
      | Some (wakes, st) => exec_steps rest wakes st
      end
  end.

(** One execution of [run], as its surroundings shape it. *)
Record script : Type := mkScript {
  before_lock : list control;  (* between the first check and taking the lock *)
  body_steps : list step;      (* while the body runs *)
  body_raises : bool;          (* the body ends with an exception *)
  wake_ups : list control      (* what happens while [run] sleeps on a pause *)
}.

(** The return statement [run] leaves by. *)
Inductive path : Type :=
| AbortEntry      (* line 271: [return False] *)
| AbortLocked     (* line 276: [return False] *)
| AbortAfterBody  (* line 293: [return False] *)
| Completed       (* line 302: [return True] *)
| Failed.         (* line 311: [return False] *)

Definition path_result (p : path) : bool :=
  match p with Completed => true | _ => false end.


(** Lines 277-278: the task as the body finds it. *)
Definition begin_running (now : datetime) (t : Task) : Task :=
  set_execution_start_time (Some now) (_update_status RUNNING t).

(** Lines 295-301. *)
Definition on_completed (st : state) : state :=
  let '(now, t) := st in
  let t := set_execution_start_time None t in
  let t := _update_status COMPLETED t in
  let t := set_last_run (Some now) t in
  let t := _update_next_run_time now t in
  (now, set_log (log t ++ map SuccessCall (_on_success_callbacks t)) t).

(** Lines 304-310. *)
Definition on_failed (st : state) : state :=
  let '(now, t) := st in
  let t := set_execution_start_time None t in
  let t := _update_status FAILED t in
  let t := set_error_count (S (error_count t)) t in
  (now, set_log (log t ++ map FailureCall (_on_failure_callbacks t)) t).

(** [PeriodicTask.run()], with the return statement taken.  [None]: [run]
    never returns (it sleeps on a pause nobody lifts; under the task's lock
    nobody can, since [resume], [stop] and [reset] take the lock first). *)
Definition run_path (s : script) (st : state) : option (path * state) :=
  match _check_interrupt (wake_ups s) st with
  | None => None
  | Some (false, _, st) => Some (AbortEntry, st)
  | Some (true, wakes, st) =>
      let st := apply_controls (before_lock s) st in
      match _check_interrupt [] st with
      | None => None
      | Some (false, _, st) => Some (AbortLocked, st)
      | Some (true, _, st) =>
          let st := (fst st, begin_running (fst st) (snd st)) in
          match exec_steps (body_steps s) wakes st with
          | None => None
          | Some (wakes, st) =>
              if body_raises s then Some (Failed, on_failed st)
              else
                match _check_interrupt wakes st with
                | None => None
                | Some (false, _, st) => Some (AbortAfterBody, st)
                | Some (true, _, st) =>
                    if negb (_check_execution_time (fst st) (snd st))
                    then Some (AbortAfterBody, st)
                    else Some (Completed, on_completed st)
                end
          end
      end
  end.

(** [PeriodicTask.run()] *)
Definition run (s : script) (st : state) : option (bool * state) :=
  match run_path s st with
  | None => None
  | Some (p, st) => Some (path_result p, st)
  end.

(* ===================================================================== *)
(** * Scheduler *)
(* ===================================================================== *)

(** [list.sort()] on tasks: a stable sort that compares through [__lt__]
    only.  The tasks come with their keys in the scheduler's dict. *)
Fixpoint insert_task (x : nat * Task) (sorted : list (nat * Task)) : list (nat * Task) :=
  match sorted with
  | [] => [x]
  | y :: rest =>
      if task_lt (snd y) (snd x) then y :: insert_task x rest
      else x :: sorted
  end.

Fixpoint sort_tasks (l : list (nat * Task)) : list (nat * Task) :=
  match l with
  | [] => []
  | x :: rest => insert_task x (sort_tasks rest)
  end.

(** The filter of the dispatch loop (lines 376-378). *)
Definition is_ready (current_time : datetime) (t : Task) : bool :=
  negb (existsb (status_eqb (status t)) [RUNNING; STOPPED; CANCELLED])
  && match next_run t with
     | Some due => due <=? current_time
     | None => false
     end
  && _is_in_time_window current_time t.

(** A dict from task ids to tasks, in insertion order. *)
Definition task_dict : Type := list (nat * Task).

Fixpoint dict_get (key : nat) (d : task_dict) : option Task :=
  match d with
  | [] => None
  | (k, t) :: rest => if Nat.eqb k key then Some t else dict_get key rest
  end.

(** [d[key] = t]: an existing key keeps its place, a new one goes last. *)
Fixpoint dict_set (key : nat) (t : Task) (d : task_dict) : task_dict :=
  match d with
  | [] => [(key, t)]
  | (k, t') :: rest =>
      if Nat.eqb k key then (k, t) :: rest else (k, t') :: dict_set key t rest
  end.


(** What surrounds one iteration of the dispatch loop. *)
Record tick_env : Type := mkTickEnv {
  scripts : nat -> script;     (* how the run of each task goes *)
  halt_after : option nat;     (* the scheduler's stop signal is set once that
                                  many tasks of the batch have run *)
  waited : timedelta           (* how long [_stop_event.wait] lasted *)
}.

Module Scheduler.

Record Scheduler : Type := mkScheduler {
  _tasks : task_dict;
  _stop_event : bool;
  _thread : option bool;       (* a thread and whether it is alive *)
  _mode : SchedulerMode;
  check_interval : timedelta
}.

Definition set_tasks (v : task_dict) (s : Scheduler) : Scheduler :=
  {| _tasks := v; _stop_event := _stop_event s; _thread := _thread s;
     _mode := _mode s; check_interval := check_interval s |}.

Definition set_stop_event (v : bool) (s : Scheduler) : Scheduler :=
  {| _tasks := _tasks s; _stop_event := v; _thread := _thread s;
     _mode := _mode s; check_interval := check_interval s |}.

Definition set_thread (v : option bool) (s : Scheduler) : Scheduler :=
  {| _tasks := _tasks s; _stop_event := _stop_event s; _thread := v;
     _mode := _mode s; check_interval := check_interval s |}.

Definition set_mode (v : SchedulerMode) (s : Scheduler) : Scheduler :=
  {| _tasks := _tasks s; _stop_event := _stop_event s; _thread := _thread s;
     _mode := v; check_interval := check_interval s |}.

(** [Scheduler.__init__] *)
Definition new (mode : SchedulerMode) (tick_period : timedelta) : Scheduler :=
  {| _tasks := []; _stop_event := false; _thread := None;
     _mode := mode; check_interval := tick_period |}.

(** [Scheduler.is_running] *)
Definition is_running (s : Scheduler) : bool :=
  match _thread s with
  | Some alive => alive
  | None => false
  end
  || (negb (_stop_event s)
      && match _mode s with FOREGROUND => true | BACKGROUND => false end).

(** The [mode] setter. *)
Definition set_mode_checked (value : SchedulerMode) (s : Scheduler) : result Scheduler :=
  if is_running s
  then Raise (RuntimeError "Cannot change mode while scheduler is running")
  else Ok (set_mode value s).

(** Where the dispatch loop runs once [start] has gone through. *)
Inductive dispatch : Type :=
| InCaller      (* [self._run()]: the caller is held until the loop ends *)
| InNewThread.  (* [Thread(target=self._run).start()]: the caller goes on *)

(** [Scheduler.start()], up to the point where the loop begins. *)
Definition start (s : Scheduler) : result (Scheduler * dispatch) :=
  if is_running s
  then Raise (RuntimeError "Scheduler is already running")
  else
    let s := set_stop_event false s in
    match _mode s with
    | BACKGROUND => Ok (set_thread (Some true) s, InNewThread)
    | FOREGROUND => Ok (s, InCaller)
    end.

(** [Scheduler.add_task(task)] *)
Definition add_task (t : Task) (s : Scheduler) : Scheduler * nat :=
  (set_tasks (dict_set (task_id t) t (_tasks s)) s, task_id t).

(** [TaskDecorator.periodic(...)(func)]: the registration of a function as
    a periodic task, at clock [now]. *)
Definition periodic (id : nat) (every : timedelta) (task_name : string)
    (prio : TaskPriority) (windows : list TimeWindow) (start_immediately : bool)
    (limit : option timedelta) (interruptible : bool) (now : datetime) (s : Scheduler)
  : Scheduler * Task :=
  let task := new_periodic_task id task_name every interruptible prio windows limit now in
  let task := if start_immediately then task else _update_next_run_time now task in
  (fst (add_task task s), task).


(** [Scheduler.get_task(task_id)] *)
Definition get_task (key : nat) (s : Scheduler) : option Task :=
  dict_get key (_tasks s).

(** [Scheduler.stop()]; the joined thread is taken to end in time. *)
Definition stop (s : Scheduler) : Scheduler :=
  let s := set_stop_event true s in
  match _thread s with
  | Some true => set_thread None s
  | _ => s
  end.

(** The snapshot of line 374 and its sort (line 380). *)
Definition ready_tasks (current_time : datetime) (s : Scheduler) : list (nat * Task) :=
  sort_tasks (filter (fun kt => is_ready current_time (snd kt)) (_tasks s)).

(** The loop over the batch (lines 382-385): each task is run where it
    lives, in the dict.  The result starts with the keys of the tasks
    run, in the order they were run. *)
Fixpoint run_batch (how : nat -> script) (keys : list nat) (now : datetime)
    (d : task_dict) : option (list nat * (datetime * task_dict)) :=
  match keys with
  | [] => Some ([], (now, d))
  | key :: rest =>
      match dict_get key d with
      | None => run_batch how rest now d
      | Some t =>
          match run (how key) (now, t) with
          | None => None
          | Some (_, (now, t)) =>
              match run_batch how rest now (dict_set key t d) with
              | None => None
              | Some (ran, final) => Some (key :: ran, final)
              end
          end
      end
  end.

(** One iteration of the loop of [_run]: the keys of the tasks run, in
    the order they were run, and what is left.  [None]: a task never
    returned. *)
Definition tick (env : tick_env) (now : datetime) (s : Scheduler)
  : option (list nat * (datetime * Scheduler)) :=
  let batch := map fst (ready_tasks now s) in
  let batch :=
    match halt_after env with
    | Some n => firstn n batch
    | None => batch
    end in
  match run_batch (scripts env) batch now (_tasks s) with
  | None => None
  | Some (ran, (now, d)) =>
      let s := set_tasks d s in
      let s :=
        match halt_after env with
        | Some _ => set_stop_event true s
        | None => s
        end in
      Some (ran, (now + waited env, s))
  end.

(** [Scheduler._run()], for as many iterations as there are
    surroundings: the batches run, tick by tick. *)
Fixpoint _run (ticks : list tick_env) (now : datetime) (s : Scheduler)
  : option (list (list nat) * (datetime * Scheduler)) :=
  match ticks with
  | [] => Some ([], (now, s))
  | env :: rest =>
      if _stop_event s then Some ([], (now, s))
      else
        match tick env now s with
        | None => None
        | Some (batch, (now, s)) =>
            match _run rest now s with
            | None => None
            | Some (batches, final) => Some (batch :: batches, final)
            end
        end
  end.

End Scheduler.

(* ===================================================================== *)
(** * Sequences of operations on a task *)
(* ===================================================================== *)

(** The operations that change a task: [run], and the control calls. *)
Inductive op : Type :=
| OpRun (s : script)
| OpControl (c : control).

Definition apply_op (o : op) (st : state) : option state :=
  match o with
  | OpRun s =>
      match run s st with
      | None => None
      | Some (_, st) => Some st
      end
  | OpControl c => Some (apply_control c st)
  end.

Fixpoint apply_ops (ops : list op) (st : state) : option state :=
  match ops with
  | [] => Some st
  | o :: rest =>
      match apply_op o st with
      | None => None
      | Some st => apply_ops rest st
      end
  end.

Definition is_reset (o : op) : bool :=
  match o with
  | OpControl CallReset => true
  | _ => false
  end.

(** A stop request, a pause request, or time passing: what can cut a
    cycle short. *)
Definition is_request (c : control) : bool :=
  match c with
  | CallPause | CallStop | Elapse _ => true
  | CallResume | CallReset => false
  end.

(** Anything but a pause request. *)
Definition not_pause (c : control) : bool :=
  match c with
  | CallPause => false
  | _ => true
  end.

Definition is_elapse (c : control) : bool :=
  match c with
  | Elapse _ => true
  | _ => false
  end.

Definition step_allows (allowed : control -> bool) (x : step) : bool :=
  match x with
  | Meanwhile c => allowed c
  | Poll => true
  end.

(** Every control of the script satisfies [allowed]. *)
Definition script_allows (allowed : control -> bool) (s : script) : bool :=
  forallb allowed (before_lock s)
  && forallb (step_allows allowed) (body_steps s)
  && forallb allowed (wake_ups s).

(** No other context touches the task while it runs: time passes, and the
    body may poll. *)
Definition quiet (s : script) : bool :=
  forallb is_elapse (before_lock s) && forallb (step_allows is_elapse) (body_steps s).

(** The time that passes over a list of controls. *)
Fixpoint duration (cs : list control) : timedelta :=
  match cs with
  | [] => 0
  | Elapse d :: rest => d + duration rest
  | _ :: rest => duration rest
  end.

(** The time that passes while the body runs. *)
Fixpoint body_duration (steps : list step) : timedelta :=
  match steps with
  | [] => 0
  | Meanwhile (Elapse d) :: rest => d + body_duration rest
  | _ :: rest => body_duration rest
  end.

(** An event that announces neither COMPLETED nor FAILED, and is no call
    of a success or failure callback. *)
Definition harmless (e : event) : Prop :=
  match e with
  | Transition _ new_status | StatusChangeCall _ _ new_status =>
      new_status <> COMPLETED /\ new_status <> FAILED
  | SuccessCall _ | FailureCall _ => False
  end.

(** [t'] is [t] with neither outcome recorded: [last_run], [next_run],
    [error_count] and the registered callbacks as they were, and the log
    longer by harmless events. *)
Definition undisturbed (t t' : Task) : Prop :=
  last_run t' = last_run t
  /\ next_run t' = next_run t
  /\ error_count t' = error_count t
  /\ _on_status_change_callbacks t' = _on_status_change_callbacks t
  /\ _on_success_callbacks t' = _on_success_callbacks t
  /\ _on_failure_callbacks t' = _on_failure_callbacks t
  /\ exists evs, log t' = log t ++ evs /\ Forall harmless evs.

(** What the return statement taken adds to the state reached before it. *)
Definition finish (p : path) (st : state) : state :=
  match p with
  | Completed => on_completed st
  | Failed => on_failed st
  | AbortEntry | AbortLocked | AbortAfterBody => st
  end.

(** STOPPED, as [stop] leaves it: the stop event is set too. *)
Definition stopped (t : Task) : Prop :=
  status t = STOPPED /\ _stop_event t = true.

(** The one task under [key] is [t]. *)
Definition holds (key : nat) (t : Task) (d : task_dict) : Prop :=
  dict_get key d = Some t /\ forall t', In (key, t') d -> t' = t.

(** The priority of an entry of the dict, and the order of execution:
    the one that comes first has at least the priority of the other. *)
Definition entry_priority (kt : nat * Task) : Z := priority_value (priority (snd kt)).

Definition runs_before (a b : nat * Task) : Prop := entry_priority b <= entry_priority a.

(** The entries of one priority. *)
Definition of_priority (p : TaskPriority) (l : list (nat * Task)) : list (nat * Task) :=
  filter (fun kt => entry_priority kt =? priority_value p) l.

(** The scripts whose body raises. *)
Definition failures (ss : list script) : nat :=
  List.length (filter body_raises ss).

(** The window with its two times exchanged. *)
Definition reversed (w : TimeWindow) : TimeWindow :=
  mkTimeWindow (end_time w) (start_time w).

(** [t'] is configured as [t] is: identity, priority, period, windows,
    limit, body and registered callbacks. *)
Definition same_setup (t t' : Task) : Prop :=
  task_id t' = task_id t
  /\ name t' = name t
  /\ priority t' = priority t
  /\ interval t' = interval t
  /\ time_windows t' = time_windows t
  /\ max_running_time t' = max_running_time t
  /\ supports_interrupt t' = supports_interrupt t
  /\ _on_status_change_callbacks t' = _on_status_change_callbacks t
  /\ _on_success_callbacks t' = _on_success_callbacks t
  /\ _on_failure_callbacks t' = _on_failure_callbacks t.

(** The keys of a dict are distinct. *)
Definition well_keyed (d : task_dict) : Prop := NoDup (map fst d).

(** A status the dispatch filter refuses. *)
Definition is_excluded (st : TaskStatus) : bool :=
  match st with
  | RUNNING | STOPPED | CANCELLED => true
  | _ => false
  end.

(* ===================================================================== *)
(** * Callbacks that raise *)
(* ===================================================================== *)

(** The definitions above take every registered callback to return.  A
    callback is an arbitrary callable and nothing in the code guards its
    call, so it may raise.  [behaviour] tells, from the task a callback is
    handed and the call made, whether that call raises.  The module below
    is the code again with that: the same functions, line for line, with
    the exception a callback raises going where Python takes it.  With a
    behaviour that never raises they are the functions above (lemmas
    [calm_*]).  Callbacks are still taken to leave the task alone. *)
Definition behaviour : Type := Task -> event -> bool.

(** The behaviour of callbacks that all return. *)
Definition calm : behaviour := fun _ _ => false.

(** What a control call ends with when it does not return. *)
Inductive thrown : Type :=
| Control (e : exn)      (* raised by the call itself *)
| FromCallback.          (* raised by a callback and not caught *)

(** What [_check_interrupt] ends with. *)
Inductive answer : Type :=
| Go          (* [return True] *)
| Halt        (* [return False] *)
| Threw.      (* a status-change callback raised *)

(** How [run] ends. *)
Inductive exit : Type :=
| Return (p : path)   (* by one of its return statements *)
| Escape.             (* with an exception that leaves [run] *)

(** The value of the call of [run], or the fact that it raised. *)
Inductive run_result : Type :=
| Returned (b : bool)
| Raised.

Definition exit_result (x : exit) : run_result :=
  match x with
  | Return p => Returned (path_result p)
  | Escape => Raised
  end.

(** The answer of a check that no callback disturbed. *)
Definition answer_of (go : bool) : answer := if go then Go else Halt.

Module Raising.

Section Behaviour.

Variable raises : behaviour.

(** [for callback in callbacks: callback(...)]: the calls are made in
    order, each one logged as it is made, up to the first that raises.
    The result tells whether one raised. *)
Fixpoint call_all (calls : list event) (t : Task) : Task * bool :=
  match calls with
  | [] => (t, false)
  | e :: rest =>
      let t' := set_log (log t ++ [e]) t in
      if raises t e then (t', true) else call_all rest t'
  end.

(** [BaseTask._update_status(new_status)]: the status is assigned before
    the callbacks are called. *)
Definition _update_status (new_status : TaskStatus) (t : Task) : Task * bool :=
  let old_status := status t in
  let t := set_status new_status t in
  let t := set_log (log t ++ [Transition old_status new_status]) t in
  call_all (map (fun cb => StatusChangeCall cb old_status new_status)
                (_on_status_change_callbacks t)) t.

Definition from_callback (raised : bool) : option thrown :=
  if raised then Some FromCallback else None.

(** [BaseTask.pause()]: the task it leaves, and what it raised if it did. *)
Definition pause (t : Task) : Task * option thrown :=
  if status_eqb (status t) STOPPED
  then (t, Some (Control (TaskControlError "Cannot pause a stopped task")))
  else
    let t := set_pause_event false t in
    if negb (status_eqb (status t) RUNNING)
    then let '(t, raised) := _update_status PAUSED t in (t, from_callback raised)
    else (t, None).

(** [BaseTask.resume()] *)
Definition resume (now : datetime) (t : Task) : Task * option thrown :=
  if status_eqb (status t) STOPPED
  then (t, Some (Control (TaskControlError "Cannot resume a stopped task")))
  else
    let t := set_pause_event true t in
    if status_eqb (status t) PAUSED
    then
      let '(t, raised) := _update_status PENDING t in
      if raised then (t, Some FromCallback)
      else
        match interval t with
        | Some every => (set_next_run (Some (now + every)) t, None)
        | None => (t, None)
        end
    else (t, None).

(** [BaseTask.stop()] *)
Definition stop (t : Task) : Task * option thrown :=
  let '(t, raised) :=
    _update_status STOPPED (set_pause_event true (set_stop_event true t)) in
  (t, from_callback raised).

(** [BaseTask.reset()] *)
Definition reset (now : datetime) (t : Task) : Task * option thrown :=
  let '(t, raised) :=
    _update_status PENDING
      (set_error_count 0%nat (set_pause_event true (set_stop_event false t))) in
  if raised then (t, Some FromCallback)
  else (_update_next_run_time now t, None).

(** A control call from another context: what it raises stays with its
    caller, what it did to the task before stays with the task. *)
Definition apply_control (c : control) (st : state) : state :=
  let '(now, t) := st in
  match c with
  | CallPause => (now, fst (pause t))
  | CallResume => (now, fst (resume now t))
  | CallStop => (now, fst (stop t))
  | CallReset => (now, fst (reset now t))
  | Elapse d => (now + d, t)
  end.

Definition apply_controls (cs : list control) (st : state) : state :=
  fold_left (fun s c => apply_control c s) cs st.

(** [self._pause_event.wait()] *)
Fixpoint wait_pause (wakes : list control) (st : state) : option (list control * state) :=
  if _pause_event (snd st) then Some (wakes, st)
  else
    match wakes with
    | [] => None
    | c :: rest => wait_pause rest (apply_control c st)
    end.

(** [BaseTask._check_interrupt()] *)
Definition _check_interrupt (wakes : list control) (st : state)
  : option (answer * list control * state) :=
  if _stop_event (snd st) then Some (Halt, wakes, st)
  else if negb (_pause_event (snd st)) then
    let '(t, raised) := _update_status PAUSED (snd st) in
    if raised then Some (Threw, wakes, (fst st, t))
    else
      match wait_pause wakes (fst st, t) with
      | None => None
      | Some (wakes, st) =>
          if _stop_event (snd st) then Some (Halt, wakes, st)
          else
            let '(t, raised) := _update_status PENDING (snd st) in
            Some (if raised then Threw else Go, wakes, (fst st, t))
      end
  else Some (Go, wakes, st).

(** The body's predicate.  What the body does when the predicate raises
    (catch it and go on, or let it through) is part of the script, as the
    rest of what the body does. *)
Definition poll (wakes : list control) (st : state) : option (list control * state) :=
  if supports_interrupt (snd st) then
    match _check_interrupt wakes st with
    | None => None
    | Some (_, wakes, st) => Some (wakes, st)
    end
  else Some (wakes, st).

Fixpoint exec_steps (steps : list step) (wakes : list control) (st : state)
  : option (list control * state) :=
  match steps with
  | [] => Some (wakes, st)
  | Meanwhile c :: rest => exec_steps rest wakes (apply_control c st)
  | Poll :: rest =>
      match poll wakes st with
      | None => None
      | Some (wakes, st) => exec_steps rest wakes st
      end
  end.

(** Lines 277-278; the marker is not set when a callback raises. *)
Definition begin_running (now : datetime) (t : Task) : Task * bool :=
  let '(t, raised) := _update_status RUNNING t in
  if raised then (t, true)
  else (set_execution_start_time (Some now) t, false).

(** Lines 295-301, up to the call that raises if one does. *)
Definition on_completed (st : state) : state * bool :=
  let '(now, t) := st in
  let t := set_execution_start_time None t in
  let '(t, raised) := _update_status COMPLETED t in
  if raised then ((now, t), true)
  else
    let t := set_last_run (Some now) t in
    let t := _update_next_run_time now t in
    let '(t, raised) := call_all (map SuccessCall (_on_success_callbacks t)) t in
    ((now, t), raised).

(** Lines 304-310, the [except Exception] handler, up to the call that
    raises if one does: that exception leaves [run]. *)
Definition on_failed (st : state) : state * bool :=
  let '(now, t) := st in
  let t := set_execution_start_time None t in
  let '(t, raised) := _update_status FAILED t in
  if raised then ((now, t), true)
  else
    let t := set_error_count (S (error_count t)) t in
    let '(t, raised) := call_all (map FailureCall (_on_failure_callbacks t)) t in
    ((now, t), raised).

(** An exception inside the [try]: the handler, then [return False] unless
    the handler raises. *)
Definition handle (st : state) : exit * state :=
  let '(st, raised) := on_failed st in
  (if raised then Escape else Return Failed, st).

(** [PeriodicTask.run()].  The first check is outside the [try]; all the
    rest, with the body, is inside. *)
Definition run_path (s : script) (st : state) : option (exit * state) :=
  match _check_interrupt (wake_ups s) st with
  | None => None
  | Some (Threw, _, st) => Some (Escape, st)
  | Some (Halt, _, st) => Some (Return AbortEntry, st)
  | Some (Go, wakes, st) =>
      let st := apply_controls (before_lock s) st in
      match _check_interrupt [] st with
      | None => None
      | Some (Threw, _, st) => Some (handle st)
      | Some (Halt, _, st) => Some (Return AbortLocked, st)
      | Some (Go, _, st) =>
          let '(t, raised) := begin_running (fst st) (snd st) in
          if raised then Some (handle (fst st, t))
          else
            match exec_steps (body_steps s) wakes (fst st, t) with
            | None => None
            | Some (wakes, st) =>
                if body_raises s then Some (handle st)
                else
                  match _check_interrupt wakes st with
                  | None => None
                  | Some (Threw, _, st) => Some (handle st)
                  | Some (Halt, _, st) => Some (Return AbortAfterBody, st)
                  | Some (Go, _, st) =>
                      if negb (_check_execution_time (fst st) (snd st))
                      then Some (Return AbortAfterBody, st)
                      else
                        let '(st, raised) := on_completed st in
                        if raised then Some (handle st)
                        else Some (Return Completed, st)
                  end
            end
      end
  end.

(** [PeriodicTask.run()] *)
Definition run (s : script) (st : state) : option (run_result * state) :=
  match run_path s st with
  | None => None
  | Some (x, st) => Some (exit_result x, st)
  end.

(** The loop over the batch (lines 382-385).  An exception that leaves
    [run] leaves the loop and [_run] with it: the result tells whether
    that happened, after the keys of the tasks whose [run] was called. *)
Fixpoint run_batch (how : nat -> script) (keys : list nat) (now : datetime)
    (d : task_dict) : option (list nat * bool * (datetime * task_dict)) :=
  match keys with
  | [] => Some ([], false, (now, d))
  | key :: rest =>
      match dict_get key d with
      | None => run_batch how rest now d
      | Some t =>
          match run (how key) (now, t) with
          | None => None
          | Some (Raised, (now, t)) => Some ([key], true, (now, dict_set key t d))
          | Some (Returned _, (now, t)) =>
              match run_batch how rest now (dict_set key t d) with
              | None => None
              | Some (ran, crashed, final) => Some (key :: ran, crashed, final)
              end
          end
      end
  end.

(** One iteration of the loop of [_run]: the keys of the tasks whose [run]
    was called, in the order of the calls, whether an exception ended the
    loop, and what is left. *)
Definition tick (env : tick_env) (now : datetime) (s : Scheduler.Scheduler)
  : option (list nat * bool * (datetime * Scheduler.Scheduler)) :=
  let batch := map fst (Scheduler.ready_tasks now s) in
  let batch :=
    match halt_after env with
    | Some n => firstn n batch
    | None => batch
    end in
  match run_batch (scripts env) batch now (Scheduler._tasks s) with
  | None => None
  | Some (ran, crashed, (now, d)) =>
      let s := Scheduler.set_tasks d s in
      if crashed then Some (ran, true, (now, s))
      else
        let s :=
          match halt_after env with
          | Some _ => Scheduler.set_stop_event true s
          | None => s
          end in
        Some (ran, false, (now + waited env, s))
  end.

End Behaviour.

End Raising.

(** The exception handler of [run] was entered from [st0], or from what
    lines 295-301 left of [st0] when a callback raised there, and left
    [st']; [escaped] tells whether the handler itself raised. *)
Definition through_handler (raises : behaviour) (s : script) (escaped : bool)
    (st0 st' : state) : Prop :=
  exists entered,
    (entered = st0
     \/ (body_raises s = false /\ Raising.on_completed raises st0 = (entered, true)))
    /\ Raising.on_failed raises entered = (st', escaped).

(** How [run] went from [st0], the state it was in before its last
    statements, to [st'], the state it left, by the exit [x]. *)
Definition ended (raises : behaviour) (s : script) (x : exit) (st0 st' : state) : Prop :=
  match x with
  | Return AbortEntry | Return AbortLocked =>
      st' = st0 /\ _stop_event (snd st') = true
  | Return AbortAfterBody =>
      st' = st0 /\ body_raises s = false
      /\ (_stop_event (snd st') = true
          \/ _check_execution_time (fst st') (snd st') = false)
  | Return Completed =>
      body_raises s = false /\ Raising.on_completed raises st0 = (st', false)
  | Return Failed => through_handler raises s false st0 st'
  | Escape => st' = st0 \/ through_handler raises s true st0 st'
  end.



(** The call of a status-change callback for a transition to [st]. *)
Definition announces (st : TaskStatus) (e : event) : bool :=
  match e with
  | StatusChangeCall _ _ new_status => status_eqb new_status st
  | _ => false
  end.


(** The tasks under the keys [ran] were run one after the other from
    [now]: each one as the dict [d] held it, at the moment the one before it
    ended, and what its run left of it is what the dict [d'] holds.
    [finished] is the moment the last one ended, [crashed] whether an
    exception left it. *)
Fixpoint in_sequence (raises : behaviour) (how : nat -> script) (ran : list nat)
    (now : datetime) (d d' : task_dict) (crashed : bool) (finished : datetime) : Prop :=
  match ran with
  | [] => finished = now /\ crashed = false
  | key :: rest =>
      exists t r now1 t',
        dict_get key d = Some t
        /\ Raising.run raises (how key) (now, t) = Some (r, (now1, t'))
        /\ dict_get key d' = Some t'
        /\ match r with
           | Raised => rest = [] /\ crashed = true /\ finished = now1
           | Returned _ => in_sequence raises how rest now1 d d' crashed finished
           end
  end.

(** The batch of a tick: the keys of the sorted snapshot, up to the stop
    signal. *)
Definition batch_of (env : tick_env) (now : datetime) (s : Scheduler.Scheduler) : list nat :=
  match halt_after env with
  | Some n => firstn n (map fst (Scheduler.ready_tasks now s))
  | None => map fst (Scheduler.ready_tasks now s)
  end.

(** The calls made in a cycle that completes: the status-change callbacks
    at the transitions to RUNNING and to COMPLETED, and the success
    callbacks. *)
Definition in_completed_cycle (e : event) : bool :=
  announces RUNNING e || announces COMPLETED e
  || match e with SuccessCall _ => true | _ => false end.

Definition is_success_call (e : event) : bool :=
  match e with SuccessCall _ => true | _ => false end.

(** [run] called again and again, each call in its own surroundings, the
    next one when the one before has returned.  [None]: a call never
    returned, or let an exception through. *)
Fixpoint run_cycles (raises : behaviour) (ss : list script) (st : state) : option state :=
  match ss with
  | [] => Some st
  | s :: rest =>
      match Raising.run raises s st with
      | Some (Returned _, st) => run_cycles raises rest st
      | _ => None
      end
  end.

(* ===================================================================== *)
(** * Sample data *)
(* ===================================================================== *)

Definition seconds (n : Z) : timedelta := n * 1000000.

(** [TimeWindow(dtime(9, 0), dtime(17, 0))] *)
Definition work_hours : TimeWindow :=
  mkTimeWindow (mk_dtime (hm 9 0) eq_refl) (mk_dtime (hm 17 0) eq_refl).

(** [TimeWindow(dtime(23, 0), dtime(5, 0))] *)
Definition night_hours : TimeWindow :=
  mkTimeWindow (mk_dtime (hm 23 0) eq_refl) (mk_dtime (hm 5 0) eq_refl).

(** A task every five seconds, created on day 0 at noon. *)
Definition sample_task : Task :=
  new_periodic_task 1 "test_task" (seconds 5) false NORMAL [] None (at_ 0 12 0).

(** A task every hour, in working hours only. *)
Definition windowed_task : Task :=
  new_periodic_task 2 "DataProcessing" (seconds 3600) false NORMAL [work_hours] None
    (at_ 0 12 0).

(** A task with a limit of thirty seconds on its running time. *)
Definition limited_task : Task :=
  new_periodic_task 3 "ReportGeneration" (seconds 900) false NORMAL [] (Some (seconds 30))
    (at_ 0 12 0).


(** A body that returns at once, in quiet surroundings. *)
Definition quiet_script : script :=
  {| before_lock := []; body_steps := []; body_raises := false; wake_ups := [] |}.

(** A body that raises. *)
Definition raising_script : script :=
  {| before_lock := []; body_steps := []; body_raises := true; wake_ups := [] |}.

(** A body that takes [d] to return. *)
Definition slow_script (d : timedelta) : script :=
  {| before_lock := []; body_steps := [Meanwhile (Elapse d)]; body_raises := false;
     wake_ups := [] |}.



(** Four tasks registered in the order LOW, CRITICAL, NORMAL, HIGH, all
    due at noon of day 0. *)
Definition four_tasks : Scheduler.Scheduler :=
  let add p s := fst (Scheduler.add_task p s) in
  let task id nm prio :=
    new_periodic_task id nm (seconds 60) false prio [] None (at_ 0 12 0) in
  add (task 14%nat "high"%string HIGH)
    (add (task 13%nat "normal"%string NORMAL)
       (add (task 12%nat "critical"%string CRITICAL)
          (add (task 11%nat "low"%string LOW) (Scheduler.new BACKGROUND (seconds 1))))).

(** A tick during which every body returns at once and nobody stops the
    scheduler. *)
Definition quiet_tick : tick_env :=
  {| scripts := fun _ => quiet_script; halt_after := None; waited := seconds 1 |}.

(** A scheduler holding [limited_task] as its run left it after a body of
    thirty-one seconds, and [sample_task]. *)
Definition with_timed_out_task : Scheduler.Scheduler :=
  let add p s := fst (Scheduler.add_task p s) in
  add sample_task
    (add (begin_running (at_ 0 12 0) limited_task) (Scheduler.new BACKGROUND (seconds 1))).

(** A tick during which every body takes two seconds. *)
Definition busy_tick : tick_env :=
  {| scripts := fun _ => slow_script (seconds 2); halt_after := None; waited := seconds 1 |}.

(** A scheduler holding [sample_task], paused before it ever ran. *)
Definition with_paused_task : Scheduler.Scheduler :=
  fst (Scheduler.add_task (fst (Raising.pause calm sample_task))
         (Scheduler.new BACKGROUND (seconds 1))).

(** The calls made in a cycle whose body raises: the status-change
    callbacks at the transitions to RUNNING and to FAILED, and the failure
    callbacks. *)
Definition in_failed_cycle (e : event) : bool :=
  announces RUNNING e || announces FAILED e
  || match e with FailureCall _ => true | _ => false end.

(** Status-change callbacks that raise when told of a transition to
    FAILED. *)
Definition raise_on_failed : behaviour := fun _ e => announces FAILED e.

(** Success callbacks that raise. *)
Definition raise_on_success : behaviour :=
  fun _ e => match e with SuccessCall _ => true | _ => false end.

(** [sample_task] with a status-change callback, a success callback and a
    failure callback registered. *)
Definition watched_task : Task :=
  add_failure_callback 8%nat
    (add_success_callback 9%nat (add_status_change_callback 7%nat sample_task)).

(* ===================================================================== *)
(** * The time-window calculus *)
(* ===================================================================== *)

Section WindowCalculus.

Variable w : TimeWindow.

Let s := micros (start_time w).
Let e := micros (end_time w).

Lemma window_times_in_day : 0 <= s < day_us /\ 0 <= e < day_us.
Proof. subst s e. window_bounds w. lia. Qed.

Lemma time_of_combine (day : Z) : time_of (combine day (start_time w)) = s.
Proof.
  pose proof window_times_in_day as [Hs _]. unfold time_of, combine. fold s.
  rewrite Z.add_comm, Z.mod_add, Z.mod_small; unfold day_us in *; lia.
Qed.

Lemma next_window_start_inside (t : datetime) :
  is_in_window w (next_window_start w t) = true.
Proof. next_start_is_inside w t. Qed.

Lemma next_window_start_ge (t : datetime) : t <= next_window_start w t.
Proof.
  pose proof window_times_in_day as [Hs He].
  unfold next_window_start, combine, days, date. fold s e.
  split_instant t. fold (time_of t) in *.
  repeat match goal with
         | |- context [if ?b then _ else _] => destruct b eqn:?
         end;
    rewrite ?andb_true_iff, ?Z.leb_le, ?Z.ltb_lt, ?Z.leb_gt, ?Z.ltb_ge in *;
    unfold day_us in *; lia.
Qed.

Lemma next_window_start_within_a_day (t : datetime) :
  next_window_start w t < t + day_us.
Proof.
  pose proof window_times_in_day as [Hs He].
  unfold next_window_start, combine, days, date. fold s e.
  split_instant t. fold (time_of t) in *.
  repeat match goal with
         | |- context [if ?b then _ else _] => destruct b eqn:?
         end;
    rewrite ?andb_true_iff, ?Z.leb_le, ?Z.ltb_lt, ?Z.leb_gt, ?Z.ltb_ge in *;
    unfold day_us in *; lia.
Qed.

Lemma next_window_start_fixed (t : datetime) :
  is_in_window w t = true -> next_window_start w t = t.
Proof.
  unfold is_in_window, next_window_start. fold s e.
  destruct (s <=? e) eqn:Hse; intro Hin.
  - apply andb_true_iff in Hin. destruct Hin as [H1 H2].
    apply Z.leb_le in H1, H2.
    destruct (Z.ltb_spec e (time_of t)); [lia|].
    destruct (Z.ltb_spec (time_of t) s); [lia|reflexivity].
  - apply orb_true_iff in Hin. rewrite !Z.leb_le in Hin.
    destruct (Z.ltb_spec e (time_of t)); [|reflexivity].
    destruct (Z.ltb_spec (time_of t) s); [lia|reflexivity].
Qed.

Lemma next_window_start_least (t u : datetime) :
  t <= u -> is_in_window w u = true -> next_window_start w t <= u.
Proof.
  intros Htu Hin. pose proof window_times_in_day as [Hs He].
  revert Hin. unfold is_in_window, next_window_start, combine, days, date. fold s e.
  split_instant t. split_instant u. fold (time_of t) (time_of u) in *.
  destruct (Z.leb_spec s e).
  - rewrite andb_true_iff, !Z.leb_le. intros [H1 H2].
    destruct (Z.ltb_spec e (time_of t)); [unfold day_us in *; lia|].
    destruct (Z.ltb_spec (time_of t) s); [unfold day_us in *; lia|lia].
  - rewrite orb_true_iff, !Z.leb_le. intros Hor.
    destruct (Z.ltb_spec e (time_of t)); [|exact Htu].
    destruct (Z.ltb_spec (time_of t) s); cbn [andb]; [|exact Htu].
    unfold day_us in *; lia.
Qed.

End WindowCalculus.

(** C5.  [next_window_start w t] is the least instant from [t] on at which
    [is_in_window w] holds: it is not before [t], it is inside the window,
    and no instant from [t] on that is inside the window comes before it.
    An instant already inside is returned as it is; a window that does not
    wrap, at a time of day past its end, gives the window's start on the
    next calendar day. *)
Theorem next_window_start_minimal (w : TimeWindow) (t : datetime) :
  t <= next_window_start w t
  /\ is_in_window w (next_window_start w t) = true
  /\ (forall u, t <= u -> is_in_window w u = true -> next_window_start w t <= u)
  /\ (is_in_window w t = true -> next_window_start w t = t)
  /\ (micros (start_time w) <= micros (end_time w) ->
      micros (end_time w) < time_of t ->
      next_window_start w t = combine (date t + 1) (start_time w)).
Proof.
  split; [apply next_window_start_ge|].
  split; [apply next_window_start_inside|].
  split; [intros u; apply next_window_start_least|].
  split; [apply next_window_start_fixed|].
  intros Hse Hlate. unfold next_window_start, combine, days.
  destruct (Z.leb_spec (micros (start_time w)) (micros (end_time w))); [|lia].
  destruct (Z.ltb_spec (micros (end_time w)) (time_of t)); [|lia].
  lia.
Qed.

(* ===================================================================== *)
(** * The window loop *)
(* ===================================================================== *)

Lemma py_min_in (l : list Z) (x : Z) : In (py_min x l) (x :: l).
Proof.
  unfold py_min. revert x.
  induction l as [|y r IH]; intro x; simpl; [left; reflexivity|].
  destruct (IH (Z.min x y)) as [Hhd|Htl]; [|right; right; exact Htl].
  rewrite <- Hhd. destruct (Z.min_spec x y) as [[_ Hm]|[_ Hm]]; rewrite Hm; auto.
Qed.

Lemma py_min_le (l : list Z) (x y : Z) : In y (x :: l) -> py_min x l <= y.
Proof.
  unfold py_min. revert x.
  induction l as [|z r IH]; intros x Hin; simpl in *.
  - destruct Hin as [->|[]]. lia.
  - assert (Hmono : forall r' a b, a <= b -> fold_left Z.min r' a <= fold_left Z.min r' b).
    { induction r' as [|c r' IHr]; intros a b Hab; simpl; [exact Hab|].
      apply IHr. lia. }
    destruct Hin as [->|[->|Hin]].
    + etransitivity; [apply Hmono with (b := y); lia|]. apply IH. left; reflexivity.
    + etransitivity; [apply Hmono with (b := y); lia|]. apply IH. left; reflexivity.
    + apply IH. right. exact Hin.
Qed.

(** The minimum of the next starts is the next start of one of the
    windows. *)
Lemma min_next_window_start_attained (w : TimeWindow) (ws : list TimeWindow) (t : datetime) :
  exists w', In w' (w :: ws) /\ min_next_window_start w ws t = next_window_start w' t.
Proof.
  pose proof (py_min_in (map (fun w' => next_window_start w' t) ws) (next_window_start w t))
    as Hin.
  change (In (min_next_window_start w ws t)
             (map (fun w' => next_window_start w' t) (w :: ws))) in Hin.
  apply in_map_iff in Hin. destruct Hin as (w' & Heq & Hin).
  exists w'. split; [exact Hin | symmetry; exact Heq].
Qed.

Lemma min_next_window_start_le (w : TimeWindow) (ws : list TimeWindow) (t : datetime)
    (w' : TimeWindow) :
  In w' (w :: ws) -> min_next_window_start w ws t <= next_window_start w' t.
Proof.
  intro Hin. unfold min_next_window_start. apply py_min_le.
  change (In (next_window_start w' t) (map (fun w0 => next_window_start w0 t) (w :: ws))).
  apply (in_map (fun w0 => next_window_start w0 t)). exact Hin.
Qed.

Lemma min_next_window_start_inside (w : TimeWindow) (ws : list TimeWindow) (t : datetime) :
  any_in_window (w :: ws) (min_next_window_start w ws t) = true.
Proof.
  destruct (min_next_window_start_attained w ws t) as (w' & Hin & ->).
  apply existsb_exists. exists w'. split; [exact Hin | apply next_window_start_inside].
Qed.

Lemma window_loop_step (w : TimeWindow) (ws : list TimeWindow) (t : datetime) :
  window_loop w ws t =
  if any_in_window (w :: ws) t then t
  else window_loop w ws (min_next_window_start w ws t).
Proof.
  funelim (window_loop w ws t).
  - rewrite e. reflexivity.
  - rewrite Hout. reflexivity.
Qed.

(** The loop stops after at most one step. *)
Lemma window_loop_one_step (w : TimeWindow) (ws : list TimeWindow) (t : datetime) :
  window_loop w ws t =
  if any_in_window (w :: ws) t then t else min_next_window_start w ws t.
Proof.
  rewrite window_loop_step.
  destruct (any_in_window (w :: ws) t); [reflexivity|].
  rewrite window_loop_step, min_next_window_start_inside. reflexivity.
Qed.

Lemma window_loop_inside (w : TimeWindow) (ws : list TimeWindow) (t : datetime) :
  any_in_window (w :: ws) (window_loop w ws t) = true.
Proof.
  rewrite window_loop_one_step.
  destruct (any_in_window (w :: ws) t) eqn:Hin; [exact Hin|].
  apply min_next_window_start_inside.
Qed.

(** C9.  For a task with an interval and at least one window whose base
    next-run instant lies outside every window, the loop of
    [_update_next_run_time] ends, after one step: [next_run] is set to the
    least of the windows' next starts, which lies inside one of the windows,
    after the base and less than one calendar day after it. *)
Theorem window_loop_ends_within_a_day
    (t : Task) (now : datetime) (every : timedelta) (w : TimeWindow) (ws : list TimeWindow) :
  interval t = Some every ->
  time_windows t = w :: ws ->
  any_in_window (w :: ws) (base_next_run now every t) = false ->
  exists r,
    next_run (_update_next_run_time now t) = Some r
    /\ r = min_next_window_start w ws (base_next_run now every t)
    /\ (forall w', In w' (time_windows t) ->
                   r <= next_window_start w' (base_next_run now every t))
    /\ any_in_window (time_windows t) r = true
    /\ base_next_run now every t < r < base_next_run now every t + day_us
    /\ date r <= date (base_next_run now every t) + 1.
Proof.
  intros Hevery Hws Hout.
  exists (window_loop w ws (base_next_run now every t)).
  assert (Hloop : window_loop w ws (base_next_run now every t)
                  = min_next_window_start w ws (base_next_run now every t)).
  { rewrite window_loop_one_step, Hout. reflexivity. }
  split.
  { unfold _update_next_run_time. rewrite Hevery, Hws. reflexivity. }
  split; [exact Hloop|].
  rewrite Hloop, Hws.
  split; [intros w0 Hw0; apply min_next_window_start_le; exact Hw0|].
  split; [apply min_next_window_start_inside|].
  destruct (min_next_window_start_attained w ws (base_next_run now every t))
    as (w' & Hin & Heq).
  rewrite Heq.
  pose proof (next_window_start_ge w' (base_next_run now every t)) as Hge.
  pose proof (next_window_start_within_a_day w' (base_next_run now every t)) as Hlt.
  assert (Hneq : next_window_start w' (base_next_run now every t)
                 <> base_next_run now every t).
  { intro Hfix.
    pose proof (next_window_start_inside w' (base_next_run now every t)) as Hins.
    rewrite Hfix in Hins.
    assert (any_in_window (w :: ws) (base_next_run now every t) = true) as Habs
      by (apply existsb_exists; exists w'; split; assumption).
    congruence. }
  split; [lia|].
  unfold date.
  apply Z.lt_le_incl in Hlt.
  apply (Z.div_le_mono _ _ day_us ltac:(unfold day_us; lia)) in Hlt.
  replace (base_next_run now every t + day_us)
    with (base_next_run now every t + 1 * day_us) in Hlt by lia.
  rewrite Z.div_add in Hlt by (unfold day_us; lia).
  exact Hlt.
Qed.

Lemma window_loop_ends_within_a_day_witness :
  exists r,
    next_run (_update_next_run_time (at_ 0 18 0) windowed_task) = Some r
    /\ r = min_next_window_start work_hours []
              (base_next_run (at_ 0 18 0) (seconds 3600) windowed_task)
    /\ (forall w', In w' (time_windows windowed_task) ->
                   r <= next_window_start w'
                          (base_next_run (at_ 0 18 0) (seconds 3600) windowed_task))
    /\ any_in_window (time_windows windowed_task) r = true
    /\ base_next_run (at_ 0 18 0) (seconds 3600) windowed_task < r
        < base_next_run (at_ 0 18 0) (seconds 3600) windowed_task + day_us
    /\ date r <= date (base_next_run (at_ 0 18 0) (seconds 3600) windowed_task) + 1.
Proof.
  exact (window_loop_ends_within_a_day windowed_task (at_ 0 18 0) (seconds 3600)
           work_hours [] eq_refl eq_refl eq_refl).
Defined.

(** After 18:00 the next run in working hours is at 09:00 of the next
    day; with a night window as well it is at 23:00 of the same day. *)
Example next_run_after_hours :
  window_loop work_hours [] (at_ 0 18 0) = at_ 1 9 0
  /\ window_loop work_hours [night_hours] (at_ 0 18 0) = at_ 0 23 0
  /\ window_loop work_hours [night_hours] (at_ 0 4 0) = at_ 0 4 0.
Proof. repeat split. Qed.

(* ===================================================================== *)
(** * Where [next_run] comes from *)
(* ===================================================================== *)

Lemma update_next_run_time_inside (t : Task) (now : datetime) (every : timedelta) :
  interval t = Some every ->
  time_windows t <> [] ->
  exists r,
    next_run (_update_next_run_time now t) = Some r
    /\ any_in_window (time_windows t) r = true.
Proof.
  intros Hevery Hws. unfold _update_next_run_time. rewrite Hevery.
  destruct (time_windows t) as [|w ws] eqn:Heq; [congruence|].
  eexists. split; [reflexivity|]. apply window_loop_inside.
Qed.

Lemma update_next_run_time_frame (t : Task) (now : datetime) :
  interval (_update_next_run_time now t) = interval t
  /\ time_windows (_update_next_run_time now t) = time_windows t
  /\ status (_update_next_run_time now t) = status t
  /\ last_run (_update_next_run_time now t) = last_run t
  /\ error_count (_update_next_run_time now t) = error_count t
  /\ _stop_event (_update_next_run_time now t) = _stop_event t
  /\ _pause_event (_update_next_run_time now t) = _pause_event t
  /\ _execution_start_time (_update_next_run_time now t) = _execution_start_time t
  /\ log (_update_next_run_time now t) = log t.
Proof.
  unfold _update_next_run_time.
  destruct (interval t) eqn:Hi; [destruct (time_windows t) eqn:Hw|];
    repeat split; simpl; congruence.
Qed.

(** C4 (refuted as stated).  [resume] on a paused task whose only window is
    09:00-17:00, called at 16:30 with an interval of one hour, sets
    [next_run] to 17:30 of that day, outside the window. *)
Lemma resume_next_run_outside_windows :
  exists paused resumed,
    pause windowed_task = Ok paused
    /\ resume (at_ 0 16 30) paused = Ok resumed
    /\ time_windows resumed = [work_hours]
    /\ next_run resumed = Some (at_ 0 17 30)
    /\ any_in_window (time_windows resumed) (at_ 0 17 30) = false.
Proof.
  do 2 eexists. repeat split; reflexivity.
Qed.

(** C4 (amended).  For a task with an interval and at least one window,
    the [next_run] that [_update_next_run_time] computes lies inside one of
    the windows, and so does [next_run] after [reset] and after a completed
    cycle, which both end with that computation; with no window,
    [_update_next_run_time] sets the base instant.  [resume] on a paused
    task sets [next_run] to the resume time plus the interval and the
    constructor sets it to the time of construction, whatever the windows;
    a registration that does not start at once goes through
    [_update_next_run_time] and lands inside a window. *)
Theorem next_run_inside_window_after_update
    (t : Task) (now : datetime) (every : timedelta) :
  interval t = Some every ->
  (time_windows t <> [] ->
   (exists r, next_run (_update_next_run_time now t) = Some r
              /\ any_in_window (time_windows t) r = true)
   /\ (exists r, next_run (reset now t) = Some r
                 /\ any_in_window (time_windows (reset now t)) r = true)
   /\ (exists r, next_run (snd (on_completed (now, t))) = Some r
                 /\ any_in_window (time_windows (snd (on_completed (now, t)))) r = true))
  /\ (time_windows t = [] ->
      next_run (_update_next_run_time now t) = Some (base_next_run now every t))
  /\ (status t = PAUSED ->
      exists t', resume now t = Ok t' /\ next_run t' = Some (now + every))
  /\ (forall id nm intr prio ws limit,
        next_run (new_periodic_task id nm every intr prio ws limit now) = Some now)
  /\ (forall id nm intr prio w ws limit sch,
        exists r,
          next_run (snd (Scheduler.periodic id every nm prio (w :: ws) false limit intr
                           now sch)) = Some r
          /\ any_in_window (w :: ws) r = true).
Proof.
  intro Hevery. split; [intro Hws; split; [|split]|split; [|split; [|split]]].
  - apply update_next_run_time_inside with (every := every); assumption.
  - unfold reset.
    match goal with |- context [_update_next_run_time now ?x] => set (t1 := x) end.
    destruct (update_next_run_time_frame t1 now) as (_ & Hw & _).
    rewrite Hw.
    apply update_next_run_time_inside with (every := every); subst t1; simpl; assumption.
  - unfold on_completed. cbn [snd].
    match goal with |- context [_update_next_run_time now ?x] => set (t1 := x) end.
    assert (Hi1 : interval t1 = Some every) by (subst t1; simpl; assumption).
    assert (Hw1 : time_windows t1 <> []) by (subst t1; simpl; assumption).
    destruct (update_next_run_time_frame t1 now) as (_ & Hw & _).
    destruct (update_next_run_time_inside t1 now every Hi1 Hw1) as (r & Hr & Hin).
    exists r. split; [|simpl; rewrite Hw; exact Hin].
    simpl. exact Hr.
  - intro Hws. unfold _update_next_run_time. rewrite Hevery, Hws. reflexivity.
  - intro Hst. unfold resume. simpl. rewrite Hst. simpl. rewrite Hevery.
    eexists. split; reflexivity.
  - reflexivity.
  - intros. eexists. split; [reflexivity|]. apply window_loop_inside.
Qed.

Lemma next_run_inside_window_after_update_witness :
  interval windowed_task = Some (seconds 3600)
  /\ exists r, next_run (reset (at_ 0 18 0) windowed_task) = Some r
               /\ any_in_window (time_windows (reset (at_ 0 18 0) windowed_task)) r = true.
Proof.
  split; [reflexivity|].
  apply (next_run_inside_window_after_update windowed_task (at_ 0 18 0) (seconds 3600)
           eq_refl).
  discriminate.
Defined.

(* ===================================================================== *)
(** * Control calls *)
(* ===================================================================== *)




Lemma stop_stopped (t : Task) : stopped (stop t).
Proof. split; reflexivity. Qed.

Lemma check_interrupt_stopped (wakes : list control) (st : state) :
  _stop_event (snd st) = true -> _check_interrupt wakes st = Some (false, wakes, st).
Proof. intro H. unfold _check_interrupt. rewrite H. reflexivity. Qed.

Lemma run_path_stopped (s : script) (st : state) :
  _stop_event (snd st) = true -> run_path s st = Some (AbortEntry, st).
Proof.
  intro H. unfold run_path. rewrite check_interrupt_stopped by exact H. reflexivity.
Qed.

Lemma apply_op_stopped (o : op) (st : state) :
  stopped (snd st) -> is_reset o = false ->
  exists st', apply_op o st = Some st' /\ stopped (snd st').
Proof.
  intros [Hst Hev] Hop. destruct o as [s|c].
  - simpl. unfold run. rewrite run_path_stopped by exact Hev.
    eexists. split; [reflexivity|]. split; assumption.
  - destruct st as [now t]. simpl in *.
    destruct c; try discriminate; simpl; eexists; (split; [reflexivity|]); simpl.
    + unfold pause. rewrite Hst. simpl. split; assumption.
    + unfold resume. rewrite Hst. simpl. split; assumption.
    + apply stop_stopped.
    + split; assumption.
Qed.

(** C2 (refuted as stated).  [reset] after [stop] leaves the status
    PENDING. *)
Lemma reset_after_stop_is_pending :
  status (stop sample_task) = STOPPED
  /\ option_map (fun st => status (snd st))
       (apply_ops [OpControl CallReset] (at_ 0 12 0, stop sample_task)) = Some PENDING.
Proof. split; reflexivity. Qed.

(** C2 (amended).  Once [stop] has set the status STOPPED, every sequence
    of [run], [pause], [resume] and [stop] (and of time passing) goes
    through and leaves the status STOPPED; [reset] is the one operation
    that leaves STOPPED, for PENDING, and clears the stop event. *)
Theorem stopped_until_reset (t : Task) (now : datetime) (ops : list op) :
  forallb (fun o => negb (is_reset o)) ops = true ->
  (exists st', apply_ops ops (now, stop t) = Some st' /\ status (snd st') = STOPPED)
  /\ (forall now', status (reset now' (stop t)) = PENDING
                   /\ _stop_event (reset now' (stop t)) = false).
Proof.
  intro Hops. split.
  - assert (Hgen : forall ops st, forallb (fun o => negb (is_reset o)) ops = true ->
                     stopped (snd st) ->
                     exists st', apply_ops ops st = Some st' /\ stopped (snd st')).
    { clear. induction ops as [|o rest IH]; intros st Hall Hst.
      - exists st. split; [reflexivity|exact Hst].
      - simpl in Hall. apply andb_true_iff in Hall. destruct Hall as [Ho Hrest].
        apply negb_true_iff in Ho.
        destruct (apply_op_stopped o st Hst Ho) as (st1 & Hap & Hst1).
        simpl. rewrite Hap. apply IH; assumption. }
    destruct (Hgen ops (now, stop t) Hops (stop_stopped t)) as (st' & Hap & Hst' & _).
    exists st'. split; assumption.
  - intro now'. unfold reset.
    match goal with |- context [_update_next_run_time now' ?x] => set (t1 := x) end.
    destruct (update_next_run_time_frame t1 now') as (_ & _ & Hs & _ & _ & He & _).
    rewrite Hs, He. split; reflexivity.
Qed.

Lemma stopped_until_reset_witness :
  exists st',
    apply_ops [OpRun quiet_script; OpControl CallPause; OpControl CallResume;
               OpControl CallStop; OpRun raising_script]
      (at_ 0 12 0, stop sample_task) = Some st'
    /\ status (snd st') = STOPPED.
Proof.
  exact (proj1 (stopped_until_reset sample_task (at_ 0 12 0)
                  [OpRun quiet_script; OpControl CallPause; OpControl CallResume;
                   OpControl CallStop; OpRun raising_script] eq_refl)).
Defined.

(** C1 (the code at the failing input).  A scheduler just constructed in
    FOREGROUND mode reports that it is running, so [start] raises the
    "already running" error and the mode cannot be changed either; in
    BACKGROUND mode [start] goes through and hands the loop to a new
    thread. *)
Theorem start_fresh_foreground_raises (tick_period : timedelta) :
  Scheduler.is_running (Scheduler.new FOREGROUND tick_period) = true
  /\ Scheduler.start (Scheduler.new FOREGROUND tick_period)
     = Raise (RuntimeError "Scheduler is already running")
  /\ Scheduler.set_mode_checked BACKGROUND (Scheduler.new FOREGROUND tick_period)
     = Raise (RuntimeError "Cannot change mode while scheduler is running")
  /\ Scheduler.is_running (Scheduler.new BACKGROUND tick_period) = false
  /\ Scheduler.start (Scheduler.new BACKGROUND tick_period)
     = Ok (Scheduler.set_thread (Some true) (Scheduler.new BACKGROUND tick_period),
           Scheduler.InNewThread).
Proof. repeat split. Qed.

(* ===================================================================== *)
(** * What a cycle leaves alone *)
(* ===================================================================== *)

(** A relation between the task before and the task later that [run]
    keeps up to its return statement, as long as the other contexts keep
    to the [allowed] controls. *)
Section Frame.

Variable allowed : control -> bool.
Variable R : Task -> Task -> Prop.

Hypothesis R_refl : forall t, R t t.
Hypothesis R_trans : forall t1 t2 t3, R t1 t2 -> R t2 t3 -> R t1 t3.
Hypothesis R_status :
  forall new_status t,
    new_status <> COMPLETED -> new_status <> FAILED -> R t (_update_status new_status t).
Hypothesis R_marker : forall v t, R t (set_execution_start_time v t).
Hypothesis R_control :
  forall c st, allowed c = true -> R (snd st) (snd (apply_control c st)).

Lemma apply_controls_frame (cs : list control) (st : state) :
  forallb allowed cs = true -> R (snd st) (snd (apply_controls cs st)).
Proof.
  revert st. induction cs as [|c rest IH]; intros st Hall; simpl.
  - apply R_refl.
  - simpl in Hall. apply andb_true_iff in Hall. destruct Hall as [Hc Hrest].
    eapply R_trans; [apply R_control; exact Hc|]. apply IH. exact Hrest.
Qed.

Lemma wait_pause_frame (wakes wakes' : list control) (st st' : state) :
  forallb allowed wakes = true ->
  wait_pause wakes st = Some (wakes', st') ->
  R (snd st) (snd st') /\ forallb allowed wakes' = true.
Proof.
  revert st. induction wakes as [|c rest IH]; intros st Hall Hw; simpl in Hw.
  - destruct (_pause_event (snd st)); [|discriminate].
    inversion Hw; subst. split; [apply R_refl | reflexivity].
  - destruct (_pause_event (snd st)).
    + inversion Hw; subst. split; [apply R_refl | exact Hall].
    + simpl in Hall. apply andb_true_iff in Hall. destruct Hall as [Hc Hrest].
      destruct (IH _ Hrest Hw) as [Hu Hall'].
      split; [|exact Hall'].
      eapply R_trans; [apply R_control; exact Hc | exact Hu].
Qed.

Lemma check_interrupt_frame
    (wakes wakes' : list control) (st st' : state) (go : bool) :
  forallb allowed wakes = true ->
  _check_interrupt wakes st = Some (go, wakes', st') ->
  R (snd st) (snd st') /\ forallb allowed wakes' = true.
Proof.
  intros Hall. unfold _check_interrupt.
  destruct (_stop_event (snd st)).
  { intro H; inversion H; subst. split; [apply R_refl | exact Hall]. }
  destruct (_pause_event (snd st)); simpl.
  { intro H; inversion H; subst. split; [apply R_refl | exact Hall]. }
  destruct (wait_pause wakes (fst st, _update_status PAUSED (snd st)))
    as [[wakes1 st1]|] eqn:Hw; [|discriminate].
  destruct (wait_pause_frame _ _ _ _ Hall Hw) as [Hu Hall1].
  simpl in Hu.
  assert (Hu1 : R (snd st) (snd st1)).
  { eapply R_trans; [|exact Hu]. apply R_status; discriminate. }
  destruct (_stop_event (snd st1)); intro H; inversion H; subst.
  - split; assumption.
  - split; [|exact Hall1]. simpl.
    eapply R_trans; [exact Hu1|]. apply R_status; discriminate.
Qed.

Lemma exec_steps_frame
    (steps : list step) (wakes wakes' : list control) (st st' : state) :
  forallb (step_allows allowed) steps = true ->
  forallb allowed wakes = true ->
  exec_steps steps wakes st = Some (wakes', st') ->
  R (snd st) (snd st') /\ forallb allowed wakes' = true.
Proof.
  revert wakes st. induction steps as [|x rest IH]; intros wakes st Hsteps Hall Hex.
  - simpl in Hex. inversion Hex; subst. split; [apply R_refl | exact Hall].
  - simpl in Hsteps. apply andb_true_iff in Hsteps. destruct Hsteps as [Hx Hrest].
    destruct x as [c|]; simpl in Hex.
    + destruct (IH _ _ Hrest Hall Hex) as [Hu Hall'].
      split; [|exact Hall'].
      eapply R_trans; [apply R_control; exact Hx | exact Hu].
    + unfold poll in Hex. destruct (supports_interrupt (snd st)).
      * destruct (_check_interrupt wakes st) as [[[go wakes1] st1]|] eqn:Hci;
          [|discriminate].
        destruct (check_interrupt_frame _ _ _ _ _ Hall Hci) as [Hu1 Hall1].
        destruct (IH _ _ Hrest Hall1 Hex) as [Hu Hall'].
        split; [|exact Hall']. eapply R_trans; eassumption.
      * eapply IH; eassumption.
Qed.

(** [run] up to its return statement. *)
Lemma run_path_frame (s : script) (st st' : state) (p : path) :
  script_allows allowed s = true ->
  run_path s st = Some (p, st') ->
  exists st0,
    R (snd st) (snd st0)
    /\ st' = finish p st0
    /\ (p = Failed -> body_raises s = true)
    /\ (p = Completed \/ p = AbortAfterBody -> body_raises s = false).
Proof.
  intros Hs Hrun.
  unfold script_allows in Hs. apply andb_true_iff in Hs. destruct Hs as [Hs Hwakes].
  apply andb_true_iff in Hs. destruct Hs as [Hbefore Hbody].
  unfold run_path in Hrun.
  destruct (_check_interrupt (wake_ups s) st) as [[[go1 wakes1] st1]|] eqn:H1;
    [|discriminate].
  destruct (check_interrupt_frame _ _ _ _ _ Hwakes H1) as [Hu1 Hall1].
  destruct go1.
  2:{ inversion Hrun; subst. exists st'. repeat split; try assumption;
      try discriminate. intros [H|H]; discriminate. }
  pose proof (apply_controls_frame (before_lock s) st1 Hbefore) as Hu2.
  destruct (_check_interrupt [] (apply_controls (before_lock s) st1))
    as [[[go2 wakes2] st2]|] eqn:H2; [|discriminate].
  destruct (check_interrupt_frame [] _ _ _ _ eq_refl H2) as [Hu3 _].
  assert (Hu123 : R (snd st) (snd st2))
    by (eapply R_trans; [exact Hu1|]; eapply R_trans; [exact Hu2|exact Hu3]).
  destruct go2.
  2:{ inversion Hrun; subst. exists st'. repeat split; try assumption;
      try discriminate. intros [H|H]; discriminate. }
  cbn zeta in Hrun.
  destruct (exec_steps (body_steps s) wakes1 (fst st2, begin_running (fst st2) (snd st2)))
    as [[wakes3 st3]|] eqn:H3; [|discriminate].
  destruct (exec_steps_frame _ _ _ _ _ Hbody Hall1 H3) as [Hu4 Hall3].
  cbn [snd] in Hu4.
  assert (Hu1234 : R (snd st) (snd st3)).
  { eapply R_trans; [exact Hu123|]. eapply R_trans; [|exact Hu4].
    unfold begin_running.
    eapply R_trans; [apply (R_status RUNNING); discriminate | apply R_marker]. }
  destruct (body_raises s).
  { inversion Hrun; subst. exists st3. repeat split; try assumption.
    intros [H|H]; discriminate. }
  destruct (_check_interrupt wakes3 st3) as [[[go4 wakes4] st4]|] eqn:H4; [|discriminate].
  destruct (check_interrupt_frame _ _ _ _ _ Hall3 H4) as [Hu5 _].
  assert (Hfinal : R (snd st) (snd st4)) by (eapply R_trans; eassumption).
  destruct go4.
  2:{ inversion Hrun; subst. exists st'. repeat split; try assumption; discriminate. }
  destruct (negb (_check_execution_time (fst st4) (snd st4))).
  - inversion Hrun; subst. exists st'. repeat split; try assumption; discriminate.
  - inversion Hrun; subst. exists st4. repeat split; try assumption; discriminate.
Qed.

End Frame.

(** Stop and pause requests and the passing of time leave a task
    [undisturbed]. *)

Lemma undisturbed_refl (t : Task) : undisturbed t t.
Proof.
  repeat split. exists []. split; [symmetry; apply app_nil_r | constructor].
Qed.

Lemma undisturbed_trans (t1 t2 t3 : Task) :
  undisturbed t1 t2 -> undisturbed t2 t3 -> undisturbed t1 t3.
Proof.
  intros (Hl & Hn & He & Hc1 & Hc2 & Hc3 & evs & Hlog & Hall)
         (Hl' & Hn' & He' & Hc1' & Hc2' & Hc3' & evs' & Hlog' & Hall').
  repeat split; try congruence.
  exists (evs ++ evs'). split.
  - rewrite Hlog', Hlog, app_assoc. reflexivity.
  - apply Forall_app. split; assumption.
Qed.

Lemma update_status_undisturbed (new_status : TaskStatus) (t : Task) :
  new_status <> COMPLETED -> new_status <> FAILED ->
  undisturbed t (_update_status new_status t).
Proof.
  intros Hc Hf. repeat split. eexists. split; [reflexivity|].
  constructor; [split; assumption|].
  apply Forall_forall. intros e Hin. apply in_map_iff in Hin.
  destruct Hin as (cb & <- & _). split; assumption.
Qed.

Lemma same_log_undisturbed (t t' : Task) :
  last_run t' = last_run t -> next_run t' = next_run t ->
  error_count t' = error_count t ->
  _on_status_change_callbacks t' = _on_status_change_callbacks t ->
  _on_success_callbacks t' = _on_success_callbacks t ->
  _on_failure_callbacks t' = _on_failure_callbacks t ->
  log t' = log t ->
  undisturbed t t'.
Proof.
  intros Hl Hn He Hc1 Hc2 Hc3 Hlog. repeat split; try assumption.
  exists []. split; [rewrite Hlog; symmetry; apply app_nil_r | constructor].
Qed.

Lemma pause_undisturbed (t t' : Task) : pause t = Ok t' -> undisturbed t t'.
Proof.
  unfold pause. destruct (status_eqb (status t) STOPPED); [discriminate|].
  simpl. destruct (negb (status_eqb (status t) RUNNING)); intro H; inversion H; subst.
  - apply undisturbed_trans with (t2 := set_pause_event false t).
    + apply same_log_undisturbed; reflexivity.
    + apply update_status_undisturbed; discriminate.
  - apply same_log_undisturbed; reflexivity.
Qed.

Lemma stop_undisturbed (t : Task) : undisturbed t (stop t).
Proof.
  unfold stop.
  apply undisturbed_trans with (t2 := set_pause_event true (set_stop_event true t)).
  - apply same_log_undisturbed; reflexivity.
  - apply update_status_undisturbed; discriminate.
Qed.

Lemma apply_control_undisturbed (c : control) (st : state) :
  is_request c = true -> undisturbed (snd st) (snd (apply_control c st)).
Proof.
  destruct st as [now t]. destruct c; try discriminate; intros _; simpl.
  - destruct (pause t) as [t'|e] eqn:Hp; [apply pause_undisturbed; exact Hp|].
    apply undisturbed_refl.
  - apply stop_undisturbed.
  - apply undisturbed_refl.
Qed.

Lemma run_path_undisturbed (s : script) (st st' : state) (p : path) :
  script_allows is_request s = true ->
  run_path s st = Some (p, st') ->
  exists st0,
    undisturbed (snd st) (snd st0)
    /\ st' = finish p st0
    /\ (p = Failed -> body_raises s = true)
    /\ (p = Completed \/ p = AbortAfterBody -> body_raises s = false).
Proof.
  apply run_path_frame.
  - apply undisturbed_refl.
  - apply undisturbed_trans.
  - apply update_status_undisturbed.
  - intros v t. apply same_log_undisturbed; reflexivity.
  - apply apply_control_undisturbed.
Qed.

(* ===================================================================== *)
(** * Cycles in quiet surroundings *)
(* ===================================================================== *)

Lemma apply_controls_quiet (cs : list control) (now : datetime) (t : Task) :
  forallb is_elapse cs = true ->
  apply_controls cs (now, t) = (now + duration cs, t).
Proof.
  revert now. induction cs as [|c rest IH]; intros now Hall; simpl.
  - rewrite Z.add_0_r. reflexivity.
  - simpl in Hall. apply andb_true_iff in Hall. destruct Hall as [Hc Hrest].
    destruct c; try discriminate. simpl.
    unfold apply_controls in IH. rewrite IH by exact Hrest.
    f_equal. lia.
Qed.

Lemma check_interrupt_clear (wakes : list control) (st : state) :
  _stop_event (snd st) = false -> _pause_event (snd st) = true ->
  _check_interrupt wakes st = Some (true, wakes, st).
Proof.
  intros Hstop Hpause. unfold _check_interrupt. rewrite Hstop, Hpause. reflexivity.
Qed.

Lemma exec_steps_quiet (steps : list step) (wakes : list control) (now : datetime) (t : Task) :
  forallb (step_allows is_elapse) steps = true ->
  _stop_event t = false -> _pause_event t = true ->
  exec_steps steps wakes (now, t) = Some (wakes, (now + body_duration steps, t)).
Proof.
  intros Hall Hstop Hpause. revert now.
  induction steps as [|x rest IH]; intros now; simpl.
  - rewrite Z.add_0_r. reflexivity.
  - simpl in Hall. apply andb_true_iff in Hall. destruct Hall as [Hx Hrest].
    destruct x as [c|].
    + destruct c; try discriminate. simpl.
      rewrite IH by exact Hrest. do 3 f_equal. lia.
    + unfold poll. rewrite check_interrupt_clear by assumption.
      destruct (supports_interrupt (snd (now, t))); apply IH; exact Hrest.
Qed.

(** [run] when no other context touches the task. *)
Lemma run_path_quiet (s : script) (now : datetime) (t : Task) :
  quiet s = true ->
  _stop_event t = false -> _pause_event t = true ->
  let started := now + duration (before_lock s) in
  let ended := started + body_duration (body_steps s) in
  run_path s (now, t) =
  Some (if body_raises s then (Failed, on_failed (ended, begin_running started t))
        else if _check_execution_time ended (begin_running started t)
             then (Completed, on_completed (ended, begin_running started t))
             else (AbortAfterBody, (ended, begin_running started t))).
Proof.
  intros Hq Hstop Hpause started ended.
  unfold quiet in Hq. apply andb_true_iff in Hq. destruct Hq as [Hbefore Hbody].
  unfold run_path.
  rewrite check_interrupt_clear by assumption.
  rewrite apply_controls_quiet by exact Hbefore.
  rewrite check_interrupt_clear by assumption.
  cbn [fst snd]. fold started.
  rewrite exec_steps_quiet by (try exact Hbody; reflexivity || assumption).
  fold ended.
  destruct (body_raises s); [reflexivity|].
  rewrite check_interrupt_clear by assumption.
  cbn [fst snd].
  destruct (_check_execution_time ended (begin_running started t)); reflexivity.
Qed.

Lemma apply_control_no_more_errors (c : control) (st : state) :
  (error_count (snd (apply_control c st)) <= error_count (snd st))%nat.
Proof.
  destruct st as [now t]. destruct c; simpl.
  - unfold pause. destruct (status_eqb (status t) STOPPED); simpl; [lia|].
    destruct (negb (status_eqb (status t) RUNNING)); simpl; lia.
  - unfold resume. destruct (status_eqb (status t) STOPPED); simpl; [lia|].
    destruct (status_eqb (status t) PAUSED); simpl; [|lia].
    destruct (interval t); simpl; lia.
  - lia.
  - unfold reset.
    match goal with |- context [_update_next_run_time now ?x] => set (t1 := x) end.
    destruct (update_next_run_time_frame t1 now) as (_ & _ & _ & _ & He & _).
    rewrite He. subst t1. simpl. lia.
  - lia.
Qed.

Lemma script_allows_all (s : script) : script_allows (fun _ => true) s = true.
Proof.
  unfold script_allows.
  assert (Hc : forall cs : list control, forallb (fun _ => true) cs = true)
    by (induction cs; simpl; auto).
  assert (Hs : forall xs, forallb (step_allows (fun _ => true)) xs = true)
    by (induction xs as [|[c|] xs IH]; simpl; auto).
  rewrite !Hc, Hs. reflexivity.
Qed.

(** Whatever the other contexts do, a cycle that does not end in the
    failure handler does not raise [error_count]. *)
Lemma run_path_no_more_errors (s : script) (st st' : state) (p : path) :
  run_path s st = Some (p, st') ->
  p <> Failed ->
  (error_count (snd st') <= error_count (snd st))%nat.
Proof.
  intros Hrun Hp.
  destruct (run_path_frame (fun _ => true)
              (fun t t' => (error_count t' <= error_count t)%nat)) with
    (s := s) (st := st) (st' := st') (p := p) as (st0 & Hle & Hfin & _).
  - intros; lia.
  - intros; lia.
  - intros; simpl; lia.
  - intros; simpl; lia.
  - intros c st1 _. apply apply_control_no_more_errors.
  - apply script_allows_all.
  - exact Hrun.
  - subst st'. destruct p; simpl; try exact Hle; try congruence.
    destruct st0 as [now0 t0]. unfold on_completed. cbn [snd].
    match goal with |- context [_update_next_run_time now0 ?x] => set (t1 := x) end.
    destruct (update_next_run_time_frame t1 now0) as (_ & _ & _ & _ & He & _).
    simpl. rewrite He. subst t1. simpl. exact Hle.
Qed.

(* ===================================================================== *)
(** * The sort of the ready tasks *)
(* ===================================================================== *)

Lemma insert_task_perm (x : nat * Task) (l : list (nat * Task)) :
  Permutation (insert_task x l) (x :: l).
Proof.
  induction l as [|y rest IH]; simpl; [reflexivity|].
  destruct (task_lt (snd y) (snd x)); [|reflexivity].
  rewrite IH. apply perm_swap.
Qed.

Lemma sort_tasks_perm (l : list (nat * Task)) : Permutation (sort_tasks l) l.
Proof.
  induction l as [|x rest IH]; simpl; [reflexivity|].
  rewrite insert_task_perm, IH. reflexivity.
Qed.

Lemma insert_task_sorted (x : nat * Task) (l : list (nat * Task)) :
  StronglySorted runs_before l -> StronglySorted runs_before (insert_task x l).
Proof.
  induction l as [|y rest IH]; intro Hs; simpl.
  - constructor; constructor.
  - apply StronglySorted_inv in Hs. destruct Hs as [Hrest Hy].
    destruct (task_lt (snd y) (snd x)) eqn:Hlt; unfold task_lt in Hlt.
    + apply Z.ltb_lt in Hlt. constructor; [apply IH; exact Hrest|].
      apply (Permutation_Forall (x := x :: rest));
        [symmetry; apply insert_task_perm|].
      constructor; [unfold runs_before, entry_priority; lia | exact Hy].
    + apply Z.ltb_ge in Hlt. constructor; [constructor; assumption|].
      constructor; [unfold runs_before, entry_priority; lia|].
      eapply Forall_impl; [|exact Hy].
      unfold runs_before, entry_priority. intros a Ha. lia.
Qed.

Lemma sort_tasks_sorted (l : list (nat * Task)) : StronglySorted runs_before (sort_tasks l).
Proof.
  induction l as [|x rest IH]; simpl; [constructor|].
  apply insert_task_sorted. exact IH.
Qed.

(** The sort is stable: an entry is put before the entries of its own
    priority that were there. *)
Lemma insert_task_stable (p : TaskPriority) (x : nat * Task) (l : list (nat * Task)) :
  of_priority p (insert_task x l) = of_priority p (x :: l).
Proof.
  unfold of_priority. induction l as [|y rest IH]; [reflexivity|].
  simpl. destruct (task_lt (snd y) (snd x)) eqn:Hlt; [|reflexivity].
  unfold task_lt in Hlt. apply Z.ltb_lt in Hlt. fold (entry_priority x) (entry_priority y) in Hlt.
  simpl. rewrite IH. simpl.
  destruct (Z.eqb_spec (entry_priority y) (priority_value p)) as [Hy|Hy];
    destruct (Z.eqb_spec (entry_priority x) (priority_value p)) as [Hx|Hx];
    try reflexivity.
  lia.
Qed.

Lemma sort_tasks_stable (p : TaskPriority) (l : list (nat * Task)) :
  of_priority p (sort_tasks l) = of_priority p l.
Proof.
  induction l as [|x rest IH]; [reflexivity|].
  simpl. rewrite insert_task_stable. unfold of_priority in *. simpl. rewrite IH. reflexivity.
Qed.

(* ===================================================================== *)
(** * The dispatch loop *)
(* ===================================================================== *)

Lemma dict_get_set_other (key key' : nat) (t : Task) (d : task_dict) :
  key <> key' -> dict_get key (dict_set key' t d) = dict_get key d.
Proof.
  intro Hne. induction d as [|[k t0] rest IH]; simpl.
  - destruct (Nat.eqb_spec key' key); [congruence|reflexivity].
  - destruct (Nat.eqb_spec k key'); simpl.
    + destruct (Nat.eqb_spec k key); [congruence|reflexivity].
    + rewrite IH. reflexivity.
Qed.

Lemma dict_set_in_other (key key' : nat) (t t' : Task) (d : task_dict) :
  key <> key' -> In (key, t) (dict_set key' t' d) -> In (key, t) d.
Proof.
  intro Hne. induction d as [|[k t0] rest IH]; simpl.
  - intros [H|[]]. congruence.
  - destruct (Nat.eqb_spec k key'); simpl.
    + intros [H|H]; [congruence | right; exact H].
    + intros [H|H]; [left; exact H | right; apply IH; exact H].
Qed.

Lemma dict_get_in (key : nat) (t : Task) (d : task_dict) :
  NoDup (map fst d) -> In (key, t) d -> dict_get key d = Some t.
Proof.
  induction d as [|[k t0] rest IH]; simpl; intros Hnd Hin; [contradiction|].
  inversion Hnd as [|? ? Hnotin Hrest]; subst.
  destruct Hin as [Heq|Hin].
  - inversion Heq; subst. rewrite Nat.eqb_refl. reflexivity.
  - destruct (Nat.eqb_spec k key) as [->|Hne]; [|apply IH; assumption].
    exfalso. apply Hnotin. apply in_map_iff. exists (key, t). split; [reflexivity|exact Hin].
Qed.

Lemma run_batch_holds (how : nat -> script) (keys ran : list nat) (now now' : datetime)
    (d d' : task_dict) (key : nat) (t : Task) :
  ~ In key keys -> holds key t d ->
  Scheduler.run_batch how keys now d = Some (ran, (now', d')) ->
  holds key t d' /\ ~ In key ran.
Proof.
  revert now d ran. induction keys as [|k rest IH]; intros now d ran Hnot Hd Hrun;
    simpl in Hrun.
  - inversion Hrun; subst. split; [exact Hd | intros []].
  - assert (Hne : key <> k) by (intro; apply Hnot; left; congruence).
    assert (Hnot' : ~ In key rest) by (intro; apply Hnot; right; assumption).
    destruct (dict_get k d) as [tk|]; [|eapply IH; eassumption].
    destruct (run (how k) (now, tk)) as [[b [now1 t1]]|]; [|discriminate].
    destruct (Scheduler.run_batch how rest now1 (dict_set k t1 d))
      as [[ran1 final1]|] eqn:Hrest; [|discriminate].
    inversion Hrun; subst.
    destruct (IH now1 (dict_set k t1 d) ran1 Hnot') as [Hd' Hran]; [|exact Hrest|].
    + destruct Hd as [Hget Hall]. split.
      * rewrite dict_get_set_other by exact Hne. exact Hget.
      * intros t' Hin. apply Hall. eapply dict_set_in_other; eassumption.
    + split; [exact Hd'|]. intros [Heq|Hin]; [congruence | exact (Hran Hin)].
Qed.

Lemma dict_get_set_some (key key' : nat) (t : Task) (d : task_dict) :
  dict_get key d <> None -> dict_get key (dict_set key' t d) <> None.
Proof.
  induction d as [|[k t0] rest IH]; simpl; [congruence|].
  destruct (Nat.eqb_spec k key'); simpl.
  - destruct (Nat.eqb_spec k key); [discriminate | trivial].
  - destruct (Nat.eqb_spec k key); [discriminate | exact IH].
Qed.

(** Every task of the batch is run, in the order of the batch. *)
Lemma run_batch_ran (how : nat -> script) (keys ran : list nat) (now : datetime)
    (d : task_dict) (final : datetime * task_dict) :
  (forall k, In k keys -> dict_get k d <> None) ->
  Scheduler.run_batch how keys now d = Some (ran, final) ->
  ran = keys.
Proof.
  revert now d ran. induction keys as [|k rest IH]; intros now d ran Hall Hrun;
    simpl in Hrun.
  - inversion Hrun; reflexivity.
  - destruct (dict_get k d) as [tk|] eqn:Hget.
    2:{ exfalso. apply (Hall k); [left; reflexivity | exact Hget]. }
    destruct (run (how k) (now, tk)) as [[b [now1 t1]]|]; [|discriminate].
    destruct (Scheduler.run_batch how rest now1 (dict_set k t1 d))
      as [[ran1 final1]|] eqn:Hrest; [|discriminate].
    inversion Hrun; subst. f_equal.
    eapply IH; [|exact Hrest].
    intros k' Hin. apply dict_get_set_some. apply Hall. right. exact Hin.
Qed.

Lemma dict_get_of_in (key : nat) (t : Task) (d : task_dict) :
  In (key, t) d -> dict_get key d <> None.
Proof.
  induction d as [|[k t0] rest IH]; simpl; [contradiction|].
  intros [Heq|Hin].
  - inversion Heq; subst. rewrite Nat.eqb_refl. discriminate.
  - destruct (Nat.eqb k key); [discriminate | apply IH; exact Hin].
Qed.

(** A task that is not ready is in no batch. *)
Lemma not_ready_not_in_batch (key : nat) (t : Task) (now : datetime)
    (s : Scheduler.Scheduler) :
  holds key t (Scheduler._tasks s) -> is_ready now t = false ->
  ~ In key (map fst (Scheduler.ready_tasks now s)).
Proof.
  intros [_ Hall] Hnot Hin. apply in_map_iff in Hin. destruct Hin as ([k t'] & Hk & Hin).
  simpl in Hk. subst k. unfold Scheduler.ready_tasks in Hin.
  apply (Permutation_in _ (sort_tasks_perm _)) in Hin.
  apply filter_In in Hin. destruct Hin as [Hin Hready]. simpl in Hready.
  rewrite (Hall t' Hin) in Hready. congruence.
Qed.

Lemma running_never_dispatched (ticks : list tick_env) (now : datetime)
    (s : Scheduler.Scheduler) (key : nat) (t : Task)
    (batches : list (list nat)) (final : datetime * Scheduler.Scheduler) :
  status t = RUNNING ->
  holds key t (Scheduler._tasks s) ->
  Scheduler._run ticks now s = Some (batches, final) ->
  (forall batch, In batch batches -> ~ In key batch)
  /\ holds key t (Scheduler._tasks (snd final)).
Proof.
  intros Hst. revert now s batches final.
  induction ticks as [|env rest IH]; intros now s batches final Hd Hrun; simpl in Hrun.
  - inversion Hrun; subst. split; [intros batch []|exact Hd].
  - destruct (Scheduler._stop_event s).
    { inversion Hrun; subst. split; [intros batch []|exact Hd]. }
    unfold Scheduler.tick in Hrun.
    set (batch := match halt_after env with
                  | Some n => firstn n (map fst (Scheduler.ready_tasks now s))
                  | None => map fst (Scheduler.ready_tasks now s)
                  end) in *.
    assert (Hnot : ~ In key batch).
    { intro Hin. apply (not_ready_not_in_batch key t now s Hd).
      - unfold is_ready. rewrite Hst. reflexivity.
      - subst batch. destruct (halt_after env) as [n|]; [|exact Hin].
        rewrite <- (firstn_skipn n). apply in_or_app. left. exact Hin. }
    destruct (Scheduler.run_batch (scripts env) batch now (Scheduler._tasks s))
      as [[ran [now1 d1]]|] eqn:Hbatch; [|discriminate].
    destruct (run_batch_holds _ _ _ _ _ _ _ _ _ Hnot Hd Hbatch) as [Hd1 Hran].
    match type of Hrun with
    | context [Scheduler._run rest ?n ?s1] =>
        destruct (Scheduler._run rest n s1) as [[batches1 final1]|] eqn:Hrest;
          [|discriminate];
        assert (Hd1' : holds key t (Scheduler._tasks s1))
          by (destruct (halt_after env); exact Hd1)
    end.
    inversion Hrun; subst.
    destruct (IH _ _ _ _ Hd1' Hrest) as [Hbs Hfinal].
    split; [|exact Hfinal].
    intros b [<-|Hin]; [exact Hran | apply Hbs; exact Hin].
Qed.

Lemma holds_of_get (key : nat) (t : Task) (d : task_dict) :
  NoDup (map fst d) -> dict_get key d = Some t -> holds key t d.
Proof.
  intros Hnd Hget. split; [exact Hget|].
  intros t' Hin. pose proof (dict_get_in key t' d Hnd Hin) as Hget'. congruence.
Qed.

(** What frees a task left RUNNING: [stop] and [pause] followed by
    [resume] leave it out of the ready set, [reset] makes it PENDING. *)
Lemma only_reset_frees_running_task (t : Task) (now : datetime) :
  status t = RUNNING ->
  is_ready now (stop t) = false
  /\ (exists t1 t2, pause t = Ok t1 /\ resume now t1 = Ok t2 /\ status t2 = RUNNING)
  /\ status (reset now t) = PENDING.
Proof.
  intro Hst. split; [reflexivity|]. split.
  - unfold pause. rewrite Hst. simpl. rewrite Hst. simpl.
    eexists. eexists. split; [reflexivity|].
    unfold resume. simpl. rewrite Hst. simpl. split; [reflexivity|exact Hst].
  - unfold reset.
    match goal with |- context [_update_next_run_time now ?x] => set (t1 := x) end.
    destruct (update_next_run_time_frame t1 now) as (_ & _ & Hs & _).
    rewrite Hs. reflexivity.
Qed.

(** C10.  In quiet surroundings (no stop or pause request), when the body
    returns after more than [max_running_time], [run] returns False, the
    status is still RUNNING and the execution-start marker is still set; a
    scheduler that holds the task in that state never runs it, tick after
    tick, and keeps it as it is. *)
Theorem timed_out_task_stays_running
    (s : script) (now : datetime) (t : Task) (limit : timedelta) :
  quiet s = true ->
  body_raises s = false ->
  _stop_event t = false ->
  _pause_event t = true ->
  max_running_time t = Some limit ->
  limit <> 0 ->
  limit < body_duration (body_steps s) ->
  let started := now + duration (before_lock s) in
  let t' := begin_running started t in
  run s (now, t) = Some (false, (started + body_duration (body_steps s), t'))
  /\ status t' = RUNNING
  /\ _execution_start_time t' = Some started
  /\ (forall clock, is_ready clock t' = false)
  /\ (forall sch key ticks clock batches final,
        Scheduler.get_task key sch = Some t' ->
        NoDup (map fst (Scheduler._tasks sch)) ->
        Scheduler._run ticks clock sch = Some (batches, final) ->
        (forall batch, In batch batches -> ~ In key batch)
        /\ Scheduler.get_task key (snd final) = Some t').
Proof.
  intros Hq Hraise Hstop Hpause Hmax Hnz Hlate started t'.
  assert (Hcheck : _check_execution_time (started + body_duration (body_steps s)) t' = false).
  { unfold _check_execution_time. subst t'. simpl. rewrite Hmax.
    destruct (Z.eqb_spec limit 0); [contradiction|]. simpl.
    destruct (Z.ltb_spec limit (started + body_duration (body_steps s) - started));
      [reflexivity | lia]. }
  split.
  { unfold run. rewrite (run_path_quiet s now t Hq Hstop Hpause). cbn zeta.
    fold started. fold t'. rewrite Hraise, Hcheck. reflexivity. }
  split; [reflexivity|]. split; [reflexivity|]. split; [reflexivity|].
  intros sch key ticks clock batches final Hget Hnd Hrun.
  pose proof (holds_of_get key t' _ Hnd Hget) as Hd.
  destruct (running_never_dispatched ticks clock sch key t' batches final eq_refl Hd Hrun)
    as [Hnever [Hfinal _]].
  split; assumption.
Qed.

Lemma timed_out_task_stays_running_witness :
  run (slow_script (seconds 31)) (at_ 0 12 0, limited_task)
  = Some (false, (at_ 0 12 0 + 0 + (seconds 31 + 0), begin_running (at_ 0 12 0 + 0) limited_task))
  /\ status (begin_running (at_ 0 12 0 + 0) limited_task) = RUNNING.
Proof.
  assert (H1 : seconds 30 <> 0) by discriminate.
  assert (H2 : seconds 30 < body_duration (body_steps (slow_script (seconds 31))))
    by reflexivity.
  pose proof (timed_out_task_stays_running (slow_script (seconds 31)) (at_ 0 12 0)
                limited_task (seconds 30) eq_refl eq_refl eq_refl eq_refl eq_refl H1 H2) as H.
  split; [exact (proj1 H) | exact (proj1 (proj2 H))].
Defined.

(** The scheduler goes on with its other tasks: over two ticks it runs
    [sample_task] once and never the task left RUNNING. *)
Example with_timed_out_task_two_ticks :
  option_map fst (Scheduler._run [quiet_tick; quiet_tick] (at_ 0 12 1) with_timed_out_task)
  = Some [[1%nat]; []].
Proof. reflexivity. Qed.

(* ===================================================================== *)
(** * Priority order *)
(* ===================================================================== *)

Lemma ready_keys_in_dict (now : datetime) (s : Scheduler.Scheduler) (k : nat) :
  In k (map fst (Scheduler.ready_tasks now s)) -> dict_get k (Scheduler._tasks s) <> None.
Proof.
  intro Hin. apply in_map_iff in Hin. destruct Hin as ([k' t] & Hk & Hin).
  simpl in Hk. subst k'. unfold Scheduler.ready_tasks in Hin.
  apply (Permutation_in _ (sort_tasks_perm _)) in Hin.
  apply filter_In in Hin. destruct Hin as [Hin _].
  eapply dict_get_of_in. exact Hin.
Qed.

(** The tasks run in a tick are the sorted snapshot, up to the stop
    signal. *)
Lemma tick_ran (env : tick_env) (now : datetime) (s : Scheduler.Scheduler)
    (ran : list nat) (rest : datetime * Scheduler.Scheduler) :
  Scheduler.tick env now s = Some (ran, rest) ->
  ran = match halt_after env with
        | Some n => firstn n (map fst (Scheduler.ready_tasks now s))
        | None => map fst (Scheduler.ready_tasks now s)
        end.
Proof.
  unfold Scheduler.tick.
  set (batch := match halt_after env with
                | Some n => firstn n (map fst (Scheduler.ready_tasks now s))
                | None => map fst (Scheduler.ready_tasks now s)
                end).
  destruct (Scheduler.run_batch (scripts env) batch now (Scheduler._tasks s))
    as [[ran' [now1 d1]]|] eqn:Hbatch; [|discriminate].
  intro H. inversion H; subst ran'. clear H.
  eapply run_batch_ran; [|exact Hbatch].
  intros k Hin. apply (ready_keys_in_dict now s). subst batch.
  destruct (halt_after env) as [n|]; [|exact Hin].
  rewrite <- (firstn_skipn n). apply in_or_app. left. exact Hin.
Qed.

(* ===================================================================== *)
(** * When [run] returns *)
(* ===================================================================== *)

Lemma apply_control_stays_awake (c : control) (st : state) :
  not_pause c = true ->
  _pause_event (snd st) = true ->
  _pause_event (snd (apply_control c st)) = true.
Proof.
  destruct st as [now t]. destruct c; try discriminate; intros _ Hp; simpl in *.
  - unfold resume. destruct (status_eqb (status t) STOPPED); simpl; [exact Hp|].
    destruct (status_eqb (status t) PAUSED); simpl; [|reflexivity].
    destruct (interval t); reflexivity.
  - reflexivity.
  - unfold reset.
    match goal with |- context [_update_next_run_time now ?x] => set (t1 := x) end.
    destruct (update_next_run_time_frame t1 now) as (_ & _ & _ & _ & _ & _ & H & _).
    rewrite H. reflexivity.
  - exact Hp.
Qed.

Lemma apply_controls_stays_awake (cs : list control) (st : state) :
  forallb not_pause cs = true ->
  _pause_event (snd st) = true ->
  _pause_event (snd (apply_controls cs st)) = true.
Proof.
  revert st. induction cs as [|c rest IH]; intros st Hall Hp; simpl; [exact Hp|].
  simpl in Hall. apply andb_true_iff in Hall. destruct Hall as [Hc Hrest].
  apply IH; [exact Hrest|]. apply apply_control_stays_awake; assumption.
Qed.

Lemma check_interrupt_awake (wakes : list control) (st : state) :
  _pause_event (snd st) = true ->
  exists go, _check_interrupt wakes st = Some (go, wakes, st).
Proof.
  intro Hp. unfold _check_interrupt. rewrite Hp.
  destruct (_stop_event (snd st)); eexists; reflexivity.
Qed.

Lemma exec_steps_awake (steps : list step) (wakes : list control) (st : state) :
  forallb (step_allows not_pause) steps = true ->
  _pause_event (snd st) = true ->
  exists st', exec_steps steps wakes st = Some (wakes, st')
              /\ _pause_event (snd st') = true.
Proof.
  revert st. induction steps as [|x rest IH]; intros st Hall Hp; simpl.
  - exists st. split; [reflexivity|exact Hp].
  - simpl in Hall. apply andb_true_iff in Hall. destruct Hall as [Hx Hrest].
    destruct x as [c|].
    + apply IH; [exact Hrest|]. apply apply_control_stays_awake; assumption.
    + unfold poll. destruct (check_interrupt_awake wakes st Hp) as [go Hci].
      rewrite Hci. destruct (supports_interrupt (snd st)); apply IH; assumption.
Qed.

(** With no pause request around it, [run] returns. *)
Lemma run_returns_unless_paused (s : script) (st : state) :
  script_allows not_pause s = true ->
  _pause_event (snd st) = true ->
  exists b st', run s st = Some (b, st').
Proof.
  intros Hs Hp.
  unfold script_allows in Hs. apply andb_true_iff in Hs. destruct Hs as [Hs _].
  apply andb_true_iff in Hs. destruct Hs as [Hbefore Hbody].
  unfold run, run_path.
  destruct (check_interrupt_awake (wake_ups s) st Hp) as [go1 H1]. rewrite H1.
  destruct go1; [|eexists; eexists; reflexivity].
  pose proof (apply_controls_stays_awake _ _ Hbefore Hp) as Hp2.
  destruct (check_interrupt_awake [] _ Hp2) as [go2 H2]. rewrite H2.
  destruct go2; [|eexists; eexists; reflexivity].
  cbn zeta.
  match goal with
  | |- context [exec_steps _ _ ?st3] =>
      destruct (exec_steps_awake (body_steps s) (wake_ups s) st3 Hbody) as (st4 & H4 & Hp4);
        [exact Hp2|]
  end.
  rewrite H4. destruct (body_raises s); [eexists; eexists; reflexivity|].
  destruct (check_interrupt_awake (wake_ups s) st4 Hp4) as [go5 H5]. rewrite H5.
  destruct go5; [|eexists; eexists; reflexivity].
  destruct (negb (_check_execution_time (fst st4) (snd st4)));
    eexists; eexists; reflexivity.
Qed.

(** A pause request that nobody lifts holds [run] for ever; taken between
    the first check and the lock, it does so even if [resume] is called
    later, since [resume] waits for the lock. *)
Example run_sleeps_on_pause :
  run {| before_lock := []; body_steps := [Meanwhile CallPause]; body_raises := false;
         wake_ups := [] |} (at_ 0 12 0, sample_task) = None
  /\ run {| before_lock := [CallPause]; body_steps := []; body_raises := false;
            wake_ups := [CallResume] |} (at_ 0 12 0, sample_task) = None.
Proof. split; reflexivity. Qed.

(** A pause during the body that [resume] lifts lets the cycle complete. *)
Example run_completes_after_resume :
  option_map (fun r => (fst r, status (snd (snd r))))
    (run {| before_lock := []; body_steps := [Meanwhile CallPause]; body_raises := false;
            wake_ups := [Elapse (seconds 2); CallResume] |} (at_ 0 12 0, sample_task))
  = Some (true, COMPLETED).
Proof. reflexivity. Qed.

(** A pause during the body that [stop] ends: [run] returns False and the
    task is STOPPED, with [last_run] and [next_run] as they were. *)
Example run_aborts_when_stopped_while_paused :
  option_map
    (fun r => (fst r, status (snd (snd r)), last_run (snd (snd r)), next_run (snd (snd r))))
    (run {| before_lock := []; body_steps := [Meanwhile CallPause]; body_raises := false;
            wake_ups := [Elapse (seconds 2); CallStop] |} (at_ 0 12 0, sample_task))
  = Some (false, STOPPED, None, Some (at_ 0 12 0)).
Proof. reflexivity. Qed.

(* ===================================================================== *)
(** * More on the time-window calculus *)
(* ===================================================================== *)

Lemma time_of_shift (t n : Z) : time_of (t + days n) = time_of t.
Proof. unfold time_of, days. apply Z.mod_add. unfold day_us. lia. Qed.

Lemma date_shift (t n : Z) : date (t + days n) = date t + n.
Proof. unfold date, days. apply Z.div_add. unfold day_us. lia. Qed.

Lemma time_of_combine_any (day : Z) (x : dtime) : time_of (combine day x) = micros x.
Proof.
  pose proof (micros_range x) as Hx. apply andb_true_iff in Hx.
  destruct Hx as [H0 H1]. apply Z.leb_le in H0. apply Z.ltb_lt in H1.
  unfold time_of, combine.
  rewrite Z.add_comm, Z.mod_add, Z.mod_small; unfold day_us in *; lia.
Qed.

(** X1.  A window recurs every day: shifting an instant by whole days
    does not change whether it is inside, and shifts the next window start
    by as many days. *)
Theorem windows_recur_daily (w : TimeWindow) (t n : Z) :
  is_in_window w (t + days n) = is_in_window w t
  /\ next_window_start w (t + days n) = next_window_start w t + days n.
Proof.
  unfold is_in_window, next_window_start, combine.
  rewrite time_of_shift, date_shift. split; [reflexivity|].
  repeat match goal with
         | |- context [if ?b then _ else _] => destruct b
         end; unfold days; lia.
Qed.

(** X2.  [next_window_start] is idempotent and monotone. *)
Theorem next_window_start_monotone (w : TimeWindow) (t : datetime) :
  next_window_start w (next_window_start w t) = next_window_start w t
  /\ (forall u, t <= u -> next_window_start w t <= next_window_start w u).
Proof.
  split.
  - apply next_window_start_fixed. apply next_window_start_inside.
  - intros u Htu. apply next_window_start_least.
    + pose proof (next_window_start_ge w u). lia.
    + apply next_window_start_inside.
Qed.

(** X3.  On every day a window contains its start and its end; when the
    two differ, the window and the window with the times exchanged cover
    every instant between them. *)
Theorem window_ends_and_reverse (w : TimeWindow) (day : Z) (t : datetime) :
  is_in_window w (combine day (start_time w)) = true
  /\ is_in_window w (combine day (end_time w)) = true
  /\ (micros (start_time w) <> micros (end_time w) ->
      is_in_window w t || is_in_window (reversed w) t = true).
Proof.
  unfold is_in_window, reversed. rewrite !time_of_combine_any. cbn [start_time end_time].
  split; [|split; [|intro Hne]];
    repeat match goal with
           | |- context [?a <=? ?b] => destruct (Z.leb_spec a b)
           end; simpl; try reflexivity; lia.
Qed.

(** X4.  [_get_next_window_start]: nothing for a task without windows
    (which is then always in its window); otherwise an instant from now on,
    less than a day away, inside one of the windows, and equal to now
    exactly when the task is in one of its windows now. *)
Theorem get_next_window_start_spec (now : datetime) (t : Task) :
  (time_windows t = [] ->
   _get_next_window_start now t = None /\ _is_in_time_window now t = true)
  /\ (time_windows t <> [] ->
      exists r,
        _get_next_window_start now t = Some r
        /\ now <= r < now + day_us
        /\ any_in_window (time_windows t) r = true
        /\ (r = now <-> _is_in_time_window now t = true)).
Proof.
  unfold _get_next_window_start, _is_in_time_window. split.
  - intros ->. split; reflexivity.
  - destruct (time_windows t) as [|w ws]; [congruence|]. intros _.
    exists (min_next_window_start w ws now). split; [reflexivity|].
    destruct (min_next_window_start_attained w ws now) as (w' & Hin & Heq).
    pose proof (next_window_start_ge w' now) as Hge.
    pose proof (next_window_start_within_a_day w' now) as Hlt.
    split; [lia|]. split; [apply min_next_window_start_inside|].
    split.
    + intro Hnow. rewrite <- Hnow. apply min_next_window_start_inside.
    + intro Hany. apply existsb_exists in Hany. destruct Hany as (w0 & Hin0 & Hw0).
      pose proof (min_next_window_start_le w ws now w0 Hin0) as Hle.
      rewrite (next_window_start_fixed w0 now Hw0) in Hle. lia.
Qed.

(* ===================================================================== *)
(** * More on the next run *)
(* ===================================================================== *)

(** With an interval, the next run is an instant from the base on, less
    than a day after it, and the base itself when the base is in a window or
    no window is configured. *)
Lemma update_next_run_time_cases (now : datetime) (t : Task) (every : timedelta) :
  interval t = Some every ->
  exists r,
    next_run (_update_next_run_time now t) = Some r
    /\ base_next_run now every t <= r < base_next_run now every t + day_us
    /\ (_is_in_time_window (base_next_run now every t) t = true ->
        r = base_next_run now every t).
Proof.
  intro Hi. unfold _update_next_run_time, _is_in_time_window. rewrite Hi.
  destruct (time_windows t) as [|w ws].
  - eexists. split; [reflexivity|]. unfold day_us. split; [lia | reflexivity].
  - eexists. split; [reflexivity|]. rewrite window_loop_one_step.
    destruct (any_in_window (w :: ws) (base_next_run now every t)) eqn:Hany.
    + unfold day_us. split; [lia | reflexivity].
    + destruct (min_next_window_start_attained w ws (base_next_run now every t))
        as (w' & _ & ->).
      pose proof (next_window_start_ge w' (base_next_run now every t)).
      pose proof (next_window_start_within_a_day w' (base_next_run now every t)).
      split; [lia | discriminate].
Qed.

(** X5.  [_update_next_run_time]: without an interval the next run is
    now; with one it is an instant from the base on, less than a day after
    it, and the base itself when the base is in a window or no window is
    configured.  Doing it twice at the same clock is doing it once. *)
Theorem update_next_run_time_spec (now : datetime) (t : Task) :
  (interval t = None -> next_run (_update_next_run_time now t) = Some now)
  /\ (forall every, interval t = Some every ->
        exists r,
          next_run (_update_next_run_time now t) = Some r
          /\ base_next_run now every t <= r < base_next_run now every t + day_us
          /\ (_is_in_time_window (base_next_run now every t) t = true ->
              r = base_next_run now every t))
  /\ _update_next_run_time now (_update_next_run_time now t) = _update_next_run_time now t.
Proof.
  split; [|split].
  - intro Hi. unfold _update_next_run_time. rewrite Hi. reflexivity.
  - intros every Hi. unfold _update_next_run_time, _is_in_time_window. rewrite Hi.
    destruct (time_windows t) as [|w ws].
    + eexists. split; [reflexivity|]. unfold day_us. split; [lia | reflexivity].
    + eexists. split; [reflexivity|]. rewrite window_loop_one_step.
      destruct (any_in_window (w :: ws) (base_next_run now every t)) eqn:Hany.
      * unfold day_us. split; [lia | reflexivity].
      * destruct (min_next_window_start_attained w ws (base_next_run now every t))
          as (w' & _ & ->).
        pose proof (next_window_start_ge w' (base_next_run now every t)).
        pose proof (next_window_start_within_a_day w' (base_next_run now every t)).
        split; [lia | discriminate].
  - destruct t. unfold _update_next_run_time, base_next_run. simpl.
    destruct interval0; [destruct time_windows0|]; reflexivity.
Qed.

Lemma same_setup_refl (t : Task) : same_setup t t.
Proof. repeat split. Qed.

Lemma same_setup_trans (t1 t2 t3 : Task) :
  same_setup t1 t2 -> same_setup t2 t3 -> same_setup t1 t3.
Proof.
  unfold same_setup. intros H1 H2.
  repeat match goal with H : _ /\ _ |- _ => destruct H end.
  repeat split; congruence.
Qed.

Lemma update_next_run_time_same_setup (now : datetime) (t : Task) :
  same_setup t (_update_next_run_time now t).
Proof.
  unfold _update_next_run_time.
  destruct (interval t) eqn:Hi; [destruct (time_windows t) eqn:Hw|];
    repeat split; simpl; congruence.
Qed.

Lemma apply_control_same_setup (c : control) (st : state) :
  same_setup (snd st) (snd (apply_control c st)).
Proof.
  destruct st as [now t]. destruct c; simpl.
  - unfold pause. destruct (status_eqb (status t) STOPPED); simpl; [apply same_setup_refl|].
    destruct (negb (status_eqb (status t) RUNNING)); repeat split.
  - unfold resume. destruct (status_eqb (status t) STOPPED); simpl; [apply same_setup_refl|].
    destruct (status_eqb (status t) PAUSED); simpl; [|repeat split].
    destruct (interval t); repeat split.
  - repeat split.
  - unfold reset.
    eapply same_setup_trans; [|apply update_next_run_time_same_setup]. repeat split.
  - apply same_setup_refl.
Qed.

(* ===================================================================== *)
(** * More on [run] *)
(* ===================================================================== *)

(** X6.  Whatever the other contexts do, [run] leaves the task configured
    as it was; and when it returns True, the body did not raise, the status
    is COMPLETED, the execution-start marker is cleared, [last_run] is the
    time of return, and [next_run] is set. *)
Theorem run_keeps_setup (s : script) (st st' : state) (b : bool) :
  run s st = Some (b, st') ->
  same_setup (snd st) (snd st')
  /\ (b = true ->
      body_raises s = false
      /\ status (snd st') = COMPLETED
      /\ _execution_start_time (snd st') = None
      /\ last_run (snd st') = Some (fst st')
      /\ exists r, next_run (snd st') = Some r).
Proof.
  unfold run. destruct (run_path s st) as [[p st1]|] eqn:Hrun; [|discriminate].
  intro H. inversion H; subst. clear H.
  destruct (run_path_frame (fun _ => true) same_setup) with
    (s := s) (st := st) (st' := st') (p := p) as (st0 & Hsame & Hfin & _ & Hok).
  - apply same_setup_refl.
  - apply same_setup_trans.
  - intros; repeat split.
  - intros; repeat split.
  - intros c st1 _. apply apply_control_same_setup.
  - apply script_allows_all.
  - exact Hrun.
  - destruct st0 as [now0 t0]. split.
    + eapply same_setup_trans; [exact Hsame|]. subst st'.
      destruct p; simpl; try apply same_setup_refl.
      * match goal with |- context [_update_next_run_time now0 ?x] => set (t1 := x) end.
        apply same_setup_trans with (t2 := t1); [subst t1; repeat split|].
        eapply same_setup_trans; [apply update_next_run_time_same_setup|].
        repeat split.
      * repeat split.
    + intro Hb. destruct p; try discriminate. subst st'.
      split; [apply Hok; left; reflexivity|].
      unfold finish, on_completed. cbn [fst snd].
      match goal with |- context [_update_next_run_time now0 ?x] => set (t1 := x) end.
      destruct (update_next_run_time_frame t1 now0)
        as (_ & _ & Hs & Hl & _ & _ & _ & Hm & _).
      simpl. rewrite Hs, Hl, Hm. subst t1. simpl.
      repeat split.
      unfold _update_next_run_time.
      destruct (interval _); [destruct (time_windows _)|]; eexists; reflexivity.
Qed.

Lemma run_keeps_setup_witness :
  same_setup sample_task
    (snd (on_completed (at_ 0 12 0, begin_running (at_ 0 12 0) sample_task))).
Proof.
  exact (proj1 (run_keeps_setup quiet_script (at_ 0 12 0, sample_task)
                  (on_completed (at_ 0 12 0, begin_running (at_ 0 12 0) sample_task))
                  true eq_refl)).
Defined.

(** The cycle of a body that returns within the limit, in quiet
    surroundings and with callbacks that return. *)
Lemma calm_quiet_cycle (s : script) (now : datetime) (t : Task) :
  quiet s = true ->
  body_raises s = false ->
  _stop_event t = false ->
  _pause_event t = true ->
  (forall limit, max_running_time t = Some limit ->
     limit = 0 \/ body_duration (body_steps s) <= limit) ->
  let ended := now + duration (before_lock s) + body_duration (body_steps s) in
  exists t',
    run s (now, t) = Some (true, (ended, t'))
    /\ status t' = COMPLETED
    /\ last_run t' = Some ended
    /\ error_count t' = error_count t
    /\ log t' = log t
                ++ (Transition (status t) RUNNING
                    :: map (fun cb => StatusChangeCall cb (status t) RUNNING)
                           (_on_status_change_callbacks t))
                ++ (Transition RUNNING COMPLETED
                    :: map (fun cb => StatusChangeCall cb RUNNING COMPLETED)
                           (_on_status_change_callbacks t))
                ++ map SuccessCall (_on_success_callbacks t)
    /\ (forall every, interval t = Some every ->
          exists r,
            next_run t' = Some r
            /\ ended + every <= r
            /\ (time_windows t = [] -> r = ended + every)
            /\ (forall clock, clock < r -> is_ready clock t' = false)).
Proof.
  intros Hq Hraise Hstop Hpause Hlimit ended.
  pose (started := now + duration (before_lock s)).
  assert (Hended : ended = started + body_duration (body_steps s)) by reflexivity.
  assert (Hcheck : _check_execution_time ended (begin_running started t) = true).
  { unfold _check_execution_time. simpl.
    destruct (max_running_time t) as [limit|] eqn:Hmax; [|reflexivity].
    destruct (Hlimit limit eq_refl) as [->|Hle]; [reflexivity|].
    destruct (Z.ltb_spec limit (ended - started)); [lia|].
    rewrite andb_false_r. reflexivity. }
  exists (snd (on_completed (ended, begin_running started t))).
  split.
  { unfold run. rewrite (run_path_quiet s now t Hq Hstop Hpause). cbn zeta.
    change (now + duration (before_lock s)) with started.
    change (started + body_duration (body_steps s)) with ended.
    rewrite Hraise, Hcheck. reflexivity. }
  unfold on_completed. cbn [snd].
  match goal with |- context [_update_next_run_time ended ?x] => set (t1 := x) end.
  destruct (update_next_run_time_frame t1 ended)
    as (_ & Hw & Hs & Hl & He & _ & _ & _ & Hlog).
  destruct (update_next_run_time_same_setup ended t1)
    as (_ & _ & _ & _ & _ & _ & _ & _ & Hcb & _).
  simpl. rewrite Hs, Hl, He, Hlog, Hcb. subst t1. simpl.
  split; [reflexivity|]. split; [reflexivity|]. split; [reflexivity|].
  split; [rewrite <- !app_assoc; reflexivity|].
  intros every Hevery.
  match goal with |- context [_update_next_run_time ended ?x] => set (t1 := x) end.
  assert (Hi1 : interval t1 = Some every) by (subst t1; simpl; exact Hevery).
  destruct (update_next_run_time_cases ended t1 every Hi1) as (r & Hr & Hrange & Hbase).
  assert (Hb : base_next_run ended every t1 = ended + every) by reflexivity.
  rewrite Hb in *.
  exists r. split; [exact Hr|]. split; [lia|]. split.
  - intro Hnow. apply Hbase. unfold _is_in_time_window. subst t1. simpl.
    rewrite Hnow. reflexivity.
  - intros clock Hclock. unfold is_ready. simpl. rewrite Hr.
    destruct (Z.leb_spec r clock); [lia|]. rewrite andb_false_r. reflexivity.
Qed.

(** X8.  A cycle whose body raises leaves the task due: [next_run] is not
    moved, so from its due time on the task is ready whenever it is in its
    windows, and the next tick tries it again. *)
Theorem failed_task_stays_due
    (s : script) (now : datetime) (t : Task) (due clock : datetime) :
  quiet s = true ->
  body_raises s = true ->
  _stop_event t = false ->
  _pause_event t = true ->
  next_run t = Some due ->
  due <= clock ->
  _is_in_time_window clock t = true ->
  exists now' t',
    run s (now, t) = Some (false, (now', t'))
    /\ status t' = FAILED
    /\ next_run t' = Some due
    /\ is_ready clock t' = true.
Proof.
  intros Hq Hraise Hstop Hpause Hdue Hle Hwin.
  eexists. eexists. split.
  { unfold run. rewrite (run_path_quiet s now t Hq Hstop Hpause). rewrite Hraise.
    unfold on_failed. reflexivity. }
  split; [reflexivity|]. split; [exact Hdue|].
  unfold is_ready, _is_in_time_window in *. simpl. rewrite Hdue.
  destruct (Z.leb_spec due clock); [|lia]. simpl. exact Hwin.
Qed.

Lemma failed_task_stays_due_witness :
  exists now' t',
    run raising_script (at_ 0 12 0, sample_task) = Some (false, (now', t'))
    /\ status t' = FAILED
    /\ next_run t' = Some (at_ 0 12 0)
    /\ is_ready (at_ 0 12 1) t' = true.
Proof.
  assert (H : at_ 0 12 0 <= at_ 0 12 1) by (vm_compute; discriminate).
  exact (failed_task_stays_due raising_script (at_ 0 12 0) sample_task (at_ 0 12 0)
           (at_ 0 12 1) eq_refl eq_refl eq_refl eq_refl eq_refl H eq_refl).
Defined.



Lemma wait_pause_post (wakes wakes' : list control) (st st' : state) :
  wait_pause wakes st = Some (wakes', st') ->
  _pause_event (snd st') = true /\ exists used, wakes = used ++ wakes'.
Proof.
  revert st. induction wakes as [|c rest IH]; intros st Hw; simpl in Hw.
  - destruct (_pause_event (snd st)) eqn:Hp; [|discriminate].
    inversion Hw; subst. split; [exact Hp | exists []; reflexivity].
  - destruct (_pause_event (snd st)) eqn:Hp.
    + inversion Hw; subst. split; [exact Hp | exists []; reflexivity].
    + destruct (IH _ Hw) as [Hp' [used Hused]].
      split; [exact Hp' | exists (c :: used); rewrite Hused; reflexivity].
Qed.

(** X10.  [_check_interrupt] returns False exactly when it leaves the stop
    event set, and returns True only with the pause event set; it uses up a
    prefix of what the other contexts do, and with neither event pending it
    changes nothing. *)
Theorem check_interrupt_post
    (wakes wakes' : list control) (st st' : state) (go : bool) :
  _check_interrupt wakes st = Some (go, wakes', st') ->
  go = negb (_stop_event (snd st'))
  /\ (go = true -> _pause_event (snd st') = true)
  /\ (exists used, wakes = used ++ wakes')
  /\ (_stop_event (snd st) = false -> _pause_event (snd st) = true ->
      go = true /\ wakes' = wakes /\ st' = st).
Proof.
  unfold _check_interrupt.
  destruct (_stop_event (snd st)) eqn:Hstop.
  { intro H; inversion H; subst. rewrite Hstop.
    split; [reflexivity|]. split; [discriminate|].
    split; [exists []; reflexivity | discriminate]. }
  destruct (_pause_event (snd st)) eqn:Hpause; simpl.
  { intro H; inversion H; subst. rewrite Hstop.
    split; [reflexivity|]. split; [intros _; exact Hpause|].
    split; [exists []; reflexivity|]. intros _ _. repeat split. }
  destruct (wait_pause wakes (fst st, _update_status PAUSED (snd st)))
    as [[wakes1 st1]|] eqn:Hw; [|discriminate].
  destruct (wait_pause_post _ _ _ _ Hw) as [Hp1 Hused].
  destruct (_stop_event (snd st1)) eqn:Hstop1; intro H; inversion H; subst.
  - rewrite Hstop1. split; [reflexivity|]. split; [discriminate|].
    split; [exact Hused | discriminate].
  - simpl. rewrite Hstop1. split; [reflexivity|]. split; [intros _; exact Hp1|].
    split; [exact Hused | discriminate].
Qed.

Lemma check_interrupt_post_witness :
  true = negb (_stop_event sample_task).
Proof.
  exact (proj1 (check_interrupt_post [] [] (at_ 0 12 0, sample_task)
                  (at_ 0 12 0, sample_task) true eq_refl)).
Defined.

(* ===================================================================== *)
(** * More on the control calls *)
(* ===================================================================== *)

(** X12.  On a RUNNING task with no pause pending, [pause] followed by
    [resume] gives back the task exactly as it was; and [resume] on a task
    that is neither PAUSED nor STOPPED changes nothing but the pause
    event: the status, [next_run] and the log stay. *)
Theorem pause_resume_round_trip (t : Task) (now : datetime) :
  (status t = RUNNING -> _pause_event t = true ->
   exists t1, pause t = Ok t1 /\ resume now t1 = Ok t)
  /\ (status t <> PAUSED -> status t <> STOPPED ->
      resume now t = Ok (set_pause_event true t)).
Proof.
  split.
  - intros Hst Hp. destruct t. simpl in *. subst.
    eexists. split; reflexivity.
  - intros Hp Hs. unfold resume. simpl.
    destruct (status t); try congruence; reflexivity.
Qed.

(** X14.  The limit on the running time: no limit, a limit of zero, or no
    execution-start marker never trips it; otherwise it trips exactly when
    more than the limit has elapsed since the marker, and once tripped it
    stays tripped as the clock advances. *)
Theorem execution_time_limit (now : datetime) (t : Task) :
  (max_running_time t = None \/ max_running_time t = Some 0
   \/ _execution_start_time t = None ->
   _check_execution_time now t = true)
  /\ (forall limit started,
        max_running_time t = Some limit -> limit <> 0 ->
        _execution_start_time t = Some started ->
        (_check_execution_time now t = false <-> limit < now - started))
  /\ (forall later, now <= later ->
        _check_execution_time now t = false -> _check_execution_time later t = false).
Proof.
  unfold _check_execution_time. split; [|split].
  - intros [H|[H|H]]; rewrite H; [reflexivity | |].
    + destruct (_execution_start_time t); reflexivity.
    + destruct (max_running_time t); reflexivity.
  - intros limit started -> Hnz ->.
    destruct (Z.eqb_spec limit 0); [contradiction|]. simpl.
    destruct (Z.ltb_spec limit (now - started)); split; intro; try lia;
      try reflexivity; discriminate.
  - intros later Hle.
    destruct (max_running_time t) as [limit|]; [|discriminate].
    destruct (_execution_start_time t) as [started|]; [|discriminate].
    destruct (Z.eqb_spec limit 0); simpl; [discriminate|].
    destruct (Z.ltb_spec limit (now - started)); [|discriminate].
    destruct (Z.ltb_spec limit (later - started)); [reflexivity | lia].
Qed.

(* ===================================================================== *)
(** * More on the order of the tasks *)
(* ===================================================================== *)

(** X15.  [__lt__] is a strict order on tasks that ranks by priority:
    irreflexive, asymmetric and transitive, and two tasks neither of which
    is below the other have the same priority. *)
Theorem task_lt_strict_order (a b c : Task) :
  task_lt a a = false
  /\ (task_lt a b = true -> task_lt b a = false)
  /\ (task_lt a b = true -> task_lt b c = true -> task_lt a c = true)
  /\ (task_lt a b = false -> task_lt b a = false -> priority a = priority b).
Proof.
  unfold task_lt. repeat split.
  - apply Z.ltb_irrefl.
  - rewrite Z.ltb_lt, Z.ltb_ge. lia.
  - rewrite !Z.ltb_lt. lia.
  - rewrite !Z.ltb_ge. destruct (priority a), (priority b); simpl; intros; try reflexivity; lia.
Qed.

Lemma insert_task_in_front (x : nat * Task) (l : list (nat * Task)) :
  Forall (runs_before x) l -> insert_task x l = x :: l.
Proof.
  destruct l as [|y rest]; [reflexivity|]. intro Hall. simpl.
  apply Forall_inv in Hall. unfold runs_before, entry_priority in Hall.
  unfold task_lt. destruct (Z.ltb_spec (priority_value (priority (snd x)))
                                       (priority_value (priority (snd y)))); [lia|reflexivity].
Qed.

Lemma sort_tasks_of_sorted (l : list (nat * Task)) :
  StronglySorted runs_before l -> sort_tasks l = l.
Proof.
  induction l as [|x rest IH]; intro Hs; [reflexivity|].
  apply StronglySorted_inv in Hs. destruct Hs as [Hrest Hx].
  simpl. rewrite IH by exact Hrest. apply insert_task_in_front. exact Hx.
Qed.

(** X16.  The sort leaves alone a snapshot that is already in priority
    order, in particular one whose tasks all have the same priority, which
    are then run in the order of registration; sorting twice is sorting
    once. *)
Theorem sort_tasks_keeps_ordered (l : list (nat * Task)) :
  (StronglySorted runs_before l -> sort_tasks l = l)
  /\ (forall p, (forall x, In x l -> priority (snd x) = p) -> sort_tasks l = l)
  /\ sort_tasks (sort_tasks l) = sort_tasks l.
Proof.
  split; [apply sort_tasks_of_sorted|]. split.
  - intros p Hall. apply sort_tasks_of_sorted.
    induction l as [|x rest IH]; constructor.
    + apply IH. intros y Hy. apply Hall. right. exact Hy.
    + apply Forall_forall. intros y Hy. unfold runs_before, entry_priority.
      rewrite (Hall x (or_introl eq_refl)), (Hall y (or_intror Hy)). lia.
  - apply sort_tasks_of_sorted. apply sort_tasks_sorted.
Qed.

(* ===================================================================== *)
(** * The dict of tasks *)
(* ===================================================================== *)

Lemma dict_get_set_same (key : nat) (t : Task) (d : task_dict) :
  dict_get key (dict_set key t d) = Some t.
Proof.
  induction d as [|[k t0] rest IH]; simpl.
  - rewrite Nat.eqb_refl. reflexivity.
  - destruct (Nat.eqb_spec k key) as [->|Hne]; simpl.
    + rewrite Nat.eqb_refl. reflexivity.
    + destruct (Nat.eqb_spec k key); [contradiction | exact IH].
Qed.

Lemma dict_get_none (key : nat) (d : task_dict) :
  dict_get key d = None <-> ~ In key (map fst d).
Proof.
  induction d as [|[k t0] rest IH]; simpl.
  - split; [intros _ [] | reflexivity].
  - destruct (Nat.eqb_spec k key) as [->|Hne].
    + split; [discriminate | intro H; exfalso; apply H; left; reflexivity].
    + rewrite IH. split; [intros H [Hk|Hin]; [contradiction | exact (H Hin)]|].
      intros H Hin. apply H. right. exact Hin.
Qed.

Lemma dict_set_present (key : nat) (t : Task) (d : task_dict) :
  dict_get key d <> None -> map fst (dict_set key t d) = map fst d.
Proof.
  induction d as [|[k t0] rest IH]; simpl; [congruence|].
  destruct (Nat.eqb_spec k key); simpl; [reflexivity|].
  intro H. rewrite IH by exact H. reflexivity.
Qed.

Lemma dict_set_absent (key : nat) (t : Task) (d : task_dict) :
  dict_get key d = None -> dict_set key t d = d ++ [(key, t)].
Proof.
  induction d as [|[k t0] rest IH]; simpl; [reflexivity|].
  destruct (Nat.eqb_spec k key); [discriminate|].
  intro H. rewrite IH by exact H. reflexivity.
Qed.

Lemma dict_set_well_keyed (key : nat) (t : Task) (d : task_dict) :
  well_keyed d -> well_keyed (dict_set key t d).
Proof.
  unfold well_keyed. intro Hnd.
  destruct (dict_get key d) as [t0|] eqn:Hget.
  - rewrite dict_set_present by congruence. exact Hnd.
  - rewrite dict_set_absent by exact Hget. rewrite map_app. simpl.
    apply (Permutation_NoDup (l := key :: map fst d)).
    + apply Permutation_cons_append.
    + constructor; [apply dict_get_none; exact Hget | exact Hnd].
Qed.




(** X17.  [add_task] then [get_task]: the task is found under its own id,
    which [add_task] returns; the other ids are found as before; the keys
    stay distinct; a task whose id is already there takes the place of the
    one that was, and a new one goes last. *)
Theorem add_task_then_get (t : Task) (s : Scheduler.Scheduler) :
  Scheduler.get_task (task_id t) (fst (Scheduler.add_task t s)) = Some t
  /\ snd (Scheduler.add_task t s) = task_id t
  /\ (forall key, key <> task_id t ->
        Scheduler.get_task key (fst (Scheduler.add_task t s)) = Scheduler.get_task key s)
  /\ (well_keyed (Scheduler._tasks s) ->
      well_keyed (Scheduler._tasks (fst (Scheduler.add_task t s))))
  /\ (Scheduler.get_task (task_id t) s <> None ->
      map fst (Scheduler._tasks (fst (Scheduler.add_task t s)))
      = map fst (Scheduler._tasks s))
  /\ (Scheduler.get_task (task_id t) s = None ->
      Scheduler._tasks (fst (Scheduler.add_task t s))
      = Scheduler._tasks s ++ [(task_id t, t)]).
Proof.
  unfold Scheduler.get_task, Scheduler.add_task. simpl.
  split; [apply dict_get_set_same|]. split; [reflexivity|].
  split; [intros key Hne; apply dict_get_set_other; exact Hne|].
  split; [apply dict_set_well_keyed|].
  split; [apply dict_set_present | apply dict_set_absent].
Qed.


(* ===================================================================== *)
(** * More on the dispatch loop *)
(* ===================================================================== *)

Lemma run_batch_keys (how : nat -> script) (keys ran : list nat) (now now' : datetime)
    (d d' : task_dict) :
  Scheduler.run_batch how keys now d = Some (ran, (now', d')) ->
  map fst d' = map fst d.
Proof.
  revert now d ran. induction keys as [|k rest IH]; intros now d ran Hrun; simpl in Hrun.
  - inversion Hrun; reflexivity.
  - destruct (dict_get k d) as [tk|] eqn:Hget; [|eapply IH; exact Hrun].
    destruct (run (how k) (now, tk)) as [[b [now1 t1]]|]; [|discriminate].
    destruct (Scheduler.run_batch how rest now1 (dict_set k t1 d))
      as [[ran1 [now2 d2]]|] eqn:Hrest; [|discriminate].
    inversion Hrun; subst.
    rewrite (IH _ _ _ Hrest). apply dict_set_present. congruence.
Qed.

Lemma tick_keys (env : tick_env) (now : datetime) (s : Scheduler.Scheduler)
    (ran : list nat) (rest : datetime * Scheduler.Scheduler) :
  Scheduler.tick env now s = Some (ran, rest) ->
  map fst (Scheduler._tasks (snd rest)) = map fst (Scheduler._tasks s).
Proof.
  unfold Scheduler.tick.
  match goal with
  | |- context [Scheduler.run_batch ?h ?b ?n ?d] =>
      destruct (Scheduler.run_batch h b n d) as [[ran' [now1 d1]]|] eqn:Hbatch;
        [|discriminate]
  end.
  intro H. inversion H; subst. clear H.
  apply run_batch_keys in Hbatch.
  destruct (halt_after env); simpl; exact Hbatch.
Qed.

Lemma filter_keys_distinct (f : nat * Task -> bool) (d : task_dict) :
  well_keyed d -> well_keyed (filter f d).
Proof.
  unfold well_keyed. induction d as [|x rest IH]; simpl; intro Hnd; [constructor|].
  inversion Hnd as [|? ? Hnotin Hrest]; subst.
  destruct (f x); simpl; [|apply IH; exact Hrest].
  constructor; [|apply IH; exact Hrest].
  intro Hin. apply Hnotin. apply in_map_iff in Hin. destruct Hin as (y & Hy & Hin).
  apply filter_In in Hin. apply in_map_iff. exists y. split; [exact Hy | apply Hin].
Qed.

Lemma firstn_distinct (n : nat) (l : list nat) : NoDup l -> NoDup (firstn n l).
Proof.
  intro Hnd. rewrite <- (firstn_skipn n l) in Hnd.
  eapply NoDup_app_remove_r. exact Hnd.
Qed.

Lemma ready_keys_distinct (now : datetime) (s : Scheduler.Scheduler) :
  well_keyed (Scheduler._tasks s) -> NoDup (map fst (Scheduler.ready_tasks now s)).
Proof.
  intro Hnd. unfold Scheduler.ready_tasks.
  apply (Permutation_NoDup
           (l := map fst (filter (fun kt => is_ready now (snd kt)) (Scheduler._tasks s)))).
  - apply Permutation_map. symmetry. apply sort_tasks_perm.
  - apply filter_keys_distinct. exact Hnd.
Qed.

(** X19.  The dispatch loop neither adds nor removes nor reorders the
    entries of the dict; with distinct keys no task is run twice in one
    tick; and a task that is run is a task of the dict. *)
Theorem dispatch_keeps_keys (ticks : list tick_env) (now : datetime)
    (s : Scheduler.Scheduler) (batches : list (list nat))
    (final : datetime * Scheduler.Scheduler) :
  Scheduler._run ticks now s = Some (batches, final) ->
  map fst (Scheduler._tasks (snd final)) = map fst (Scheduler._tasks s)
  /\ (well_keyed (Scheduler._tasks s) -> forall batch, In batch batches -> NoDup batch)
  /\ (forall batch key, In batch batches -> In key batch ->
        In key (map fst (Scheduler._tasks s))).
Proof.
  revert now s batches final.
  induction ticks as [|env rest IH]; intros now s batches final Hrun; simpl in Hrun.
  - inversion Hrun; subst. split; [reflexivity|]. split; [intros _ b []|intros b k []].
  - destruct (Scheduler._stop_event s).
    { inversion Hrun; subst. split; [reflexivity|]. split; [intros _ b []|intros b k []]. }
    destruct (Scheduler.tick env now s) as [[ran [now1 s1]]|] eqn:Htick; [|discriminate].
    destruct (Scheduler._run rest now1 s1) as [[batches1 final1]|] eqn:Hrest;
      [|discriminate].
    inversion Hrun; subst.
    pose proof (tick_keys _ _ _ _ _ Htick) as Hkeys. simpl in Hkeys.
    pose proof (tick_ran _ _ _ _ _ Htick) as Hran.
    destruct (IH _ _ _ _ Hrest) as (Hk1 & Hnd1 & Hin1).
    split; [congruence|]. split.
    + intros Hnd b [<-|Hb].
      * rewrite Hran. pose proof (ready_keys_distinct now s Hnd) as Hready.
        destruct (halt_after env); [apply firstn_distinct|]; exact Hready.
      * apply Hnd1; [|exact Hb]. unfold well_keyed in *. rewrite Hkeys. exact Hnd.
    + intros b key [<-|Hb] Hkey.
      * rewrite Hran in Hkey.
        assert (Hin : In key (map fst (Scheduler.ready_tasks now s))).
        { destruct (halt_after env) as [n|]; [|exact Hkey].
          rewrite <- (firstn_skipn n). apply in_or_app. left. exact Hkey. }
        pose proof (ready_keys_in_dict now s key Hin) as Hget.
        destruct (in_dec Nat.eq_dec key (map fst (Scheduler._tasks s))) as [Hyes|Hno];
          [exact Hyes|].
        exfalso. apply Hget. apply dict_get_none. exact Hno.
      * rewrite <- Hkeys. eapply Hin1; eassumption.
Qed.

Lemma dispatch_keeps_keys_witness :
  exists batches final,
    Scheduler._run [quiet_tick; quiet_tick] (at_ 0 12 0) four_tasks = Some (batches, final)
    /\ map fst (Scheduler._tasks (snd final)) = map fst (Scheduler._tasks four_tasks).
Proof.
  eexists. eexists.
  assert (H : Scheduler._run [quiet_tick; quiet_tick] (at_ 0 12 0) four_tasks
              = Some (_, _)) by (vm_compute; reflexivity).
  split; [exact H|].
  exact (proj1 (dispatch_keeps_keys _ _ _ _ _ H)).
Defined.

(** A task that is not ready is passed over by the tick. *)
Lemma tick_leaves_unready (env : tick_env) (now : datetime) (s : Scheduler.Scheduler)
    (ran : list nat) (rest : datetime * Scheduler.Scheduler) (key : nat) (t : Task) :
  Scheduler.tick env now s = Some (ran, rest) ->
  holds key t (Scheduler._tasks s) ->
  is_ready now t = false ->
  ~ In key ran /\ Scheduler.get_task key (snd rest) = Some t.
Proof.
  intros Htick Hd Hnot.
  pose proof (tick_ran _ _ _ _ _ Htick) as Hran.
  assert (Hkey : ~ In key ran).
  { rewrite Hran. intro Hin. apply (not_ready_not_in_batch key t now s Hd Hnot).
    destruct (halt_after env) as [n|]; [|exact Hin].
    rewrite <- (firstn_skipn n). apply in_or_app. left. exact Hin. }
  split; [exact Hkey|].
  unfold Scheduler.tick in Htick. rewrite <- Hran in Htick.
  destruct (Scheduler.run_batch (scripts env) ran now (Scheduler._tasks s))
    as [[ran' [now1 d1]]|] eqn:Hbatch; [|discriminate].
  destruct (run_batch_holds _ _ _ _ _ _ _ _ _ Hkey Hd Hbatch) as [[Hget1 _] _].
  inversion Htick; subst. unfold Scheduler.get_task.
  destruct (halt_after env); simpl; exact Hget1.
Qed.

(** X20.  A tick passes over every task that is not ready at that
    moment (not due yet, out of its windows, or RUNNING, STOPPED or
    CANCELLED): it is not run and it is afterwards as it was. *)
Theorem tick_skips_unready (env : tick_env) (now : datetime) (s : Scheduler.Scheduler)
    (ran : list nat) (rest : datetime * Scheduler.Scheduler) (key : nat) (t : Task) :
  Scheduler.tick env now s = Some (ran, rest) ->
  well_keyed (Scheduler._tasks s) ->
  Scheduler.get_task key s = Some t ->
  is_ready now t = false ->
  ~ In key ran /\ Scheduler.get_task key (snd rest) = Some t.
Proof.
  intros Htick Hnd Hget Hnot.
  pose proof (holds_of_get key t _ Hnd Hget) as Hd.
  pose proof (tick_ran _ _ _ _ _ Htick) as Hran.
  assert (Hkey : ~ In key ran).
  { rewrite Hran. intro Hin. apply (not_ready_not_in_batch key t now s Hd Hnot).
    destruct (halt_after env) as [n|]; [|exact Hin].
    rewrite <- (firstn_skipn n). apply in_or_app. left. exact Hin. }
  split; [exact Hkey|].
  unfold Scheduler.tick in Htick. rewrite <- Hran in Htick.
  destruct (Scheduler.run_batch (scripts env) ran now (Scheduler._tasks s))
    as [[ran' [now1 d1]]|] eqn:Hbatch; [|discriminate].
  destruct (run_batch_holds _ _ _ _ _ _ _ _ _ Hkey Hd Hbatch) as [[Hget1 _] _].
  inversion Htick; subst. unfold Scheduler.get_task.
  destruct (halt_after env); simpl; exact Hget1.
Qed.

Lemma tick_skips_unready_witness :
  exists rest,
    Scheduler.tick quiet_tick (at_ 0 12 1) with_timed_out_task = Some ([1%nat], rest)
    /\ Scheduler.get_task 3 (snd rest) = Some (begin_running (at_ 0 12 0) limited_task).
Proof.
  eexists.
  assert (H : Scheduler.tick quiet_tick (at_ 0 12 1) with_timed_out_task
              = Some ([1%nat], _)) by (vm_compute; reflexivity).
  split; [exact H|].
  assert (Hnd : well_keyed (Scheduler._tasks with_timed_out_task)).
  { unfold well_keyed. simpl. repeat constructor; simpl; intuition discriminate. }
  exact (proj2 (tick_skips_unready _ _ _ _ _ 3%nat _ H Hnd eq_refl eq_refl)).
Defined.

Lemma excluded_not_ready (t : Task) (clock : datetime) :
  is_excluded (status t) = true \/ next_run t = None -> is_ready clock t = false.
Proof.
  unfold is_ready. intros [H|H].
  - destruct (status t); try discriminate; reflexivity.
  - rewrite H. rewrite andb_false_r. reflexivity.
Qed.

(** X21.  A task whose status is RUNNING, STOPPED or CANCELLED, or that
    has no [next_run], is never run by the dispatch loop, however many
    ticks pass, and stays in the dict as it is: stopping a task through its
    handle takes it out of the schedule without removing it. *)
Theorem excluded_task_never_dispatched (ticks : list tick_env) (now : datetime)
    (s : Scheduler.Scheduler) (key : nat) (t : Task)
    (batches : list (list nat)) (final : datetime * Scheduler.Scheduler) :
  is_excluded (status t) = true \/ next_run t = None ->
  well_keyed (Scheduler._tasks s) ->
  Scheduler.get_task key s = Some t ->
  Scheduler._run ticks now s = Some (batches, final) ->
  (forall batch, In batch batches -> ~ In key batch)
  /\ Scheduler.get_task key (snd final) = Some t.
Proof.
  intro Hex. revert now s batches final.
  induction ticks as [|env rest IH]; intros now s batches final Hnd Hget Hrun;
    simpl in Hrun.
  - inversion Hrun; subst. split; [intros b []|exact Hget].
  - destruct (Scheduler._stop_event s).
    { inversion Hrun; subst. split; [intros b []|exact Hget]. }
    destruct (Scheduler.tick env now s) as [[ran [now1 s1]]|] eqn:Htick; [|discriminate].
    destruct (Scheduler._run rest now1 s1) as [[batches1 final1]|] eqn:Hrest;
      [|discriminate].
    inversion Hrun; subst.
    destruct (tick_leaves_unready _ _ _ _ _ key t Htick (holds_of_get key t _ Hnd Hget)
                (excluded_not_ready t now Hex)) as [Hran Hget1].
    pose proof (tick_keys _ _ _ _ _ Htick) as Hkeys. simpl in Hkeys, Hget1.
    assert (Hnd1 : well_keyed (Scheduler._tasks s1))
      by (unfold well_keyed in *; rewrite Hkeys; exact Hnd).
    destruct (IH _ _ _ _ Hnd1 Hget1 Hrest) as [Hbs Hfinal].
    split; [|exact Hfinal].
    intros b [<-|Hb]; [exact Hran | apply Hbs; exact Hb].
Qed.

Lemma excluded_task_never_dispatched_witness :
  exists batches final,
    Scheduler._run [quiet_tick; quiet_tick] (at_ 0 12 1) with_timed_out_task
    = Some (batches, final)
    /\ (forall batch, In batch batches -> ~ In 3%nat batch)
    /\ Scheduler.get_task 3 (snd final) = Some (begin_running (at_ 0 12 0) limited_task).
Proof.
  eexists. eexists.
  assert (H : Scheduler._run [quiet_tick; quiet_tick] (at_ 0 12 1) with_timed_out_task
              = Some (_, _)) by (vm_compute; reflexivity).
  split; [exact H|].
  assert (Hnd : well_keyed (Scheduler._tasks with_timed_out_task)).
  { unfold well_keyed. simpl. repeat constructor; simpl; intuition discriminate. }
  exact (excluded_task_never_dispatched _ _ _ 3%nat
           (begin_running (at_ 0 12 0) limited_task) _ _ (or_introl eq_refl) Hnd
           eq_refl H).
Defined.

(** X22.  [Scheduler.stop] is idempotent and leaves a scheduler that is
    not running, in either mode and whatever went before.  From there
    [start] goes through, keeps the tasks, clears the stop event and leaves
    a scheduler that is running, which refuses a second [start] and a
    change of mode; the mode can be changed once stopped. *)
Theorem scheduler_lifecycle (s : Scheduler.Scheduler) (m : SchedulerMode) :
  Scheduler.is_running (Scheduler.stop s) = false
  /\ Scheduler.stop (Scheduler.stop s) = Scheduler.stop s
  /\ Scheduler.set_mode_checked m (Scheduler.stop s)
     = Ok (Scheduler.set_mode m (Scheduler.stop s))
  /\ exists s' where_,
       Scheduler.start (Scheduler.stop s) = Ok (s', where_)
       /\ where_ = match Scheduler._mode s with
                   | FOREGROUND => Scheduler.InCaller
                   | BACKGROUND => Scheduler.InNewThread
                   end
       /\ Scheduler._tasks s' = Scheduler._tasks s
       /\ Scheduler._stop_event s' = false
       /\ Scheduler.is_running s' = true
       /\ Scheduler.start s' = Raise (RuntimeError "Scheduler is already running")
       /\ Scheduler.set_mode_checked m s'
          = Raise (RuntimeError "Cannot change mode while scheduler is running").
Proof.
  destruct s as [tasks stop_ev thread mode period].
  destruct thread as [[|]|]; destruct mode;
    (split; [reflexivity|]); (split; [reflexivity|]); (split; [reflexivity|]);
    eexists; eexists; (split; [reflexivity|]); repeat split.
Qed.

(** X24.  Registration through the decorator: the task is put in the dict
    under its id, PENDING, and the other ids are found as before.  A task
    that starts at once is due from the moment of registration: it is ready
    at a clock exactly when that clock is not before the registration and
    within its windows. *)
Theorem periodic_registers
    (id : nat) (every : timedelta) (nm : string) (prio : TaskPriority)
    (windows : list TimeWindow) (at_once : bool) (limit : option timedelta)
    (intr : bool) (now : datetime) (s : Scheduler.Scheduler) :
  let registered := Scheduler.periodic id every nm prio windows at_once limit intr now s in
  Scheduler.get_task id (fst registered) = Some (snd registered)
  /\ task_id (snd registered) = id
  /\ status (snd registered) = PENDING
  /\ interval (snd registered) = Some every
  /\ (forall key, key <> id ->
        Scheduler.get_task key (fst registered) = Scheduler.get_task key s)
  /\ (at_once = true ->
      next_run (snd registered) = Some now
      /\ forall clock,
           is_ready clock (snd registered)
           = (now <=? clock) && _is_in_time_window clock (snd registered)).
Proof.
  intro registered. subst registered. unfold Scheduler.periodic. cbn zeta.
  set (task := new_periodic_task id nm every intr prio windows limit now).
  set (task' := if at_once then task else _update_next_run_time now task).
  assert (Hid : task_id task' = id).
  { subst task'. destruct at_once; [reflexivity|].
    destruct (update_next_run_time_same_setup now task) as (H & _). exact H. }
  assert (Hst : status task' = PENDING).
  { subst task'. destruct at_once; [reflexivity|].
    destruct (update_next_run_time_frame task now) as (_ & _ & H & _). exact H. }
  assert (Hint : interval task' = Some every).
  { subst task'. destruct at_once; [reflexivity|].
    destruct (update_next_run_time_frame task now) as (H & _). exact H. }
  cbn [fst snd]. unfold Scheduler.get_task, Scheduler.add_task. cbn [fst snd].
  simpl Scheduler._tasks. rewrite Hid.
  split; [apply dict_get_set_same|]. split; [reflexivity|].
  split; [exact Hst|]. split; [exact Hint|].
  split; [intros key Hne; apply dict_get_set_other; exact Hne|].
  intros ->. subst task'. split; reflexivity.
Qed.

(* ===================================================================== *)
(** * Cycle after cycle *)
(* ===================================================================== *)

Lemma quiet_run_step (s : script) (now : datetime) (t : Task) :
  quiet s = true ->
  _stop_event t = false ->
  _pause_event t = true ->
  exists b now' t',
    run s (now, t) = Some (b, (now', t'))
    /\ _stop_event t' = false
    /\ _pause_event t' = true
    /\ error_count t' = (if body_raises s then S (error_count t) else error_count t).
Proof.
  intros Hq Hstop Hpause. unfold run.
  rewrite (run_path_quiet s now t Hq Hstop Hpause). cbn zeta.
  destruct (body_raises s).
  - do 3 eexists. split; [reflexivity|]. repeat split; assumption.
  - match goal with
    | |- context [if _check_execution_time ?c ?x then _ else _] =>
        destruct (_check_execution_time c x)
    end.
    + unfold on_completed.
      match goal with |- context [_update_next_run_time ?c ?x] => set (t1 := x) end.
      do 3 eexists. split; [reflexivity|]. simpl.
      match goal with |- context [_update_next_run_time ?c t1] =>
        destruct (update_next_run_time_frame t1 c) as (_ & _ & _ & _ & He & Hs & Hp & _)
      end.
      rewrite He, Hs, Hp. subst t1. simpl. repeat split; assumption.
    + do 3 eexists. split; [reflexivity|]. repeat split; assumption.
Qed.

(* ===================================================================== *)
(** * Callbacks that return *)
(* ===================================================================== *)

(** With callbacks that never raise, the functions of [Raising] are the
    functions written without them. *)
Section Calm.

Variable raises : behaviour.
Hypothesis never : forall t e, raises t e = false.

Lemma set_log_same (t : Task) : set_log (log t) t = t.
Proof. destruct t. reflexivity. Qed.

Lemma calm_call_all (calls : list event) (t : Task) :
  Raising.call_all raises calls t = (set_log (log t ++ calls) t, false).
Proof.
  revert t. induction calls as [|e rest IH]; intro t; simpl.
  - rewrite app_nil_r, set_log_same. reflexivity.
  - rewrite never, IH. simpl. rewrite <- app_assoc. reflexivity.
Qed.

Lemma calm_update_status (new_status : TaskStatus) (t : Task) :
  Raising._update_status raises new_status t = (_update_status new_status t, false).
Proof.
  unfold Raising._update_status, _update_status. rewrite calm_call_all. simpl.
  rewrite <- app_assoc. reflexivity.
Qed.

Lemma calm_pause (t : Task) :
  Raising.pause raises t
  = match pause t with
    | Ok t' => (t', None)
    | Raise e => (t, Some (Control e))
    end.
Proof.
  unfold Raising.pause, pause.
  destruct (status_eqb (status t) STOPPED); [reflexivity|].
  destruct (negb (status_eqb (status (set_pause_event false t)) RUNNING)); [|reflexivity].
  rewrite calm_update_status. reflexivity.
Qed.

Lemma calm_resume (now : datetime) (t : Task) :
  Raising.resume raises now t
  = match resume now t with
    | Ok t' => (t', None)
    | Raise e => (t, Some (Control e))
    end.
Proof.
  unfold Raising.resume, resume.
  destruct (status_eqb (status t) STOPPED); [reflexivity|].
  destruct (status_eqb (status (set_pause_event true t)) PAUSED); [|reflexivity].
  rewrite calm_update_status. cbv zeta.
  destruct (interval (_update_status PENDING (set_pause_event true t))); reflexivity.
Qed.

Lemma calm_stop (t : Task) : Raising.stop raises t = (stop t, None).
Proof. unfold Raising.stop, stop. rewrite calm_update_status. reflexivity. Qed.

Lemma calm_reset (now : datetime) (t : Task) :
  Raising.reset raises now t = (reset now t, None).
Proof. unfold Raising.reset, reset. rewrite calm_update_status. reflexivity. Qed.

Lemma calm_apply_control (c : control) (st : state) :
  Raising.apply_control raises c st = apply_control c st.
Proof.
  destruct st as [now t]. destruct c; simpl.
  - rewrite calm_pause. destruct (pause t); reflexivity.
  - rewrite calm_resume. destruct (resume now t); reflexivity.
  - rewrite calm_stop. reflexivity.
  - rewrite calm_reset. reflexivity.
  - reflexivity.
Qed.

Lemma calm_apply_controls (cs : list control) (st : state) :
  Raising.apply_controls raises cs st = apply_controls cs st.
Proof.
  revert st. induction cs as [|c rest IH]; intro st; simpl; [reflexivity|].
  rewrite calm_apply_control. apply IH.
Qed.

Lemma calm_wait_pause (wakes : list control) (st : state) :
  Raising.wait_pause raises wakes st = wait_pause wakes st.
Proof.
  revert st. induction wakes as [|c rest IH]; intro st; simpl; [reflexivity|].
  destruct (_pause_event (snd st)); [reflexivity|].
  rewrite calm_apply_control. apply IH.
Qed.

Lemma calm_check_interrupt (wakes : list control) (st : state) :
  Raising._check_interrupt raises wakes st
  = match _check_interrupt wakes st with
    | Some (go, wakes', st') => Some (answer_of go, wakes', st')
    | None => None
    end.
Proof.
  unfold Raising._check_interrupt, _check_interrupt.
  destruct (_stop_event (snd st)); [reflexivity|].
  destruct (negb (_pause_event (snd st))); [|reflexivity].
  rewrite calm_update_status, calm_wait_pause.
  destruct (wait_pause wakes (fst st, _update_status PAUSED (snd st)))
    as [[wakes1 st1]|]; [|reflexivity].
  destruct (_stop_event (snd st1)); [reflexivity|].
  rewrite calm_update_status. reflexivity.
Qed.

Lemma calm_poll (wakes : list control) (st : state) :
  Raising.poll raises wakes st = poll wakes st.
Proof.
  unfold Raising.poll, poll. destruct (supports_interrupt (snd st)); [|reflexivity].
  rewrite calm_check_interrupt.
  destruct (_check_interrupt wakes st) as [[[go w] st']|]; reflexivity.
Qed.

Lemma calm_exec_steps (steps : list step) (wakes : list control) (st : state) :
  Raising.exec_steps raises steps wakes st = exec_steps steps wakes st.
Proof.
  revert wakes st. induction steps as [|x rest IH]; intros wakes st; simpl; [reflexivity|].
  destruct x as [c|].
  - rewrite calm_apply_control. apply IH.
  - rewrite calm_poll. destruct (poll wakes st) as [[w st']|]; [apply IH | reflexivity].
Qed.

Lemma calm_begin_running (now : datetime) (t : Task) :
  Raising.begin_running raises now t = (begin_running now t, false).
Proof. unfold Raising.begin_running, begin_running. rewrite calm_update_status. reflexivity. Qed.

Lemma calm_on_completed (st : state) :
  Raising.on_completed raises st = (on_completed st, false).
Proof.
  destruct st as [now t]. unfold Raising.on_completed, on_completed.
  rewrite calm_update_status. cbv zeta. rewrite calm_call_all. reflexivity.
Qed.

Lemma calm_on_failed (st : state) :
  Raising.on_failed raises st = (on_failed st, false).
Proof.
  destruct st as [now t]. unfold Raising.on_failed, on_failed.
  rewrite calm_update_status. cbv zeta. rewrite calm_call_all. reflexivity.
Qed.

Lemma calm_run_path (s : script) (st : state) :
  Raising.run_path raises s st
  = match run_path s st with
    | Some (p, st') => Some (Return p, st')
    | None => None
    end.
Proof.
  unfold Raising.run_path, run_path.
  rewrite calm_check_interrupt.
  destruct (_check_interrupt (wake_ups s) st) as [[[go1 wakes1] st1]|]; [|reflexivity].
  destruct go1; [|reflexivity]. cbn [answer_of].
  rewrite calm_apply_controls, calm_check_interrupt.
  destruct (_check_interrupt [] (apply_controls (before_lock s) st1))
    as [[[go2 wakes2] st2]|]; [|reflexivity].
  destruct go2; [|reflexivity]. cbn [answer_of].
  rewrite calm_begin_running, calm_exec_steps. cbv zeta.
  destruct (exec_steps (body_steps s) wakes1 (fst st2, begin_running (fst st2) (snd st2)))
    as [[wakes3 st3]|]; [|reflexivity].
  destruct (body_raises s).
  { unfold Raising.handle. rewrite calm_on_failed. reflexivity. }
  rewrite calm_check_interrupt.
  destruct (_check_interrupt wakes3 st3) as [[[go4 wakes4] st4]|]; [|reflexivity].
  destruct go4; [|reflexivity]. cbn [answer_of].
  destruct (negb (_check_execution_time (fst st4) (snd st4))); [reflexivity|].
  rewrite calm_on_completed. reflexivity.
Qed.

Lemma calm_run (s : script) (st : state) :
  Raising.run raises s st
  = match run s st with
    | Some (b, st') => Some (Returned b, st')
    | None => None
    end.
Proof.
  unfold Raising.run, run. rewrite calm_run_path.
  destruct (run_path s st) as [[p st']|]; reflexivity.
Qed.

Lemma calm_run_batch (how : nat -> script) (keys : list nat) (now : datetime)
    (d : task_dict) :
  Raising.run_batch raises how keys now d
  = match Scheduler.run_batch how keys now d with
    | Some (ran, final) => Some (ran, false, final)
    | None => None
    end.
Proof.
  revert now d. induction keys as [|k rest IH]; intros now d; simpl; [reflexivity|].
  destruct (dict_get k d) as [t|]; [|apply IH].
  rewrite calm_run. destruct (run (how k) (now, t)) as [[b [now1 t1]]|]; [|reflexivity].
  rewrite IH.
  destruct (Scheduler.run_batch how rest now1 (dict_set k t1 d)) as [[ran final]|];
    reflexivity.
Qed.

Lemma calm_tick (env : tick_env) (now : datetime) (s : Scheduler.Scheduler) :
  Raising.tick raises env now s
  = match Scheduler.tick env now s with
    | Some (ran, rest) => Some (ran, false, rest)
    | None => None
    end.
Proof.
  unfold Raising.tick, Scheduler.tick. rewrite calm_run_batch.
  match goal with
  | |- context [Scheduler.run_batch ?h ?b ?n ?d] =>
      destruct (Scheduler.run_batch h b n d) as [[ran [now1 d1]]|]; reflexivity
  end.
Qed.

End Calm.

(* ===================================================================== *)
(** * What a cycle leaves alone, whatever the callbacks do *)
(* ===================================================================== *)

Section RaisingFrame.

Variable raises : behaviour.
Variable allowed : control -> bool.
Variable R : Task -> Task -> Prop.

Hypothesis R_refl : forall t, R t t.
Hypothesis R_trans : forall t1 t2 t3, R t1 t2 -> R t2 t3 -> R t1 t3.
Hypothesis R_status :
  forall new_status t,
    new_status <> COMPLETED -> new_status <> FAILED ->
    R t (fst (Raising._update_status raises new_status t)).
Hypothesis R_marker : forall v t, R t (set_execution_start_time v t).
Hypothesis R_control :
  forall c st, allowed c = true -> R (snd st) (snd (Raising.apply_control raises c st)).

Lemma raising_apply_controls_frame (cs : list control) (st : state) :
  forallb allowed cs = true -> R (snd st) (snd (Raising.apply_controls raises cs st)).
Proof.
  revert st. induction cs as [|c rest IH]; intros st Hall; simpl.
  - apply R_refl.
  - simpl in Hall. apply andb_true_iff in Hall. destruct Hall as [Hc Hrest].
    eapply R_trans; [apply R_control; exact Hc|]. apply IH. exact Hrest.
Qed.

Lemma raising_wait_pause_frame (wakes wakes' : list control) (st st' : state) :
  forallb allowed wakes = true ->
  Raising.wait_pause raises wakes st = Some (wakes', st') ->
  R (snd st) (snd st') /\ forallb allowed wakes' = true.
Proof.
  revert st. induction wakes as [|c rest IH]; intros st Hall Hw; simpl in Hw.
  - destruct (_pause_event (snd st)); [|discriminate].
    inversion Hw; subst. split; [apply R_refl | reflexivity].
  - destruct (_pause_event (snd st)).
    + inversion Hw; subst. split; [apply R_refl | exact Hall].
    + simpl in Hall. apply andb_true_iff in Hall. destruct Hall as [Hc Hrest].
      destruct (IH _ Hrest Hw) as [Hu Hall'].
      split; [|exact Hall'].
      eapply R_trans; [apply R_control; exact Hc | exact Hu].
Qed.

Lemma raising_check_interrupt_frame
    (wakes wakes' : list control) (st st' : state) (a : answer) :
  forallb allowed wakes = true ->
  Raising._check_interrupt raises wakes st = Some (a, wakes', st') ->
  R (snd st) (snd st')
  /\ forallb allowed wakes' = true
  /\ (a = Halt -> _stop_event (snd st') = true).
Proof.
  intros Hall. unfold Raising._check_interrupt.
  destruct (_stop_event (snd st)) eqn:Hstop.
  { intro H; inversion H; subst. split; [apply R_refl|]. split; [exact Hall|].
    intros _. exact Hstop. }
  destruct (_pause_event (snd st)); simpl.
  { intro H; inversion H; subst. split; [apply R_refl|]. split; [exact Hall|].
    discriminate. }
  pose proof (R_status PAUSED (snd st) ltac:(discriminate) ltac:(discriminate)) as Hp.
  destruct (Raising._update_status raises PAUSED (snd st)) as [t1 raised1].
  simpl in Hp. destruct raised1.
  { intro H; inversion H; subst. split; [exact Hp|]. split; [exact Hall|]. discriminate. }
  destruct (Raising.wait_pause raises wakes (fst st, t1)) as [[wakes1 st1]|] eqn:Hw;
    [|discriminate].
  destruct (raising_wait_pause_frame _ _ _ _ Hall Hw) as [Hu Hall1]. simpl in Hu.
  assert (Hu1 : R (snd st) (snd st1)) by (eapply R_trans; eassumption).
  destruct (_stop_event (snd st1)) eqn:Hstop1.
  { intro H; inversion H; subst. split; [exact Hu1|]. split; [exact Hall1|].
    intros _. exact Hstop1. }
  pose proof (R_status PENDING (snd st1) ltac:(discriminate) ltac:(discriminate)) as Hq.
  destruct (Raising._update_status raises PENDING (snd st1)) as [t2 raised2].
  simpl in Hq. intro H; inversion H; subst.
  split; [eapply R_trans; eassumption|]. split; [exact Hall1|].
  destruct raised2; discriminate.
Qed.

Lemma raising_exec_steps_frame
    (steps : list step) (wakes wakes' : list control) (st st' : state) :
  forallb (step_allows allowed) steps = true ->
  forallb allowed wakes = true ->
  Raising.exec_steps raises steps wakes st = Some (wakes', st') ->
  R (snd st) (snd st') /\ forallb allowed wakes' = true.
Proof.
  revert wakes st. induction steps as [|x rest IH]; intros wakes st Hsteps Hall Hex.
  - simpl in Hex. inversion Hex; subst. split; [apply R_refl | exact Hall].
  - simpl in Hsteps. apply andb_true_iff in Hsteps. destruct Hsteps as [Hx Hrest].
    destruct x as [c|]; simpl in Hex.
    + destruct (IH _ _ Hrest Hall Hex) as [Hu Hall'].
      split; [|exact Hall'].
      eapply R_trans; [apply R_control; exact Hx | exact Hu].
    + unfold Raising.poll in Hex. destruct (supports_interrupt (snd st)).
      * destruct (Raising._check_interrupt raises wakes st) as [[[a wakes1] st1]|] eqn:Hci;
          [|discriminate].
        destruct (raising_check_interrupt_frame _ _ _ _ _ Hall Hci) as (Hu1 & Hall1 & _).
        destruct (IH _ _ Hrest Hall1 Hex) as [Hu Hall'].
        split; [|exact Hall']. eapply R_trans; eassumption.
      * eapply IH; eassumption.
Qed.

Lemma handle_through (s : script) (st0 entered : state) (x : exit) (st' : state) :
  entered = st0
  \/ (body_raises s = false /\ Raising.on_completed raises st0 = (entered, true)) ->
  Raising.handle raises entered = (x, st') ->
  ended raises s x st0 st'.
Proof.
  intros Hfrom Hh. unfold Raising.handle in Hh.
  destruct (Raising.on_failed raises entered) as [st1 escaped] eqn:Hf.
  destruct escaped; inversion Hh; subst; simpl.
  - right. exists entered. split; assumption.
  - exists entered. split; assumption.
Qed.

(** [run] up to its last statements, for any behaviour of the callbacks. *)
Lemma raising_run_path_frame (s : script) (st st' : state) (x : exit) :
  script_allows allowed s = true ->
  Raising.run_path raises s st = Some (x, st') ->
  exists st0, R (snd st) (snd st0) /\ ended raises s x st0 st'.
Proof.
  intros Hs Hrun.
  unfold script_allows in Hs. apply andb_true_iff in Hs. destruct Hs as [Hs Hwakes].
  apply andb_true_iff in Hs. destruct Hs as [Hbefore Hbody].
  unfold Raising.run_path in Hrun.
  destruct (Raising._check_interrupt raises (wake_ups s) st)
    as [[[a1 wakes1] st1]|] eqn:H1; [|discriminate].
  destruct (raising_check_interrupt_frame _ _ _ _ _ Hwakes H1) as (Hu1 & Hall1 & Hhalt1).
  destruct a1.
  2:{ inversion Hrun; subst. exists st'. split; [exact Hu1|]. simpl.
      split; [reflexivity | apply Hhalt1; reflexivity]. }
  2:{ inversion Hrun; subst. exists st'. split; [exact Hu1|]. left. reflexivity. }
  pose proof (raising_apply_controls_frame (before_lock s) st1 Hbefore) as Hu2.
  destruct (Raising._check_interrupt raises [] (Raising.apply_controls raises (before_lock s) st1))
    as [[[a2 wakes2] st2]|] eqn:H2; [|discriminate].
  destruct (raising_check_interrupt_frame [] _ _ _ _ eq_refl H2) as (Hu3 & _ & Hhalt2).
  assert (Hu123 : R (snd st) (snd st2))
    by (eapply R_trans; [exact Hu1|]; eapply R_trans; [exact Hu2|exact Hu3]).
  destruct a2.
  2:{ inversion Hrun; subst. exists st'. split; [exact Hu123|]. simpl.
      split; [reflexivity | apply Hhalt2; reflexivity]. }
  2:{ exists st2. split; [exact Hu123|].
      destruct (Raising.handle raises st2) as [x2 st2'] eqn:Hh.
      inversion Hrun; subst. eapply handle_through; [left; reflexivity | exact Hh]. }
  assert (Hbegin : R (snd st2) (fst (Raising.begin_running raises (fst st2) (snd st2)))).
  { unfold Raising.begin_running.
    pose proof (R_status RUNNING (snd st2) ltac:(discriminate) ltac:(discriminate)) as Hr.
    destruct (Raising._update_status raises RUNNING (snd st2)) as [tr raised].
    simpl in Hr. destruct raised; simpl; [exact Hr|].
    eapply R_trans; [exact Hr | apply R_marker]. }
  destruct (Raising.begin_running raises (fst st2) (snd st2)) as [t3 raised3].
  simpl in Hbegin.
  assert (Hu3' : R (snd st) (snd (fst st2, t3)))
    by (simpl; eapply R_trans; eassumption).
  destruct raised3.
  { exists (fst st2, t3). split; [exact Hu3'|].
    destruct (Raising.handle raises (fst st2, t3)) as [x3 st3'] eqn:Hh.
    inversion Hrun; subst. eapply handle_through; [left; reflexivity | exact Hh]. }
  destruct (Raising.exec_steps raises (body_steps s) wakes1 (fst st2, t3))
    as [[wakes4 st4]|] eqn:H4; [|discriminate].
  destruct (raising_exec_steps_frame _ _ _ _ _ Hbody Hall1 H4) as [Hu4 Hall4].
  assert (Hu1234 : R (snd st) (snd st4)) by (eapply R_trans; eassumption).
  destruct (body_raises s) eqn:Hraise.
  { exists st4. split; [exact Hu1234|].
    destruct (Raising.handle raises st4) as [x4 st4'] eqn:Hh.
    inversion Hrun; subst. eapply handle_through; [left; reflexivity | exact Hh]. }
  destruct (Raising._check_interrupt raises wakes4 st4) as [[[a5 wakes5] st5]|] eqn:H5;
    [|discriminate].
  destruct (raising_check_interrupt_frame _ _ _ _ _ Hall4 H5) as (Hu5 & _ & Hhalt5).
  assert (Hfinal : R (snd st) (snd st5)) by (eapply R_trans; eassumption).
  destruct a5.
  2:{ inversion Hrun; subst. exists st'. split; [exact Hfinal|]. simpl.
      split; [reflexivity|]. split; [exact Hraise|]. left. apply Hhalt5. reflexivity. }
  2:{ exists st5. split; [exact Hfinal|].
      destruct (Raising.handle raises st5) as [x5 st5'] eqn:Hh.
      inversion Hrun; subst. eapply handle_through; [left; reflexivity | exact Hh]. }
  destruct (_check_execution_time (fst st5) (snd st5)) eqn:Hcheck; simpl in Hrun.
  2:{ inversion Hrun; subst. exists st'. split; [exact Hfinal|]. simpl.
      split; [reflexivity|]. split; [exact Hraise|]. right. exact Hcheck. }
  exists st5. split; [exact Hfinal|].
  destruct (Raising.on_completed raises st5) as [st6 raised6] eqn:Hc.
  destruct raised6.
  - destruct (Raising.handle raises st6) as [x6 st6'] eqn:Hh.
    inversion Hrun; subst.
    eapply handle_through; [right; split; [exact Hraise | exact Hc] | exact Hh].
  - inversion Hrun; subst. simpl. split; [exact Hraise | exact Hc].
Qed.

End RaisingFrame.

(* ===================================================================== *)
(** * What the calls of the callbacks leave *)
(* ===================================================================== *)

Lemma call_all_shape (raises : behaviour) (calls : list event) (t : Task) :
  exists made,
    fst (Raising.call_all raises calls t) = set_log (log t ++ made) t
    /\ (exists rest, calls = made ++ rest)
    /\ (snd (Raising.call_all raises calls t) = false -> made = calls).
Proof.
  revert t. induction calls as [|e rest IH]; intro t; simpl.
  - exists []. rewrite app_nil_r, set_log_same.
    split; [reflexivity|]. split; [exists []; reflexivity | reflexivity].
  - destruct (raises t e).
    + exists [e]. split; [reflexivity|]. split; [exists rest; reflexivity | discriminate].
    + destruct (IH (set_log (log t ++ [e]) t)) as (made & Hfst & [rest' Hrest] & Hall).
      exists (e :: made). split; [|split].
      * rewrite Hfst. simpl. rewrite <- app_assoc. reflexivity.
      * exists rest'. simpl. rewrite <- Hrest. reflexivity.
      * intro H. rewrite (Hall H). reflexivity.
Qed.

Lemma call_all_returns (raises : behaviour) (calls : list event) (t : Task) :
  (forall t' e, In e calls -> raises t' e = false) ->
  Raising.call_all raises calls t = (set_log (log t ++ calls) t, false).
Proof.
  revert t. induction calls as [|e rest IH]; intros t Hall; simpl.
  - rewrite app_nil_r, set_log_same. reflexivity.
  - rewrite (Hall t e (or_introl eq_refl)).
    rewrite IH by (intros t' e' Hin; apply Hall; right; exact Hin).
    simpl. rewrite <- app_assoc. reflexivity.
Qed.

Lemma update_status_shape (raises : behaviour) (new_status : TaskStatus) (t : Task) :
  exists made,
    fst (Raising._update_status raises new_status t)
    = set_log (log t ++ Transition (status t) new_status :: made) (set_status new_status t)
    /\ (exists rest,
          map (fun cb => StatusChangeCall cb (status t) new_status)
              (_on_status_change_callbacks t) = made ++ rest)
    /\ (snd (Raising._update_status raises new_status t) = false ->
        made = map (fun cb => StatusChangeCall cb (status t) new_status)
                   (_on_status_change_callbacks t)).
Proof.
  unfold Raising._update_status.
  match goal with
  | |- context [Raising.call_all raises ?calls ?t0] =>
      destruct (call_all_shape raises calls t0) as (made & Hfst & Hrest & Hall)
  end.
  exists made. split; [|split].
  - rewrite Hfst. simpl. rewrite <- app_assoc. reflexivity.
  - exact Hrest.
  - exact Hall.
Qed.

Lemma update_status_returns (raises : behaviour) (new_status : TaskStatus) (t : Task) :
  (forall t' e, announces new_status e = true -> raises t' e = false) ->
  Raising._update_status raises new_status t = (_update_status new_status t, false).
Proof.
  intro Hquiet. unfold Raising._update_status, _update_status.
  rewrite call_all_returns.
  - simpl. rewrite <- app_assoc. reflexivity.
  - intros t' e Hin. apply Hquiet. apply in_map_iff in Hin.
    destruct Hin as (cb & <- & _). simpl. destruct new_status; reflexivity.
Qed.

Lemma raising_update_status_undisturbed
    (raises : behaviour) (new_status : TaskStatus) (t : Task) :
  new_status <> COMPLETED -> new_status <> FAILED ->
  undisturbed t (fst (Raising._update_status raises new_status t)).
Proof.
  intros Hc Hf.
  destruct (update_status_shape raises new_status t) as (made & -> & [rest Hrest] & _).
  repeat split. eexists. split; [reflexivity|].
  constructor; [split; assumption|].
  apply Forall_forall. intros e Hin.
  assert (Hin' : In e (map (fun cb => StatusChangeCall cb (status t) new_status)
                           (_on_status_change_callbacks t)))
    by (rewrite Hrest; apply in_or_app; left; exact Hin).
  apply in_map_iff in Hin'. destruct Hin' as (cb & <- & _). split; assumption.
Qed.

Lemma raising_apply_control_undisturbed (raises : behaviour) (c : control) (st : state) :
  is_request c = true ->
  undisturbed (snd st) (snd (Raising.apply_control raises c st)).
Proof.
  destruct st as [now t]. destruct c; try discriminate; intros _; simpl.
  - unfold Raising.pause. destruct (status_eqb (status t) STOPPED);
      [apply undisturbed_refl|].
    destruct (negb (status_eqb (status (set_pause_event false t)) RUNNING)).
    + pose proof (raising_update_status_undisturbed raises PAUSED (set_pause_event false t)
                    ltac:(discriminate) ltac:(discriminate)) as Hu.
      destruct (Raising._update_status raises PAUSED (set_pause_event false t)) as [t1 r].
      simpl in *. eapply undisturbed_trans; [|exact Hu].
      apply same_log_undisturbed; reflexivity.
    + apply same_log_undisturbed; reflexivity.
  - unfold Raising.stop.
    pose proof (raising_update_status_undisturbed raises STOPPED
                  (set_pause_event true (set_stop_event true t))
                  ltac:(discriminate) ltac:(discriminate)) as Hu.
    destruct (Raising._update_status raises STOPPED
                (set_pause_event true (set_stop_event true t))) as [t1 r].
    simpl in *. eapply undisturbed_trans; [|exact Hu].
    apply same_log_undisturbed; reflexivity.
  - apply undisturbed_refl.
Qed.

(** [run] up to its last statements, with stop and pause requests and time
    passing around it. *)
Lemma raising_run_path_undisturbed
    (raises : behaviour) (s : script) (st st' : state) (x : exit) :
  script_allows is_request s = true ->
  Raising.run_path raises s st = Some (x, st') ->
  exists st0, undisturbed (snd st) (snd st0) /\ ended raises s x st0 st'.
Proof.
  apply raising_run_path_frame.
  - apply undisturbed_refl.
  - apply undisturbed_trans.
  - apply raising_update_status_undisturbed.
  - intros v t. apply same_log_undisturbed; reflexivity.
  - apply raising_apply_control_undisturbed.
Qed.

(* ===================================================================== *)
(** * Stop requests, the limit, and pause requests *)
(* ===================================================================== *)

Lemma raising_update_status_fields
    (raises : behaviour) (new_status : TaskStatus) (t : Task) :
  let t' := fst (Raising._update_status raises new_status t) in
  status t' = new_status
  /\ _stop_event t' = _stop_event t
  /\ _pause_event t' = _pause_event t
  /\ max_running_time t' = max_running_time t
  /\ _execution_start_time t' = _execution_start_time t
  /\ supports_interrupt t' = supports_interrupt t
  /\ last_run t' = last_run t
  /\ next_run t' = next_run t
  /\ error_count t' = error_count t
  /\ same_setup t t'.
Proof.
  destruct (update_status_shape raises new_status t) as (made & Heq & _).
  cbv zeta. rewrite Heq. repeat split.
Qed.



Lemma raising_check_awake (raises : behaviour) (wakes : list control) (st : state) :
  _pause_event (snd st) = true ->
  Raising._check_interrupt raises wakes st
  = Some (if _stop_event (snd st) then Halt else Go, wakes, st).
Proof.
  intro Hp. unfold Raising._check_interrupt. rewrite Hp.
  destruct (_stop_event (snd st)); reflexivity.
Qed.


Lemma begin_running_returns (raises : behaviour) (now : datetime) (t : Task) :
  (forall t' e, announces RUNNING e = true -> raises t' e = false) ->
  Raising.begin_running raises now t = (begin_running now t, false).
Proof.
  intro Hq. unfold Raising.begin_running, begin_running.
  rewrite update_status_returns by exact Hq. reflexivity.
Qed.


Lemma raising_apply_controls_quiet
    (raises : behaviour) (cs : list control) (now : datetime) (t : Task) :
  forallb is_elapse cs = true ->
  Raising.apply_controls raises cs (now, t) = (now + duration cs, t).
Proof.
  unfold Raising.apply_controls.
  revert now. induction cs as [|c rest IH]; intros now Hall; simpl.
  - rewrite Z.add_0_r. reflexivity.
  - simpl in Hall. apply andb_true_iff in Hall. destruct Hall as [Hc Hrest].
    destruct c; try discriminate. simpl.
    rewrite IH by exact Hrest. f_equal. lia.
Qed.

Lemma raising_exec_steps_quiet (raises : behaviour) (steps : list step)
    (wakes : list control) (now : datetime) (t : Task) :
  forallb (step_allows is_elapse) steps = true ->
  _stop_event t = false -> _pause_event t = true ->
  Raising.exec_steps raises steps wakes (now, t)
  = Some (wakes, (now + body_duration steps, t)).
Proof.
  intros Hall Hstop Hpause. revert now.
  induction steps as [|x rest IH]; intros now; simpl.
  - rewrite Z.add_0_r. reflexivity.
  - simpl in Hall. apply andb_true_iff in Hall. destruct Hall as [Hx Hrest].
    destruct x as [c|].
    + destruct c; try discriminate. simpl.
      rewrite IH by exact Hrest. do 3 f_equal. lia.
    + unfold Raising.poll. rewrite raising_check_awake by exact Hpause.
      simpl. destruct (supports_interrupt t); apply IH; exact Hrest.
Qed.

(** [run] in quiet surroundings, when the callbacks return at the
    transition to RUNNING: the body is run and ends after its duration. *)
Lemma raising_run_path_quiet (raises : behaviour) (s : script) (now : datetime) (t : Task) :
  (forall t' e, announces RUNNING e = true -> raises t' e = false) ->
  quiet s = true ->
  _stop_event t = false -> _pause_event t = true ->
  let started := now + duration (before_lock s) in
  let ended := started + body_duration (body_steps s) in
  Raising.run_path raises s (now, t)
  = Some (if body_raises s
          then Raising.handle raises (ended, begin_running started t)
          else if _check_execution_time ended (begin_running started t)
               then let '(st, raised) :=
                      Raising.on_completed raises (ended, begin_running started t) in
                    if raised then Raising.handle raises st else (Return Completed, st)
               else (Return AbortAfterBody, (ended, begin_running started t))).
Proof.
  intros Hq Hquiet Hstop Hpause started ended.
  unfold quiet in Hquiet. apply andb_true_iff in Hquiet. destruct Hquiet as [Hbefore Hbody].
  unfold Raising.run_path.
  rewrite raising_check_awake by exact Hpause. simpl _stop_event. rewrite Hstop.
  rewrite raising_apply_controls_quiet by exact Hbefore.
  rewrite raising_check_awake by exact Hpause. simpl _stop_event. rewrite Hstop.
  cbn [fst snd]. fold started.
  rewrite begin_running_returns by exact Hq.
  rewrite raising_exec_steps_quiet by (try exact Hbody; reflexivity || assumption).
  fold ended.
  destruct (body_raises s); [reflexivity|].
  rewrite raising_check_awake by exact Hpause. simpl _stop_event. rewrite Hstop.
  cbn [fst snd].
  destruct (_check_execution_time ended (begin_running started t)); [|reflexivity].
  cbn [negb].
  destruct (Raising.on_completed raises (ended, begin_running started t)) as [st1 r].
  destruct r; reflexivity.
Qed.





(* ===================================================================== *)
(** * Cycles that end in the handler *)
(* ===================================================================== *)

Lemma call_all_returned (raises : behaviour) (calls : list event) (t t' : Task) :
  Raising.call_all raises calls t = (t', false) -> t' = set_log (log t ++ calls) t.
Proof.
  intro H. destruct (call_all_shape raises calls t) as (made & Hfst & _ & Hall).
  rewrite H in Hfst, Hall. simpl in *. rewrite <- (Hall eq_refl). exact Hfst.
Qed.

Lemma update_status_returned (raises : behaviour) (new_status : TaskStatus) (t t' : Task) :
  Raising._update_status raises new_status t = (t', false) ->
  t' = _update_status new_status t.
Proof.
  intro H. destruct (update_status_shape raises new_status t) as (made & Hfst & _ & Hall).
  rewrite H in Hfst, Hall. simpl in *. rewrite (Hall eq_refl) in Hfst. exact Hfst.
Qed.

Lemma on_failed_returned (raises : behaviour) (st st' : state) :
  Raising.on_failed raises st = (st', false) -> st' = on_failed st.
Proof.
  destruct st as [now t]. unfold Raising.on_failed, on_failed.
  destruct (Raising._update_status raises FAILED (set_execution_start_time None t))
    as [t1 r1] eqn:H1.
  destruct r1; [discriminate|]. apply update_status_returned in H1. subst t1.
  match goal with
  | |- context [Raising.call_all raises ?calls ?t0] =>
      destruct (Raising.call_all raises calls t0) as [t2 r2] eqn:H2
  end.
  intro H. inversion H; subst. apply call_all_returned in H2. subst t2. reflexivity.
Qed.

Lemma on_completed_returned (raises : behaviour) (st st' : state) :
  Raising.on_completed raises st = (st', false) -> st' = on_completed st.
Proof.
  destruct st as [now t]. unfold Raising.on_completed, on_completed.
  destruct (Raising._update_status raises COMPLETED (set_execution_start_time None t))
    as [t1 r1] eqn:H1.
  destruct r1; [discriminate|]. apply update_status_returned in H1. subst t1.
  match goal with
  | |- context [Raising.call_all raises ?calls ?t0] =>
      destruct (Raising.call_all raises calls t0) as [t2 r2] eqn:H2
  end.
  intro H. inversion H; subst. apply call_all_returned in H2. subst t2. reflexivity.
Qed.

(** What the handler leaves, whether or not a callback raises in it. *)
Lemma on_failed_outcome (raises : behaviour) (st : state) :
  let st' := fst (Raising.on_failed raises st) in
  status (snd st') = FAILED
  /\ last_run (snd st') = last_run (snd st)
  /\ next_run (snd st') = next_run (snd st)
  /\ (error_count (snd st') = error_count (snd st)
      \/ error_count (snd st') = S (error_count (snd st)))
  /\ (snd (Raising._update_status raises FAILED
             (set_execution_start_time None (snd st))) = false ->
      error_count (snd st') = S (error_count (snd st)))
  /\ (snd (Raising._update_status raises FAILED
             (set_execution_start_time None (snd st))) = true ->
      snd (Raising.on_failed raises st) = true
      /\ error_count (snd st') = error_count (snd st)
      /\ forall cb, In (FailureCall cb) (log (snd st')) -> In (FailureCall cb) (log (snd st))).
Proof.
  destruct st as [now t]. unfold Raising.on_failed. cbn [snd].
  destruct (raising_update_status_fields raises FAILED (set_execution_start_time None t))
    as (Hs & _ & _ & _ & _ & _ & Hl & Hn & He & _).
  destruct (update_status_shape raises FAILED (set_execution_start_time None t))
    as (made & Hshape & [rest Hrest] & _).
  destruct (Raising._update_status raises FAILED (set_execution_start_time None t))
    as [t1 r1]. cbn [fst snd] in *.
  destruct r1.
  - cbn [fst snd]. rewrite Hs, Hl, Hn, He. simpl.
    split; [reflexivity|]. split; [reflexivity|]. split; [reflexivity|].
    split; [left; reflexivity|]. split; [discriminate|]. intros _.
    split; [reflexivity|]. split; [reflexivity|].
    intro cb. rewrite Hshape. simpl. intro Hin. apply in_app_or in Hin.
    destruct Hin as [Hin|[Hin|Hin]]; [exact Hin | discriminate |].
    assert (Hin' : In (FailureCall cb)
                      (map (fun cb0 => StatusChangeCall cb0 (status t) FAILED)
                           (_on_status_change_callbacks t)))
      by (simpl in Hrest; rewrite Hrest; apply in_or_app; left; exact Hin).
    apply in_map_iff in Hin'. destruct Hin' as (cb0 & Heq & _). discriminate.
  - match goal with
    | |- context [Raising.call_all raises ?calls ?t0] =>
        destruct (call_all_shape raises calls t0) as (made2 & Hfst2 & _);
          destruct (Raising.call_all raises calls t0) as [t2 r2]
    end.
    cbn [fst snd] in *. rewrite Hfst2. simpl. rewrite Hs, Hl, Hn, He. simpl.
    split; [reflexivity|]. split; [reflexivity|]. split; [reflexivity|].
    split; [right; reflexivity|]. split; [intros _; reflexivity | discriminate].
Qed.

Lemma raising_update_status_error_count
    (raises : behaviour) (new_status : TaskStatus) (t : Task) :
  error_count (fst (Raising._update_status raises new_status t)) = error_count t.
Proof.
  destruct (update_status_shape raises new_status t) as (made & -> & _). reflexivity.
Qed.

Lemma raising_apply_control_no_more_errors
    (raises : behaviour) (c : control) (st : state) :
  (error_count (snd (Raising.apply_control raises c st)) <= error_count (snd st))%nat.
Proof.
  destruct st as [now t]. destruct c; simpl.
  - unfold Raising.pause. destruct (status_eqb (status t) STOPPED); simpl; [lia|].
    destruct (negb (status_eqb (status t) RUNNING)); simpl; [|lia].
    pose proof (raising_update_status_error_count raises PAUSED (set_pause_event false t)) as He.
    destruct (Raising._update_status raises PAUSED (set_pause_event false t)) as [t1 r].
    simpl in *. lia.
  - unfold Raising.resume. destruct (status_eqb (status t) STOPPED); simpl; [lia|].
    destruct (status_eqb (status t) PAUSED); simpl; [|lia].
    pose proof (raising_update_status_error_count raises PENDING (set_pause_event true t)) as He.
    destruct (update_status_shape raises PENDING (set_pause_event true t)) as (made & Hs & _).
    destruct (Raising._update_status raises PENDING (set_pause_event true t)) as [t1 r].
    simpl in *. destruct r; simpl; [lia|].
    destruct (interval t1); simpl; lia.
  - unfold Raising.stop.
    pose proof (raising_update_status_error_count raises STOPPED
                  (set_pause_event true (set_stop_event true t))) as He.
    destruct (Raising._update_status raises STOPPED
                (set_pause_event true (set_stop_event true t))) as [t1 r].
    simpl in *. lia.
  - unfold Raising.reset.
    pose proof (raising_update_status_error_count raises PENDING
                  (set_error_count 0%nat (set_pause_event true (set_stop_event false t))))
      as He.
    destruct (Raising._update_status raises PENDING
                (set_error_count 0%nat (set_pause_event true (set_stop_event false t))))
      as [t1 r].
    simpl in *. destruct r; simpl; [lia|].
    destruct (update_next_run_time_frame t1 now) as (_ & _ & _ & _ & He' & _).
    rewrite He'. lia.
  - lia.
Qed.

(** Whatever the other contexts and the callbacks do, a cycle that [run]
    ends by one of its return statements other than the handler's does not
    raise [error_count]. *)
Lemma raising_run_path_no_more_errors
    (raises : behaviour) (s : script) (st st' : state) (p : path) :
  Raising.run_path raises s st = Some (Return p, st') ->
  p <> Failed ->
  (error_count (snd st') <= error_count (snd st))%nat.
Proof.
  intros Hrun Hp.
  destruct (raising_run_path_frame raises (fun _ => true)
              (fun t t' => (error_count t' <= error_count t)%nat)) with
    (s := s) (st := st) (st' := st') (x := Return p) as (st0 & Hle & Hend).
  - intros; lia.
  - intros; lia.
  - intros. rewrite raising_update_status_error_count. lia.
  - intros; simpl; lia.
  - intros c st1 _. apply raising_apply_control_no_more_errors.
  - apply script_allows_all.
  - exact Hrun.
  - destruct p; simpl in Hend; try congruence;
      try (destruct Hend as [-> _]; exact Hle).
    destruct Hend as [_ Hdone]. apply on_completed_returned in Hdone. subst st'.
    destruct st0 as [now0 t0]. unfold on_completed. cbn [snd].
    match goal with |- context [_update_next_run_time now0 ?x] => set (t1 := x) end.
    destruct (update_next_run_time_frame t1 now0) as (_ & _ & _ & _ & He & _).
    simpl. rewrite He. subst t1. simpl. exact Hle.
Qed.

Lemma call_all_first_raises (raises : behaviour) (e : event) (rest : list event) (t : Task) :
  raises t e = true -> snd (Raising.call_all raises (e :: rest) t) = true.
Proof. intro H. simpl. rewrite H. reflexivity. Qed.

(** A transition with a status-change callback registered, when the
    status-change callbacks raise at it: [_update_status] raises. *)
Lemma update_status_raises (raises : behaviour) (new_status : TaskStatus) (t : Task) :
  (forall t' e, announces new_status e = true -> raises t' e = true) ->
  _on_status_change_callbacks t <> [] ->
  snd (Raising._update_status raises new_status t) = true.
Proof.
  intros Hr Hne. unfold Raising._update_status. simpl.
  destruct (_on_status_change_callbacks t) as [|cb rest]; [contradiction|].
  simpl map. apply call_all_first_raises. apply Hr. simpl.
  destruct new_status; reflexivity.
Qed.

(** The handler after a body that raised, in quiet surroundings. *)
Lemma raising_body_enters_handler
    (raises : behaviour) (s : script) (now : datetime) (t : Task) :
  (forall t' e, announces RUNNING e = true -> raises t' e = false) ->
  quiet s = true ->
  _stop_event t = false -> _pause_event t = true ->
  body_raises s = true ->
  Raising.run_path raises s (now, t)
  = Some (Raising.handle raises
            (now + duration (before_lock s) + body_duration (body_steps s),
             begin_running (now + duration (before_lock s)) t)).
Proof.
  intros Hq Hquiet Hstop Hpause Hraise.
  rewrite (raising_run_path_quiet raises s now t Hq Hquiet Hstop Hpause). cbn zeta.
  rewrite Hraise. reflexivity.
Qed.

Lemma in_failed_cycle_running (e : event) :
  announces RUNNING e = true -> in_failed_cycle e = true.
Proof. unfold in_failed_cycle. intros ->. reflexivity. Qed.

Lemma in_failed_cycle_failed (e : event) :
  announces FAILED e = true -> in_failed_cycle e = true.
Proof. unfold in_failed_cycle. intros ->. apply orb_true_iff. left. apply orb_true_r. Qed.

Lemma on_failed_returns (raises : behaviour) (st : state) :
  (forall t e, in_failed_cycle e = true -> raises t e = false) ->
  Raising.on_failed raises st = (on_failed st, false).
Proof.
  intro Hq. destruct st as [now t]. unfold Raising.on_failed, on_failed.
  rewrite update_status_returns
    by (intros t' e He; apply Hq; apply in_failed_cycle_failed; exact He).
  rewrite call_all_returns; [reflexivity|].
  intros t' e Hin. apply Hq. apply in_map_iff in Hin. destruct Hin as (cb & <- & _).
  unfold in_failed_cycle. apply orb_true_r.
Qed.

(** C7 (refuted as stated).  A body that raises, with a status-change
    callback that raises when told of the transition to FAILED: the status
    is FAILED, [error_count] is not incremented, the failure callback is not
    called, and the exception leaves [run]. *)
Lemma raising_status_callback_skips_count :
  exists st',
    Raising.run raise_on_failed raising_script (at_ 0 12 0, watched_task)
    = Some (Raised, st')
    /\ body_raises raising_script = true
    /\ status (snd st') = FAILED
    /\ error_count (snd st') = error_count watched_task
    /\ _on_failure_callbacks watched_task = [8%nat]
    /\ ~ In (FailureCall 8%nat) (log (snd st')).
Proof.
  eexists. split; [vm_compute; reflexivity|].
  split; [reflexivity|]. split; [reflexivity|]. split; [reflexivity|].
  split; [reflexivity|]. simpl. intros [H|[H|[H|[H|[]]]]]; discriminate.
Qed.

(** C7 (amended).  With stop and pause requests and time passing around
    the cycle, and whatever the callbacks do, in a cycle whose body raises:
    - however [run] is left, [last_run] and [next_run] are as before;
    - when [run] returns from the handler it returns False, the status is
      FAILED, [error_count] is one more than before, and the log ends with
      the transition to FAILED, the status-change callbacks for it and the
      failure callbacks in their order of registration;
    - when an exception leaves [run], [error_count] is as before, or the
      status is FAILED and [error_count] is one more than before.
    Whatever the other contexts and the callbacks do, a cycle ended by
    another return statement of [run] does not raise [error_count].  In
    quiet surroundings a body that raises is followed by the handler: when
    the callbacks called return, [run] returns from it; when a status-change
    callback is registered and they raise at the transition to FAILED, the
    exception leaves [run] with status FAILED, [error_count] as before and
    no failure callback called. *)
Theorem handler_counts_once (raises : behaviour) (s : script) (st : state) :
  (script_allows is_request s = true -> body_raises s = true ->
   forall x st', Raising.run_path raises s st = Some (x, st') ->
     last_run (snd st') = last_run (snd st)
     /\ next_run (snd st') = next_run (snd st)
     /\ (x = Return Failed ->
         Raising.run raises s st = Some (Returned false, st')
         /\ status (snd st') = FAILED
         /\ error_count (snd st') = S (error_count (snd st))
         /\ exists old_status evs,
              Forall harmless evs
              /\ log (snd st')
                 = log (snd st) ++ evs
                   ++ Transition old_status FAILED
                      :: map (fun cb => StatusChangeCall cb old_status FAILED)
                             (_on_status_change_callbacks (snd st))
                   ++ map FailureCall (_on_failure_callbacks (snd st)))
     /\ (x = Escape ->
         Raising.run raises s st = Some (Raised, st')
         /\ (error_count (snd st') = error_count (snd st)
             \/ (status (snd st') = FAILED
                 /\ error_count (snd st') = S (error_count (snd st))))))
  /\ (forall p st', Raising.run_path raises s st = Some (Return p, st') -> p <> Failed ->
        (error_count (snd st') <= error_count (snd st))%nat)
  /\ (quiet s = true -> _stop_event (snd st) = false -> _pause_event (snd st) = true ->
      body_raises s = true ->
      (forall t e, announces RUNNING e = true -> raises t e = false) ->
      ((forall t e, in_failed_cycle e = true -> raises t e = false) ->
       exists st', Raising.run_path raises s st = Some (Return Failed, st'))
      /\ ((forall t e, announces FAILED e = true -> raises t e = true) ->
          _on_status_change_callbacks (snd st) <> [] ->
          exists st',
            Raising.run_path raises s st = Some (Escape, st')
            /\ status (snd st') = FAILED
            /\ error_count (snd st') = error_count (snd st)
            /\ forall cb, In (FailureCall cb) (log (snd st')) ->
                          In (FailureCall cb) (log (snd st)))).
Proof.
  split; [|split].
  - intros Hs Hraise x st' Hrun.
    destruct (raising_run_path_undisturbed raises s st st' x Hs Hrun) as (st0 & Hu & Hend).
    destruct Hu as (Hl & Hn & He & Hc1 & _ & Hc3 & evs & Hlog & Hall).
    assert (Hthrough : forall escaped, through_handler raises s escaped st0 st' ->
                         Raising.on_failed raises st0 = (st', escaped)).
    { intros escaped (entered & [->|[Hno _]] & Hf); [exact Hf | congruence]. }
    pose proof (on_failed_outcome raises st0) as Hout. cbv zeta in Hout.
    destruct Hout as (Hfs & Hfl & Hfn & Hfe & _).
    split; [|split; [|split]].
    + destruct x as [[| | | |]|]; simpl in Hend.
      * destruct Hend as [-> _]. exact Hl.
      * destruct Hend as [-> _]. exact Hl.
      * destruct Hend as (_ & Hno & _). congruence.
      * destruct Hend as [Hno _]. congruence.
      * apply Hthrough in Hend. rewrite Hend in Hfl. simpl in Hfl. congruence.
      * destruct Hend as [->|Hend]; [exact Hl|].
        apply Hthrough in Hend. rewrite Hend in Hfl. simpl in Hfl. congruence.
    + destruct x as [[| | | |]|]; simpl in Hend.
      * destruct Hend as [-> _]. exact Hn.
      * destruct Hend as [-> _]. exact Hn.
      * destruct Hend as (_ & Hno & _). congruence.
      * destruct Hend as [Hno _]. congruence.
      * apply Hthrough in Hend. rewrite Hend in Hfn. simpl in Hfn. congruence.
      * destruct Hend as [->|Hend]; [exact Hn|].
        apply Hthrough in Hend. rewrite Hend in Hfn. simpl in Hfn. congruence.
    + intros ->. simpl in Hend. apply Hthrough in Hend.
      apply on_failed_returned in Hend. subst st'.
      split; [unfold Raising.run; rewrite Hrun; reflexivity|].
      destruct st0 as [now0 t0]. simpl in *.
      split; [reflexivity|]. split; [rewrite He; reflexivity|].
      exists (status t0), evs. split; [exact Hall|].
      rewrite Hlog, Hc1, Hc3, <- !app_assoc. reflexivity.
    + intros ->. simpl in Hend.
      split; [unfold Raising.run; rewrite Hrun; reflexivity|].
      destruct Hend as [->|Hend]; [left; exact He|].
      apply Hthrough in Hend. rewrite Hend in Hfs, Hfe. simpl in Hfs, Hfe.
      destruct Hfe as [Hsame|Hmore]; [left; congruence | right].
      split; [exact Hfs | congruence].
  - intros p st'. apply raising_run_path_no_more_errors.
  - intros Hquiet Hstop Hpause Hraise Hq. destruct st as [now t]. simpl in *.
    rewrite (raising_body_enters_handler raises s now t Hq Hquiet Hstop Hpause Hraise).
    unfold Raising.handle. split.
    + intro Hcalls. rewrite on_failed_returns by exact Hcalls. eexists. reflexivity.
    + intros Hr Hne.
      match goal with
      | |- context [Raising.on_failed raises ?st1] =>
          pose proof (on_failed_outcome raises st1) as Hout; cbv zeta in Hout;
            destruct Hout as (Hfs & _ & _ & _ & _ & Hesc);
            destruct (Raising.on_failed raises st1) as [st2 r] eqn:Hof
      end.
      cbn [fst snd] in *.
      destruct Hesc as (Hr2 & He2 & Hlog2).
      { apply update_status_raises; [exact Hr|].
        unfold begin_running. simpl. exact Hne. }
      subst r. exists st2. split; [reflexivity|].
      split; [exact Hfs|].
      split; [rewrite He2; unfold begin_running; reflexivity|].
      intros cb Hin. specialize (Hlog2 cb Hin).
      unfold begin_running, _update_status in Hlog2. simpl in Hlog2.
      apply in_app_or in Hlog2. destruct Hlog2 as [H|H]; [exact H|].
      simpl in H. destruct H as [H|H]; [discriminate|].
      apply in_map_iff in H. destruct H as (cb0 & Heq & _). discriminate.
Qed.

Lemma handler_counts_once_witness :
  (exists st', Raising.run_path calm raising_script (at_ 0 12 0, watched_task)
               = Some (Return Failed, st'))
  /\ (exists st',
        Raising.run_path raise_on_failed raising_script (at_ 0 12 0, watched_task)
        = Some (Escape, st')
        /\ status (snd st') = FAILED
        /\ error_count (snd st') = error_count (snd (at_ 0 12 0, watched_task))
        /\ forall cb, In (FailureCall cb) (log (snd st')) ->
                      In (FailureCall cb) (log (snd (at_ 0 12 0, watched_task)))).
Proof.
  split.
  - exact (proj1 (proj2 (proj2 (handler_counts_once calm raising_script
                                  (at_ 0 12 0, watched_task)))
                    eq_refl eq_refl eq_refl eq_refl (fun _ _ _ => eq_refl))
             (fun _ _ _ => eq_refl)).
  - assert (Hrun : forall (t : Task) (e : event),
               announces RUNNING e = true -> raise_on_failed t e = false).
    { intros t e. unfold raise_on_failed.
      destruct e as [? ?|? ? new_status| |]; simpl; try congruence.
      destruct new_status; simpl; congruence. }
    assert (Hne : _on_status_change_callbacks (snd (at_ 0 12 0, watched_task)) <> [])
      by discriminate.
    exact (proj2 (proj2 (proj2 (handler_counts_once raise_on_failed raising_script
                                  (at_ 0 12 0, watched_task)))
                    eq_refl eq_refl eq_refl eq_refl Hrun)
             (fun _ _ H => H) Hne).
Defined.

(* ===================================================================== *)
(** * The batch of a tick, run in its order *)
(* ===================================================================== *)

Lemma in_sequence_ext (raises : behaviour) (how : nat -> script) (ran : list nat)
    (now : datetime) (d1 d2 d' : task_dict) (crashed : bool) (finished : datetime) :
  (forall k, In k ran -> dict_get k d1 = dict_get k d2) ->
  in_sequence raises how ran now d1 d' crashed finished ->
  in_sequence raises how ran now d2 d' crashed finished.
Proof.
  revert now. induction ran as [|k rest IH]; intros now Hsame Hseq; simpl in *;
    [exact Hseq|].
  destruct Hseq as (t & r & now1 & t' & Hget & Hrun & Hget' & Hrest).
  exists t, r, now1, t'. split; [rewrite <- Hsame by (left; reflexivity); exact Hget|].
  split; [exact Hrun|]. split; [exact Hget'|].
  destruct r; [|exact Hrest]. apply IH; [|exact Hrest].
  intros k' Hin. apply Hsame. right. exact Hin.
Qed.

(** The loop over a batch of distinct keys of the dict: the tasks are run
    in the order of the batch, one after the other, up to the first whose
    [run] lets an exception through; the other entries are left alone. *)
Lemma raising_run_batch_sequence (raises : behaviour) (how : nat -> script)
    (keys : list nat) :
  NoDup keys ->
  forall now d ran crashed now' d',
    (forall k, In k keys -> dict_get k d <> None) ->
    Raising.run_batch raises how keys now d = Some (ran, crashed, (now', d')) ->
    (exists rest, keys = ran ++ rest /\ (crashed = false -> rest = []))
    /\ in_sequence raises how ran now d d' crashed now'
    /\ (forall k, ~ In k ran -> dict_get k d' = dict_get k d).
Proof.
  induction 1 as [|k rest Hnotin Hnd IH]; intros now d ran crashed now' d' Hall Hrun;
    simpl in Hrun.
  - inversion Hrun; subst. split; [exists []; split; reflexivity|].
    split; [split; reflexivity|]. reflexivity.
  - destruct (dict_get k d) as [tk|] eqn:Hget.
    2:{ exfalso. apply (Hall k); [left; reflexivity | exact Hget]. }
    destruct (Raising.run raises (how k) (now, tk)) as [[r [now1 t1]]|] eqn:Hone;
      [|discriminate].
    destruct r as [b|].
    + destruct (Raising.run_batch raises how rest now1 (dict_set k t1 d))
        as [[[ran1 crashed1] [now2 d2]]|] eqn:Hrest; [|discriminate].
      inversion Hrun; subst. clear Hrun.
      destruct (IH now1 (dict_set k t1 d) ran1 crashed now' d') as (Hpre & Hseq & Hothers).
      { intros k' Hin. apply dict_get_set_some. apply Hall. right. exact Hin. }
      { exact Hrest. }
      destruct Hpre as (rest' & Hrest' & Hdone).
      assert (Hk : ~ In k ran1).
      { intro Hin. apply Hnotin. rewrite Hrest'. apply in_or_app. left. exact Hin. }
      split; [exists rest'; split; [simpl; congruence | exact Hdone]|].
      split.
      * simpl. exists tk, (Returned b), now1, t1.
        split; [exact Hget|]. split; [exact Hone|].
        split; [rewrite (Hothers k Hk); apply dict_get_set_same|].
        apply (in_sequence_ext raises how ran1 now1 (dict_set k t1 d)); [|exact Hseq].
        intros k' Hin. apply dict_get_set_other. intro Heq. subst k'. exact (Hk Hin).
      * intros k' Hnot. rewrite Hothers by (intro Hin; apply Hnot; right; exact Hin).
        apply dict_get_set_other. intro Heq. apply Hnot. left. congruence.
    + inversion Hrun; subst. clear Hrun.
      split; [exists rest; split; [reflexivity | discriminate]|].
      split.
      * simpl. exists tk, Raised, now', t1.
        split; [exact Hget|]. split; [exact Hone|].
        split; [apply dict_get_set_same|]. repeat split.
      * intros k' Hnot. apply dict_get_set_other. intro Heq. apply Hnot. left. congruence.
Qed.

(** The loop returns when the run of each task of the batch does. *)
Lemma raising_run_batch_returns (raises : behaviour) (how : nat -> script)
    (keys : list nat) :
  NoDup keys ->
  forall now d,
    (forall k t start, In k keys -> dict_get k d = Some t ->
                       Raising.run raises (how k) (start, t) <> None) ->
    Raising.run_batch raises how keys now d <> None.
Proof.
  induction 1 as [|k rest Hnotin Hnd IH]; intros now d Hall; simpl; [discriminate|].
  destruct (dict_get k d) as [tk|] eqn:Hget.
  2:{ apply IH. intros k' t start Hin. apply Hall. right. exact Hin. }
  pose proof (Hall k tk now (or_introl eq_refl) Hget) as Hone.
  destruct (Raising.run raises (how k) (now, tk)) as [[r [now1 t1]]|]; [|congruence].
  destruct r as [b|]; [|discriminate].
  assert (Hrest : Raising.run_batch raises how rest now1 (dict_set k t1 d) <> None).
  { apply IH. intros k' t start Hin Hget'. apply Hall; [right; exact Hin|].
    rewrite dict_get_set_other in Hget'; [exact Hget'|].
    intro Heq. subst k'. exact (Hnotin Hin). }
  destruct (Raising.run_batch raises how rest now1 (dict_set k t1 d))
    as [[[ran1 crashed1] final1]|]; [discriminate | congruence].
Qed.

Lemma raising_stays_awake (raises : behaviour) (c : control) (st : state) :
  not_pause c = true ->
  _pause_event (snd st) = true ->
  _pause_event (snd (Raising.apply_control raises c st)) = true.
Proof.
  destruct st as [now t]. destruct c; try discriminate; intros _ Hp; simpl in *.
  - unfold Raising.resume. destruct (status_eqb (status t) STOPPED); simpl; [exact Hp|].
    destruct (status_eqb (status t) PAUSED); simpl; [|reflexivity].
    destruct (raising_update_status_fields raises PENDING (set_pause_event true t))
      as (_ & _ & Hpe & _).
    destruct (Raising._update_status raises PENDING (set_pause_event true t)) as [t1 r].
    simpl in *. destruct r; simpl; [exact Hpe|].
    destruct (interval t1); simpl; exact Hpe.
  - unfold Raising.stop.
    destruct (raising_update_status_fields raises STOPPED
                (set_pause_event true (set_stop_event true t))) as (_ & _ & Hpe & _).
    destruct (Raising._update_status raises STOPPED
                (set_pause_event true (set_stop_event true t))) as [t1 r].
    simpl in *. exact Hpe.
  - unfold Raising.reset.
    destruct (raising_update_status_fields raises PENDING
                (set_error_count 0%nat (set_pause_event true (set_stop_event false t))))
      as (_ & _ & Hpe & _).
    destruct (Raising._update_status raises PENDING
                (set_error_count 0%nat (set_pause_event true (set_stop_event false t))))
      as [t1 r].
    simpl in *. destruct r; simpl; [exact Hpe|].
    destruct (update_next_run_time_frame t1 now) as (_ & _ & _ & _ & _ & _ & H & _).
    rewrite H. exact Hpe.
  - exact Hp.
Qed.

Lemma raising_controls_stay_awake (raises : behaviour) (cs : list control) (st : state) :
  forallb not_pause cs = true ->
  _pause_event (snd st) = true ->
  _pause_event (snd (Raising.apply_controls raises cs st)) = true.
Proof.
  unfold Raising.apply_controls.
  revert st. induction cs as [|c rest IH]; intros st Hall Hp; simpl; [exact Hp|].
  simpl in Hall. apply andb_true_iff in Hall. destruct Hall as [Hc Hrest].
  apply IH; [exact Hrest|]. apply raising_stays_awake; assumption.
Qed.

Lemma raising_steps_stay_awake (raises : behaviour) (steps : list step)
    (wakes : list control) (st : state) :
  forallb (step_allows not_pause) steps = true ->
  _pause_event (snd st) = true ->
  exists st', Raising.exec_steps raises steps wakes st = Some (wakes, st')
              /\ _pause_event (snd st') = true.
Proof.
  revert st. induction steps as [|x rest IH]; intros st Hall Hp; simpl.
  - exists st. split; [reflexivity | exact Hp].
  - simpl in Hall. apply andb_true_iff in Hall. destruct Hall as [Hx Hrest].
    destruct x as [c|].
    + apply IH; [exact Hrest|]. apply raising_stays_awake; assumption.
    + unfold Raising.poll. rewrite raising_check_awake by exact Hp.
      destruct (IH st Hrest Hp) as (st' & Hex & Hp').
      exists st'. split; [destruct (supports_interrupt (snd st)); exact Hex | exact Hp'].
Qed.

Lemma handle_returns (raises : behaviour) (st : state) :
  exists x st', Raising.handle raises st = (x, st').
Proof.
  unfold Raising.handle. destruct (Raising.on_failed raises st) as [st1 r].
  eexists. eexists. reflexivity.
Qed.

(** Whatever the callbacks do, [run] comes back (with a result or an
    exception) when the task has no pause pending and nobody asks for
    one. *)
Lemma raising_run_returns_unless_paused (raises : behaviour) (s : script) (st : state) :
  script_allows not_pause s = true ->
  _pause_event (snd st) = true ->
  Raising.run raises s st <> None.
Proof.
  intros Hs Hp.
  unfold script_allows in Hs. apply andb_true_iff in Hs. destruct Hs as [Hs _].
  apply andb_true_iff in Hs. destruct Hs as [Hbefore Hbody].
  assert (Hh : forall st1, (let '(x, st2) := Raising.handle raises st1 in
                            Some (exit_result x, st2)) <> None).
  { intro st1. destruct (Raising.handle raises st1). discriminate. }
  unfold Raising.run, Raising.run_path.
  rewrite raising_check_awake by exact Hp.
  destruct (_stop_event (snd st)); [discriminate|].
  pose proof (raising_controls_stay_awake raises _ _ Hbefore Hp) as Hp1.
  rewrite raising_check_awake by exact Hp1.
  set (st1 := Raising.apply_controls raises (before_lock s) st) in *.
  destruct (_stop_event (snd st1)); [discriminate|].
  destruct (raising_update_status_fields raises RUNNING (snd st1)) as (_ & _ & Hpe & _).
  unfold Raising.begin_running.
  destruct (Raising._update_status raises RUNNING (snd st1)) as [t2 r2]. simpl in Hpe.
  destruct r2.
  { destruct (Raising.handle raises (fst st1, t2)). discriminate. }
  destruct (raising_steps_stay_awake raises (body_steps s) (wake_ups s)
              (fst st1, set_execution_start_time (Some (fst st1)) t2) Hbody)
    as (st3 & Hex & Hp3).
  { simpl. rewrite Hpe. exact Hp1. }
  rewrite Hex.
  destruct (body_raises s).
  { destruct (Raising.handle raises st3). discriminate. }
  rewrite raising_check_awake by exact Hp3.
  destruct (_stop_event (snd st3)); [discriminate|].
  destruct (negb (_check_execution_time (fst st3) (snd st3))); [discriminate|].
  destruct (Raising.on_completed raises st3) as [st4 r4].
  destruct r4; [|discriminate].
  destruct (Raising.handle raises st4). discriminate.
Qed.

(** A task with a pause pending that nobody wakes: its [run] never
    returns. *)
Lemma paused_run_never_returns (raises : behaviour) (s : script) (st : state) :
  (forall t e, announces PAUSED e = true -> raises t e = false) ->
  _stop_event (snd st) = false -> _pause_event (snd st) = false ->
  wake_ups s = [] ->
  Raising.run raises s st = None.
Proof.
  intros Hq Hstop Hpause Hw.
  unfold Raising.run, Raising.run_path, Raising._check_interrupt.
  rewrite Hstop, Hpause, Hw. simpl negb. cbv iota.
  rewrite update_status_returns by exact Hq.
  simpl. rewrite Hpause. reflexivity.
Qed.

Lemma batch_of_distinct (env : tick_env) (now : datetime) (s : Scheduler.Scheduler) :
  well_keyed (Scheduler._tasks s) -> NoDup (batch_of env now s).
Proof.
  intro Hnd. unfold batch_of.
  destruct (halt_after env); [apply firstn_distinct|]; apply ready_keys_distinct; exact Hnd.
Qed.

Lemma batch_of_in_dict (env : tick_env) (now : datetime) (s : Scheduler.Scheduler) (k : nat) :
  In k (batch_of env now s) -> dict_get k (Scheduler._tasks s) <> None.
Proof.
  intro Hin. apply (ready_keys_in_dict now s). unfold batch_of in Hin.
  destruct (halt_after env) as [n|]; [|exact Hin].
  rewrite <- (firstn_skipn n). apply in_or_app. left. exact Hin.
Qed.

(** The order of four ready tasks registered as LOW, CRITICAL, NORMAL,
    HIGH. *)
Lemma four_priorities_order (now : datetime) (s : Scheduler.Scheduler)
    (k1 k2 k3 k4 : nat) (t1 t2 t3 t4 : Task) :
  Scheduler._tasks s = [(k1, t1); (k2, t2); (k3, t3); (k4, t4)] ->
  priority t1 = LOW -> priority t2 = CRITICAL ->
  priority t3 = NORMAL -> priority t4 = HIGH ->
  is_ready now t1 = true -> is_ready now t2 = true ->
  is_ready now t3 = true -> is_ready now t4 = true ->
  map fst (Scheduler.ready_tasks now s) = [k2; k4; k3; k1].
Proof.
  intros Htasks P1 P2 P3 P4 R1 R2 R3 R4.
  unfold Scheduler.ready_tasks.
  rewrite Htasks. simpl. rewrite R1, R2, R3, R4. simpl.
  do 4 (unfold task_lt; simpl; rewrite ?P1, ?P2, ?P3, ?P4; simpl).
  reflexivity.
Qed.

(** C8.  The snapshot of the ready tasks is sorted by descending priority,
    tasks of one priority in the order of the snapshot; four ready tasks
    registered with the priorities LOW, CRITICAL, NORMAL, HIGH come in the
    order CRITICAL, HIGH, NORMAL, LOW.  With distinct keys, whenever a tick
    comes back, the tasks it ran are the batch (the sorted snapshot up to
    the stop signal) from its first task on, all of it unless an exception
    left a [run]; they were run in that order, each starting when the one
    before ended, and the dict holds what each run left; the other tasks
    are as they were.  The tick comes back when the run of every task of
    the batch does, as when none has a pause pending and nobody asks for
    one; it never does when the first task of the batch has a pause pending
    and nobody wakes it. *)
Theorem dispatch_in_priority_order (raises : behaviour) (env : tick_env)
    (now : datetime) (s : Scheduler.Scheduler) :
  let snapshot := filter (fun kt => is_ready now (snd kt)) (Scheduler._tasks s) in
  let ordered := Scheduler.ready_tasks now s in
  (Permutation ordered snapshot
   /\ StronglySorted runs_before ordered
   /\ (forall p, of_priority p ordered = of_priority p snapshot)
   /\ (forall k1 k2 k3 k4 t1 t2 t3 t4,
         Scheduler._tasks s = [(k1, t1); (k2, t2); (k3, t3); (k4, t4)] ->
         priority t1 = LOW -> priority t2 = CRITICAL ->
         priority t3 = NORMAL -> priority t4 = HIGH ->
         is_ready now t1 = true -> is_ready now t2 = true ->
         is_ready now t3 = true -> is_ready now t4 = true ->
         map fst ordered = [k2; k4; k3; k1]))
  /\ (well_keyed (Scheduler._tasks s) ->
      forall ran crashed now' s',
        Raising.tick raises env now s = Some (ran, crashed, (now', s')) ->
        (exists rest, batch_of env now s = ran ++ rest /\ (crashed = false -> rest = []))
        /\ (exists finished,
              in_sequence raises (scripts env) ran now
                (Scheduler._tasks s) (Scheduler._tasks s') crashed finished
              /\ now' = if crashed then finished else finished + waited env)
        /\ (forall k, ~ In k ran ->
              Scheduler.get_task k s' = Scheduler.get_task k s))
  /\ (well_keyed (Scheduler._tasks s) ->
      ((forall k t start, In k (batch_of env now s) -> Scheduler.get_task k s = Some t ->
          Raising.run raises (scripts env k) (start, t) <> None) ->
       Raising.tick raises env now s <> None)
      /\ ((forall k t, In k (batch_of env now s) -> Scheduler.get_task k s = Some t ->
             script_allows not_pause (scripts env k) = true /\ _pause_event t = true) ->
          Raising.tick raises env now s <> None))
  /\ (forall k others t,
        batch_of env now s = k :: others ->
        Scheduler.get_task k s = Some t ->
        (forall t' e, announces PAUSED e = true -> raises t' e = false) ->
        _stop_event t = false -> _pause_event t = false ->
        wake_ups (scripts env k) = [] ->
        Raising.tick raises env now s = None).
Proof.
  intros snapshot ordered.
  assert (Htotal : well_keyed (Scheduler._tasks s) ->
            (forall k t start, In k (batch_of env now s) -> Scheduler.get_task k s = Some t ->
               Raising.run raises (scripts env k) (start, t) <> None) ->
            Raising.tick raises env now s <> None).
  { intros Hnd Hall. unfold Raising.tick. fold (batch_of env now s).
    pose proof (raising_run_batch_returns raises (scripts env) (batch_of env now s)
                  (batch_of_distinct env now s Hnd) now (Scheduler._tasks s) Hall) as Hb.
    destruct (Raising.run_batch raises (scripts env) (batch_of env now s) now
                (Scheduler._tasks s)) as [[[ran crashed] [now1 d1]]|]; [|congruence].
    destruct crashed; discriminate. }
  split; [|split; [|split]].
  - split; [apply sort_tasks_perm|].
    split; [apply sort_tasks_sorted|].
    split; [intro p; apply sort_tasks_stable|].
    intros k1 k2 k3 k4 t1 t2 t3 t4. apply four_priorities_order.
  - intros Hnd ran crashed now' s' Htick.
    unfold Raising.tick in Htick. fold (batch_of env now s) in Htick.
    destruct (Raising.run_batch raises (scripts env) (batch_of env now s) now
                (Scheduler._tasks s)) as [[[ran1 crashed1] [now1 d1]]|] eqn:Hbatch;
      [|discriminate].
    destruct (raising_run_batch_sequence raises (scripts env) (batch_of env now s)
                (batch_of_distinct env now s Hnd) now (Scheduler._tasks s)
                ran1 crashed1 now1 d1 (batch_of_in_dict env now s) Hbatch)
      as (Hpre & Hseq & Hothers).
    assert (Hd : ran = ran1 /\ crashed = crashed1 /\ Scheduler._tasks s' = d1
                 /\ now' = if crashed1 then now1 else now1 + waited env).
    { destruct crashed1; inversion Htick; subst; repeat split.
      destruct (halt_after env); reflexivity. }
    destruct Hd as (-> & -> & Hd1 & ->).
    split; [exact Hpre|].
    split; [exists now1; split; [rewrite Hd1; exact Hseq | reflexivity]|].
    intros k Hnot. unfold Scheduler.get_task. rewrite Hd1. apply Hothers. exact Hnot.
  - intro Hnd. split; [apply Htotal; exact Hnd|].
    intro Hall. apply Htotal; [exact Hnd|].
    intros k t start Hin Hget. destruct (Hall k t Hin Hget) as [Hs Hp].
    apply raising_run_returns_unless_paused; assumption.
  - intros k others t Hbatch Hget Hq Hstop Hpause Hw.
    unfold Raising.tick. fold (batch_of env now s). rewrite Hbatch. simpl.
    unfold Scheduler.get_task in Hget. rewrite Hget.
    rewrite (paused_run_never_returns raises (scripts env k) (now, t) Hq Hstop Hpause Hw).
    reflexivity.
Qed.

Lemma dispatch_in_priority_order_witness :
  (exists final,
     Raising.tick calm busy_tick (at_ 0 12 0) four_tasks
     = Some ([12%nat; 14%nat; 13%nat; 11%nat], false, final)
     /\ (exists finished,
           in_sequence calm (scripts busy_tick) [12%nat; 14%nat; 13%nat; 11%nat]
             (at_ 0 12 0) (Scheduler._tasks four_tasks) (Scheduler._tasks (snd final))
             false finished
           /\ fst final = finished + waited busy_tick)
     /\ option_map last_run (Scheduler.get_task 12 (snd final))
        = Some (Some (at_ 0 12 0 + seconds 2))
     /\ option_map last_run (Scheduler.get_task 14 (snd final))
        = Some (Some (at_ 0 12 0 + seconds 4))
     /\ option_map last_run (Scheduler.get_task 13 (snd final))
        = Some (Some (at_ 0 12 0 + seconds 6))
     /\ option_map last_run (Scheduler.get_task 11 (snd final))
        = Some (Some (at_ 0 12 0 + seconds 8)))
  /\ Raising.tick calm quiet_tick (at_ 0 12 0) with_paused_task = None.
Proof.
  assert (Hnd : well_keyed (Scheduler._tasks four_tasks)).
  { unfold well_keyed. simpl. repeat constructor; simpl; intuition discriminate. }
  split.
  - eexists (_, _).
    assert (H : Raising.tick calm busy_tick (at_ 0 12 0) four_tasks
                = Some ([12%nat; 14%nat; 13%nat; 11%nat], false, (_, _)))
      by (vm_compute; reflexivity).
    split; [exact H|].
    split; [exact (proj1 (proj2 (proj1 (proj2 (dispatch_in_priority_order
                      calm busy_tick (at_ 0 12 0) four_tasks)) Hnd _ _ _ _ H)))|].
    repeat split.
  - exact (proj2 (proj2 (proj2 (dispatch_in_priority_order
                    calm quiet_tick (at_ 0 12 0) with_paused_task)))
             1%nat [] (fst (Raising.pause calm sample_task))
             eq_refl eq_refl (fun _ _ _ => eq_refl) eq_refl eq_refl eq_refl).
Defined.

(* ===================================================================== *)
(** * Cycles that complete, and callbacks that raise in them *)
(* ===================================================================== *)

Lemma on_completed_returns (raises : behaviour) (st : state) :
  (forall t e, in_completed_cycle e = true -> raises t e = false) ->
  Raising.on_completed raises st = (on_completed st, false).
Proof.
  intro Hq. destruct st as [now t]. unfold Raising.on_completed, on_completed.
  rewrite update_status_returns.
  - rewrite call_all_returns; [reflexivity|].
    intros t' e Hin. apply Hq. apply in_map_iff in Hin. destruct Hin as (cb & <- & _).
    unfold in_completed_cycle. apply orb_true_r.
  - intros t' e He. apply Hq. unfold in_completed_cycle. rewrite He.
    rewrite orb_true_r. reflexivity.
Qed.

(** A cycle that completes with callbacks that cannot raise completes
    likewise when the callbacks called in it return. *)
Lemma completed_cycle_agrees
    (raises : behaviour) (s : script) (now : datetime) (t : Task) (st' : state) :
  (forall t' e, in_completed_cycle e = true -> raises t' e = false) ->
  quiet s = true ->
  _stop_event t = false -> _pause_event t = true ->
  run s (now, t) = Some (true, st') ->
  Raising.run raises s (now, t) = Some (Returned true, st').
Proof.
  intros Hq Hquiet Hstop Hpause Hrun.
  assert (Hrunning : forall t' e, announces RUNNING e = true -> raises t' e = false).
  { intros t' e He. apply Hq. unfold in_completed_cycle. rewrite He. reflexivity. }
  unfold run in Hrun. rewrite (run_path_quiet s now t Hquiet Hstop Hpause) in Hrun.
  cbn zeta in Hrun.
  unfold Raising.run.
  rewrite (raising_run_path_quiet raises s now t Hrunning Hquiet Hstop Hpause). cbn zeta.
  destruct (body_raises s); [discriminate|].
  match goal with
  | |- context [_check_execution_time ?c ?x] => destruct (_check_execution_time c x)
  end; [|discriminate].
  rewrite on_completed_returns by exact Hq.
  simpl in Hrun. inversion Hrun; subst. reflexivity.
Qed.

(** X7.  In quiet surroundings, when the callbacks called return, a body
    that returns within the limit gives a completed cycle: [run] returns
    True, [last_run] is the time of completion, [error_count] is as before,
    the log gains the transition to RUNNING, the transition to COMPLETED and
    the success callbacks in their order of registration.  With an interval,
    [next_run] is no earlier than the completion time plus the interval,
    exactly that without windows, and the task is not ready again before
    it. *)
Theorem quiet_cycle_completes
    (raises : behaviour) (s : script) (now : datetime) (t : Task) :
  (forall t' e, in_completed_cycle e = true -> raises t' e = false) ->
  quiet s = true ->
  body_raises s = false ->
  _stop_event t = false ->
  _pause_event t = true ->
  (forall limit, max_running_time t = Some limit ->
     limit = 0 \/ body_duration (body_steps s) <= limit) ->
  let ended := now + duration (before_lock s) + body_duration (body_steps s) in
  exists t',
    Raising.run raises s (now, t) = Some (Returned true, (ended, t'))
    /\ status t' = COMPLETED
    /\ last_run t' = Some ended
    /\ error_count t' = error_count t
    /\ log t' = log t
                ++ (Transition (status t) RUNNING
                    :: map (fun cb => StatusChangeCall cb (status t) RUNNING)
                           (_on_status_change_callbacks t))
                ++ (Transition RUNNING COMPLETED
                    :: map (fun cb => StatusChangeCall cb RUNNING COMPLETED)
                           (_on_status_change_callbacks t))
                ++ map SuccessCall (_on_success_callbacks t)
    /\ (forall every, interval t = Some every ->
          exists r,
            next_run t' = Some r
            /\ ended + every <= r
            /\ (time_windows t = [] -> r = ended + every)
            /\ (forall clock, clock < r -> is_ready clock t' = false)).
Proof.
  intros Hq Hquiet Hraise Hstop Hpause Hlimit ended.
  destruct (calm_quiet_cycle s now t Hquiet Hraise Hstop Hpause Hlimit)
    as (t' & Hrun & Hrest).
  exists t'. split; [|exact Hrest].
  apply completed_cycle_agrees; assumption.
Qed.

Lemma quiet_cycle_completes_witness :
  exists t',
    Raising.run calm (slow_script (seconds 2)) (at_ 0 12 0, watched_task)
    = Some (Returned true, (at_ 0 12 0 + 0 + (seconds 2 + 0), t'))
    /\ status t' = COMPLETED.
Proof.
  destruct (quiet_cycle_completes calm (slow_script (seconds 2)) (at_ 0 12 0) watched_task
              (fun _ _ _ => eq_refl) eq_refl eq_refl eq_refl eq_refl)
    as (t' & Hrun & Hst & _).
  - intros limit H. discriminate H.
  - exists t'. split; assumption.
Defined.

Lemma call_all_raises_first (raises : behaviour) (e : event) (rest : list event) (t : Task) :
  raises t e = true ->
  Raising.call_all raises (e :: rest) t = (set_log (log t ++ [e]) t, true).
Proof. intro H. simpl. rewrite H. reflexivity. Qed.

(** X26.  A success callback that raises turns a cycle whose body
    returned into a failed one.  In quiet surroundings, with a body that
    returns within the limit, status-change and failure callbacks that
    return, and a first success callback that raises: [run] returns False,
    the status is FAILED, [error_count] is one more than before, and
    [last_run] and [next_run] have moved all the same; the log gains the
    transitions to RUNNING and to COMPLETED, the call of that success
    callback, the transition from COMPLETED to FAILED and the failure
    callbacks. *)
Theorem raising_success_callback_fails_cycle
    (raises : behaviour) (s : script) (now : datetime) (t : Task)
    (cb : callback) (others : list callback) :
  (forall t' e, is_success_call e = false -> raises t' e = false) ->
  _on_success_callbacks t = cb :: others ->
  (forall t', raises t' (SuccessCall cb) = true) ->
  quiet s = true ->
  body_raises s = false ->
  _stop_event t = false ->
  _pause_event t = true ->
  (forall limit, max_running_time t = Some limit ->
     limit = 0 \/ body_duration (body_steps s) <= limit) ->
  let ended := now + duration (before_lock s) + body_duration (body_steps s) in
  exists t',
    Raising.run raises s (now, t) = Some (Returned false, (ended, t'))
    /\ status t' = FAILED
    /\ error_count t' = S (error_count t)
    /\ last_run t' = Some ended
    /\ (forall every, interval t = Some every ->
          exists r, next_run t' = Some r /\ ended + every <= r)
    /\ log t' = log t
                ++ (Transition (status t) RUNNING
                    :: map (fun c => StatusChangeCall c (status t) RUNNING)
                           (_on_status_change_callbacks t))
                ++ (Transition RUNNING COMPLETED
                    :: map (fun c => StatusChangeCall c RUNNING COMPLETED)
                           (_on_status_change_callbacks t))
                ++ [SuccessCall cb]
                ++ (Transition COMPLETED FAILED
                    :: map (fun c => StatusChangeCall c COMPLETED FAILED)
                           (_on_status_change_callbacks t))
                ++ map FailureCall (_on_failure_callbacks t).
Proof.
  intros Hq Hcbs Hcb Hquiet Hraise Hstop Hpause Hlimit ended.
  pose (started := now + duration (before_lock s)).
  assert (Hstatus : forall st t' e, announces st e = true -> raises t' e = false).
  { intros st t' e He. apply Hq. destruct e; try discriminate; reflexivity. }
  assert (Hcheck : _check_execution_time ended (begin_running started t) = true).
  { unfold _check_execution_time. simpl.
    destruct (max_running_time t) as [limit|] eqn:Hmax; [|reflexivity].
    destruct (Hlimit limit eq_refl) as [->|Hle]; [reflexivity|].
    destruct (Z.ltb_spec limit (ended - started)); [unfold ended, started in *; lia|].
    rewrite andb_false_r. reflexivity. }
  unfold Raising.run.
  rewrite (raising_run_path_quiet raises s now t (Hstatus RUNNING) Hquiet Hstop Hpause).
  cbn zeta.
  change (now + duration (before_lock s)) with started.
  change (started + body_duration (body_steps s)) with ended.
  rewrite Hraise, Hcheck.
  unfold Raising.on_completed.
  rewrite update_status_returns by (apply Hstatus).
  match goal with |- context [_update_next_run_time ended ?x] => set (t1 := x) end.
  destruct (update_next_run_time_frame t1 ended)
    as (_ & Hw & Hs & Hl & He & _ & _ & _ & Hlog).
  destruct (update_next_run_time_same_setup ended t1)
    as (_ & _ & _ & _ & _ & _ & _ & Hsc & Hok & Hfl).
  assert (Hok1 : _on_success_callbacks (_update_next_run_time ended t1) = cb :: others).
  { rewrite Hok. subst t1. simpl. exact Hcbs. }
  rewrite Hok1. simpl map.
  rewrite call_all_raises_first by apply Hcb.
  unfold Raising.handle, Raising.on_failed.
  rewrite update_status_returns by (apply Hstatus).
  rewrite call_all_returns.
  2:{ intros t' e Hin. apply Hq. apply in_map_iff in Hin.
      destruct Hin as (c & <- & _). reflexivity. }
  eexists. split; [reflexivity|].
  simpl. rewrite Hs, Hl, He, Hlog, Hsc, Hfl. subst t1. simpl.
  split; [reflexivity|]. split; [reflexivity|]. split; [reflexivity|].
  split.
  - intros every Hevery.
    match goal with |- context [_update_next_run_time ended ?x] => set (t1 := x) end.
    assert (Hi1 : interval t1 = Some every) by (subst t1; simpl; exact Hevery).
    destruct (update_next_run_time_cases ended t1 every Hi1) as (r & Hr & Hrange & _).
    assert (Hb : base_next_run ended every t1 = ended + every) by reflexivity.
    rewrite Hb in Hrange. exists r. split; [exact Hr | lia].
  - rewrite <- !app_assoc. reflexivity.
Qed.

Lemma raising_success_callback_fails_cycle_witness :
  exists t',
    Raising.run raise_on_success (slow_script (seconds 2)) (at_ 0 12 0, watched_task)
    = Some (Returned false, (at_ 0 12 0 + 0 + (seconds 2 + 0), t'))
    /\ status t' = FAILED
    /\ error_count t' = S (error_count watched_task)
    /\ last_run t' = Some (at_ 0 12 0 + 0 + (seconds 2 + 0)).
Proof.
  assert (Hq : forall (t' : Task) (e : event),
             is_success_call e = false -> raise_on_success t' e = false).
  { intros t' e. destruct e; simpl; congruence. }
  destruct (raising_success_callback_fails_cycle raise_on_success
              (slow_script (seconds 2)) (at_ 0 12 0) watched_task 9%nat []
              Hq eq_refl (fun _ => eq_refl) eq_refl eq_refl eq_refl eq_refl)
    as (t' & Hrun & Hst & Herr & Hl & _).
  - intros limit H. discriminate H.
  - exists t'. repeat split; assumption.
Defined.

(* ===================================================================== *)
(** * The control calls, with callbacks that raise *)
(* ===================================================================== *)

(** X11.  What [stop] leaves, from the moment it holds the task's lock and
    whatever the status-change callbacks do then: the status is STOPPED,
    both events are set, the timing and the error count are as they were,
    and the log has the transition and the calls made up to the one that
    raised, all of them when [stop] returns.  After it [pause] and [resume]
    raise and change nothing, the dispatch filter refuses the task, and
    [run] returns False at once and changes nothing.  A second [stop]
    reports a transition from STOPPED to STOPPED once more. *)
Theorem stop_leaves_stopped
    (raises : behaviour) (s : script) (t : Task) (now clock : datetime) :
  let t' := fst (Raising.stop raises t) in
  status t' = STOPPED
  /\ _stop_event t' = true
  /\ _pause_event t' = true
  /\ last_run t' = last_run t
  /\ next_run t' = next_run t
  /\ error_count t' = error_count t
  /\ (exists made rest,
        log t' = log t ++ Transition (status t) STOPPED :: made
        /\ map (fun cb => StatusChangeCall cb (status t) STOPPED)
               (_on_status_change_callbacks t) = made ++ rest
        /\ (snd (Raising.stop raises t) = None -> rest = []))
  /\ Raising.pause raises t'
     = (t', Some (Control (TaskControlError "Cannot pause a stopped task")))
  /\ Raising.resume raises now t'
     = (t', Some (Control (TaskControlError "Cannot resume a stopped task")))
  /\ is_ready clock t' = false
  /\ Raising.run raises s (clock, t') = Some (Returned false, (clock, t'))
  /\ (exists made,
        log (fst (Raising.stop raises t')) = log t' ++ Transition STOPPED STOPPED :: made).
Proof.
  cbv zeta.
  assert (Hfst : forall u, fst (Raising.stop raises u)
                           = fst (Raising._update_status raises STOPPED
                                    (set_pause_event true (set_stop_event true u)))).
  { intro u. unfold Raising.stop.
    destruct (Raising._update_status raises STOPPED
                (set_pause_event true (set_stop_event true u))). reflexivity. }
  assert (Hsnd : snd (Raising.stop raises t) = None ->
                 snd (Raising._update_status raises STOPPED
                        (set_pause_event true (set_stop_event true t))) = false).
  { unfold Raising.stop.
    destruct (Raising._update_status raises STOPPED
                (set_pause_event true (set_stop_event true t))) as [u r].
    destruct r; simpl; [discriminate | reflexivity]. }
  destruct (update_status_shape raises STOPPED (set_pause_event true (set_stop_event true t)))
    as (made & Heq & [rest Hrest] & Hall).
  set (t' := fst (Raising.stop raises t)).
  assert (Ht' : t' = set_log (log t ++ Transition (status t) STOPPED :: made)
                       (set_status STOPPED (set_pause_event true (set_stop_event true t))))
    by (subst t'; rewrite Hfst; exact Heq).
  clearbody t'. subst t'.
  split; [reflexivity|]. split; [reflexivity|]. split; [reflexivity|].
  split; [reflexivity|]. split; [reflexivity|]. split; [reflexivity|].
  split.
  { exists made, rest. split; [reflexivity|]. split; [exact Hrest|].
    intro Hnone. specialize (Hall (Hsnd Hnone)). simpl in Hall, Hrest.
    rewrite <- Hall in Hrest. rewrite <- (app_nil_r made) in Hrest at 1.
    apply app_inv_head in Hrest. congruence. }
  split; [reflexivity|]. split; [reflexivity|]. split; [reflexivity|].
  split; [reflexivity|].
  rewrite Hfst.
  match goal with
  | |- context [Raising._update_status raises STOPPED ?u] =>
      destruct (update_status_shape raises STOPPED u) as (made2 & Heq2 & _)
  end.
  exists made2. rewrite Heq2. reflexivity.
Qed.

Lemma reset_fields (now : datetime) (t : Task) :
  status (reset now t) = PENDING
  /\ error_count (reset now t) = 0%nat
  /\ _stop_event (reset now t) = false
  /\ _pause_event (reset now t) = true
  /\ last_run (reset now t) = last_run t
  /\ max_running_time (reset now t) = max_running_time t.
Proof.
  unfold reset.
  match goal with |- context [_update_next_run_time now ?x] => set (t1 := x) end.
  destruct (update_next_run_time_frame t1 now)
    as (_ & _ & Hs & Hl & He & Hst & Hp & _).
  destruct (update_next_run_time_same_setup now t1) as (_ & _ & _ & _ & _ & Hm & _).
  rewrite Hs, Hl, He, Hst, Hp, Hm. subst t1. repeat split.
Qed.

(** X13.  [reset], from the moment it holds the task's lock.  When the
    status-change callbacks return at the transition to PENDING it returns,
    and the task, stopped, failed or paused as it may have been, is PENDING
    with no error counted and no stop or pause pending; a task without a
    limit then runs to completion in quiet surroundings when the callbacks
    called return.  When a status-change callback raises at that transition
    the exception leaves [reset]: status, counter and events are reset all
    the same, but [next_run] is not computed anew. *)
Theorem reset_makes_runnable
    (raises : behaviour) (s : script) (now clock : datetime) (t : Task) :
  ((forall t' e, announces PENDING e = true -> raises t' e = false) ->
   exists t0,
     Raising.reset raises now t = (t0, None)
     /\ status t0 = PENDING
     /\ error_count t0 = 0%nat
     /\ _stop_event t0 = false
     /\ _pause_event t0 = true
     /\ last_run t0 = last_run t
     /\ ((forall t' e, in_completed_cycle e = true -> raises t' e = false) ->
         quiet s = true -> body_raises s = false -> max_running_time t = None ->
         exists st',
           Raising.run raises s (clock, t0) = Some (Returned true, st')
           /\ status (snd st') = COMPLETED
           /\ error_count (snd st') = 0%nat))
  /\ ((forall t' e, announces PENDING e = true -> raises t' e = true) ->
      _on_status_change_callbacks t <> [] ->
      exists t0,
        Raising.reset raises now t = (t0, Some FromCallback)
        /\ status t0 = PENDING
        /\ error_count t0 = 0%nat
        /\ _stop_event t0 = false
        /\ _pause_event t0 = true
        /\ next_run t0 = next_run t).
Proof.
  split.
  - intro Hq. exists (reset now t).
    destruct (reset_fields now t) as (Hs & He & Hst & Hp & Hl & Hm).
    split.
    { unfold Raising.reset. rewrite update_status_returns by exact Hq. reflexivity. }
    repeat (split; [assumption|]).
    intros Hcalls Hquiet Hraise Hmax.
    destruct (calm_quiet_cycle s clock (reset now t) Hquiet Hraise Hst Hp)
      as (t' & Hrun & Hstatus & _ & Herr & _).
    { intros limit Hlimit. rewrite Hm, Hmax in Hlimit. discriminate. }
    eexists. split; [apply completed_cycle_agrees; eassumption|].
    simpl. split; [exact Hstatus | congruence].
  - intros Hr Hne. unfold Raising.reset.
    match goal with
    | |- context [Raising._update_status raises PENDING ?u] =>
        pose proof (update_status_raises raises PENDING u Hr Hne) as Hraised;
          destruct (raising_update_status_fields raises PENDING u)
          as (Hs & Hst & Hp & _ & _ & _ & _ & Hn & He & _);
          destruct (Raising._update_status raises PENDING u) as [t1 r]
    end.
    simpl in *. subst r. exists t1. repeat split; assumption.
Qed.

Lemma reset_makes_runnable_witness :
  exists t0,
    Raising.reset calm (at_ 0 12 0) (fst (Raising.stop calm watched_task)) = (t0, None)
    /\ status t0 = PENDING
    /\ exists st',
         Raising.run calm quiet_script (at_ 0 12 1, t0) = Some (Returned true, st')
         /\ status (snd st') = COMPLETED
         /\ error_count (snd st') = 0%nat.
Proof.
  destruct (proj1 (reset_makes_runnable calm quiet_script (at_ 0 12 0) (at_ 0 12 1)
                     (fst (Raising.stop calm watched_task)))
              (fun _ _ _ => eq_refl))
    as (t0 & Hreset & Hs & _ & _ & _ & _ & Hrun).
  exists t0. split; [exact Hreset|]. split; [exact Hs|].
  exact (Hrun (fun _ _ _ => eq_refl) eq_refl eq_refl eq_refl).
Defined.

(* ===================================================================== *)
(** * Cycle after cycle, with callbacks that return *)
(* ===================================================================== *)

(** X25.  With callbacks that never raise: over any number of cycles run
    one after the other in quiet surroundings, every [run] returns and
    [error_count] ends as it began plus the number of cycles whose body
    raised. *)
Theorem error_count_counts_failures
    (raises : behaviour) (ss : list script) (now : datetime) (t : Task) :
  (forall t' e, raises t' e = false) ->
  forallb quiet ss = true ->
  _stop_event t = false ->
  _pause_event t = true ->
  exists st',
    run_cycles raises ss (now, t) = Some st'
    /\ error_count (snd st') = (error_count t + failures ss)%nat.
Proof.
  intro Hnever. revert now t.
  induction ss as [|s rest IH]; intros now t Hall Hstop Hpause.
  - exists (now, t). split; [reflexivity|]. unfold failures. simpl. lia.
  - simpl in Hall. apply andb_true_iff in Hall. destruct Hall as [Hq Hrest].
    destruct (quiet_run_step s now t Hq Hstop Hpause)
      as (b & now1 & t1 & Hrun & Hstop1 & Hpause1 & Herr).
    destruct (IH now1 t1 Hrest Hstop1 Hpause1) as (st' & Hops & Hcount).
    exists st'. split.
    + simpl. rewrite (calm_run raises Hnever), Hrun. exact Hops.
    + rewrite Hcount, Herr. unfold failures. simpl.
      destruct (body_raises s); simpl; lia.
Qed.

Lemma error_count_counts_failures_witness :
  exists st',
    run_cycles calm [raising_script; quiet_script; raising_script]
      (at_ 0 12 0, watched_task) = Some st'
    /\ error_count (snd st')
       = (error_count watched_task
          + failures [raising_script; quiet_script; raising_script])%nat.
Proof.
  exact (error_count_counts_failures calm [raising_script; quiet_script; raising_script]
           (at_ 0 12 0) watched_task (fun _ _ => eq_refl) eq_refl eq_refl eq_refl).
Defined.
